(** * The repository subsystem of luet: pkg/installer/repository.go

    A shallow embedding of the repository descriptor, of the
    synchronisation protocol [Sync], of the registry generator and of the
    multi-repository aggregator, with the properties of the specification
    that are stated about them.

    Conventions of the embedding.
    - Go's [int] is a 64-bit two's complement integer: a [Z] together
      with [wrap_int] where the code does arithmetic.
    - Go maps ([map[string]T]) are [gmap string T]; slices are lists.
    - A Go function returning [(T, error)] returns [Result T]; errors are
      their messages, and [errors.Wrap] prefixes the message.
    - Code that reads or writes the disk, talks to the transport client
      or to the compiler backend is a state transformer over [State]
      that may fail: the monad [M].
    - Interfaces of the Go code ([pkg.Package], [pkg.PackageDatabase],
      [tree.Builder], the compiler backend, the transport client) are
      classes and records of operations; what lies behind them is left
      open and collected in [Env]. A collaborator returns, a value or
      an error.
    - The disk is a finite map from paths to files; directories are the
      common prefixes of the paths.
    - A nil dereference is a panic: the call does not return, its
      deferred functions run, and the panic goes on to the caller, which
      does the same ([Outcome]). The code reaches one from a spec
      document that is empty and from a repository without a compiler
      tree.
    - The repositories of a collection have a tree (as [Sync] leaves
      them): [Tree] is never nil. *)

From Stdlib Require Import ZArith Ascii String List Sorted Permutation Lia.
From stdpp Require Import base option list gmap strings sorting pretty.

Local Open Scope string_scope.
Local Open Scope Z_scope.

(** ** Constants (lines 40-53) *)

Definition REPOSITORY_METAFILE : string := "repository.meta.yaml".
Definition REPOSITORY_SPECFILE : string := "repository.yaml".
Definition TREE_TARBALL : string := "tree.tar".
Definition COMPILERTREE_TARBALL : string := "compilertree.tar".

Definition REPOFILE_TREE_KEY : string := "tree".
Definition REPOFILE_COMPILER_TREE_KEY : string := "compilertree".
Definition REPOFILE_META_KEY : string := "meta".

Definition DiskRepositoryType : string := "disk".
Definition HttpRepositoryType : string := "http".
Definition DockerRepositoryType : string := "docker".

(** [compiler.GZip] and [compiler.None], constants of the compiler
    package of type [CompressionImplementation], a string type. *)
Definition GZip : string := "gzip".
Definition NoCompression : string := "none".

(** ** Machine integers *)

(** Go's [int] on the 64-bit platforms the program is built for. *)
Definition wrap_int (z : Z) : Z := (z + 2 ^ 63) mod 2 ^ 64 - 2 ^ 63.

(** ** Results *)

Inductive Result (A : Type) : Type :=
| Ok (a : A)
| Err (e : string).
Arguments Ok {A} a.
Arguments Err {A} e.

(** [errors.Wrap(err, msg)] *)
Definition Wrap (e msg : string) : string := msg ++ ": " ++ e.

(** What a call does: it returns, a value or an error, or it panics. *)
Inductive Outcome (A : Type) : Type :=
| Returns (r : Result A)
| Panics (v : string).
Arguments Returns {A} r.
Arguments Panics {A} v.

(** A result is read as the outcome of a call that returned it, also
    inside a pair of an outcome and a state. *)
Coercion Returns : Result >-> Outcome.
#[local] Arguments pair {A B}%_type_scope & _ _.

Definition is_Ok {A} (r : Outcome A) : bool :=
  match r with Returns (Ok _) => true | _ => false end.

(** The value of the panic of a nil dereference. *)
Definition nil_dereference : string :=
  "runtime error: invalid memory address or nil pointer dereference".

(** ** Packages and package databases (interfaces of pkg/package) *)

(** The methods of [pkg.Package] the repository code calls. *)
Class PackageAPI (Package : Type) := {
  GetFingerPrint : Package -> string;
  IsSelector : Package -> bool;
  Matches : Package -> Package -> bool;
  HumanReadableString : Package -> string;
  ImageID : Package -> string;
}.

(** The queries of [pkg.PackageDatabase]; a query that returns an error
    in Go returns [None]. *)
Record PackageDatabase (Package : Type) := {
  db_World : list Package;
  FindPackage : Package -> option Package;
  FindPackageCandidate : Package -> option Package;
  FindPackageMatch : string -> option (list Package);
  FindPackageLabel : string -> option (list Package);
  FindPackageLabelMatch : string -> option (list Package);
}.
Arguments db_World {Package} _.
Arguments FindPackage {Package} _ _.
Arguments FindPackageCandidate {Package} _ _.
Arguments FindPackageMatch {Package} _ _.
Arguments FindPackageLabel {Package} _ _.
Arguments FindPackageLabelMatch {Package} _ _.

(** ** The data model (lines 55-103) *)

Record LuetRepositoryFile := {
  FileName : string;                    (* json:"filename" *)
  CompressionType : string;             (* json:"compressiontype,omitempty" *)
  Checksums : gmap string string;       (* json:"checksums,omitempty" *)
}.

Definition SetFileName (f : LuetRepositoryFile) (n : string) : LuetRepositoryFile :=
  {| FileName := n; CompressionType := CompressionType f; Checksums := Checksums f |}.
Definition GetFileName (f : LuetRepositoryFile) : string := FileName f.
Definition SetCompressionType (f : LuetRepositoryFile) (c : string) : LuetRepositoryFile :=
  {| FileName := FileName f; CompressionType := c; Checksums := Checksums f |}.
Definition GetCompressionType (f : LuetRepositoryFile) : string := CompressionType f.
Definition SetChecksums (f : LuetRepositoryFile) (c : gmap string string) : LuetRepositoryFile :=
  {| FileName := FileName f; CompressionType := CompressionType f; Checksums := c |}.
Definition GetChecksums (f : LuetRepositoryFile) : gmap string string := Checksums f.

Definition NewDefaultTreeRepositoryFile : LuetRepositoryFile :=
  {| FileName := TREE_TARBALL; CompressionType := GZip; Checksums := ∅ |}.
Definition NewDefaultCompilerTreeRepositoryFile : LuetRepositoryFile :=
  {| FileName := COMPILERTREE_TARBALL; CompressionType := GZip; Checksums := ∅ |}.
Definition NewDefaultMetaRepositoryFile : LuetRepositoryFile :=
  {| FileName := REPOSITORY_METAFILE ++ ".tar"; CompressionType := NoCompression;
     Checksums := ∅ |}.

(** [config.LuetRepository], the struct embedded in
    [LuetSystemRepository]. Its declaration is in pkg/config; the fields
    are those repository.go reads and writes. *)
Record LuetRepository := {
  Name : string;
  Description : string;
  Urls : list string;
  Type_ : string;
  Priority : Z;
  Enable : bool;
  Cached : bool;
  Authentication : gmap string string;
  TreePath : string;
  MetaPath : string;
  Verify : bool;
  Revision : Z;
  LastUpdate : string;
}.

(** Modelled from the spec: [config.NewLuetRepository], the constructor
    in pkg/config of the descriptor "created fresh when a repository is
    authored locally". It stores the name, type, description, mirror
    urls, priority and the two flags it is given; a fresh descriptor has
    not been published yet, so its revision is 0 (the first publish
    bumps it to 1) and its timestamp is empty, like every field the
    constructor is not given (Go's zero values). *)
Definition NewLuetRepository (name t descr : string) (urls : list string)
    (priority : Z) (enable cached : bool) : LuetRepository :=
  {| Name := name; Description := descr; Urls := urls; Type_ := t;
     Priority := priority; Enable := enable; Cached := cached;
     Authentication := ∅; TreePath := ""; MetaPath := "";
     Verify := false; Revision := 0; LastUpdate := "" |}.

Section Model.

Context {Package : Type} `{PackageAPI Package}.

(** [compiler.PackageArtifact], as far as repository.go looks into it. *)
Record PackageArtifact := {
  Path : string;
  CompileSpecPackage : Package;          (* a.GetCompileSpec().GetPackage() *)
  ArtifactCompressionType : string;
  ArtifactChecksums : gmap string string;
  Files : list string;
}.

(** [tree.Builder]: a recipe holding a package database. *)
Record Builder := {
  GetDatabase : PackageDatabase Package;
}.

(** [BuildTree] is nil ([None]) in a descriptor parsed from a document;
    [Tree] is set by every constructor the properties go through. *)
Record LuetSystemRepository := {
  Config : LuetRepository;               (* the embedded *config.LuetRepository *)
  Index : list PackageArtifact;
  BuildTree : option Builder;
  Tree : Builder;
  RepositoryFiles : gmap string LuetRepositoryFile;
  PushImages : bool;
  ForcePush : bool;
  imagePrefix : string;
}.

Record LuetSystemRepositorySerialized := {
  sName : string;                        (* json:"name" *)
  sDescription : string;                 (* json:"description,omitempty" *)
  sUrls : list string;                   (* json:"urls" *)
  sPriority : Z;                         (* json:"priority" *)
  sType : string;                        (* json:"type" *)
  sRevision : Z;                         (* json:"revision,omitempty" *)
  sLastUpdate : string;                  (* json:"last_update,omitempty" *)
  sTreePath : string;                    (* json:"treepath" *)
  sMetaPath : string;                    (* json:"metapath" *)
  sRepositoryFiles : gmap string LuetRepositoryFile;  (* json:"repo_files" *)
  sVerify : bool;                        (* json:"verify" *)
}.

Record LuetSystemRepositoryMetadata := {
  mIndex : list PackageArtifact;         (* json:"index,omitempty" *)
}.

(** The constant [FileSearch] of the source is [FileSearchMode] here:
    [FileSearch] is also the name of a method. *)
Inductive LuetSearchModeType := SLabel | SRegexPkg | SRegexLabel | FileSearchMode.

(** *** Accessors (lines 296-421) *)

Definition with_config (r : LuetSystemRepository) (c : LuetRepository) : LuetSystemRepository :=
  {| Config := c; Index := Index r; BuildTree := BuildTree r; Tree := Tree r;
     RepositoryFiles := RepositoryFiles r; PushImages := PushImages r;
     ForcePush := ForcePush r; imagePrefix := imagePrefix r |}.

Definition GetName (r : LuetSystemRepository) : string := Name (Config r).
Definition GetDescription (r : LuetSystemRepository) : string := Description (Config r).
Definition GetAuthentication (r : LuetSystemRepository) : gmap string string :=
  Authentication (Config r).
Definition GetType (r : LuetSystemRepository) : string := Type_ (Config r).
Definition GetVerify (r : LuetSystemRepository) : bool := Verify (Config r).
Definition GetUrls (r : LuetSystemRepository) : list string := Urls (Config r).
Definition GetPriority (r : LuetSystemRepository) : Z := Priority (Config r).
Definition GetTreePath (r : LuetSystemRepository) : string := TreePath (Config r).
Definition GetMetaPath (r : LuetSystemRepository) : string := MetaPath (Config r).
Definition GetIndex (r : LuetSystemRepository) : list PackageArtifact := Index r.
Definition GetTree (r : LuetSystemRepository) : Builder := Tree r.
Definition GetRevision (r : LuetSystemRepository) : Z := Revision (Config r).
Definition GetLastUpdate (r : LuetSystemRepository) : string := LastUpdate (Config r).

Definition SetPriority (r : LuetSystemRepository) (n : Z) : LuetSystemRepository :=
  let c := Config r in
  with_config r
    {| Name := Name c; Description := Description c; Urls := Urls c; Type_ := Type_ c;
       Priority := n; Enable := Enable c; Cached := Cached c;
       Authentication := Authentication c; TreePath := TreePath c;
       MetaPath := MetaPath c; Verify := Verify c; Revision := Revision c;
       LastUpdate := LastUpdate c |}.
Definition SetType (r : LuetSystemRepository) (p : string) : LuetSystemRepository :=
  let c := Config r in
  with_config r
    {| Name := Name c; Description := Description c; Urls := Urls c; Type_ := p;
       Priority := Priority c; Enable := Enable c; Cached := Cached c;
       Authentication := Authentication c; TreePath := TreePath c;
       MetaPath := MetaPath c; Verify := Verify c; Revision := Revision c;
       LastUpdate := LastUpdate c |}.
Definition SetVerify (r : LuetSystemRepository) (p : bool) : LuetSystemRepository :=
  let c := Config r in
  with_config r
    {| Name := Name c; Description := Description c; Urls := Urls c; Type_ := Type_ c;
       Priority := Priority c; Enable := Enable c; Cached := Cached c;
       Authentication := Authentication c; TreePath := TreePath c;
       MetaPath := MetaPath c; Verify := p; Revision := Revision c;
       LastUpdate := LastUpdate c |}.
Definition SetName (r : LuetSystemRepository) (p : string) : LuetSystemRepository :=
  let c := Config r in
  with_config r
    {| Name := p; Description := Description c; Urls := Urls c; Type_ := Type_ c;
       Priority := Priority c; Enable := Enable c; Cached := Cached c;
       Authentication := Authentication c; TreePath := TreePath c;
       MetaPath := MetaPath c; Verify := Verify c; Revision := Revision c;
       LastUpdate := LastUpdate c |}.
Definition SetUrls (r : LuetSystemRepository) (urls : list string) : LuetSystemRepository :=
  let c := Config r in
  with_config r
    {| Name := Name c; Description := Description c; Urls := urls; Type_ := Type_ c;
       Priority := Priority c; Enable := Enable c; Cached := Cached c;
       Authentication := Authentication c; TreePath := TreePath c;
       MetaPath := MetaPath c; Verify := Verify c; Revision := Revision c;
       LastUpdate := LastUpdate c |}.
Definition AddUrl (r : LuetSystemRepository) (p : string) : LuetSystemRepository :=
  SetUrls r (GetUrls r ++ [p])%list.
Definition SetTreePath (r : LuetSystemRepository) (p : string) : LuetSystemRepository :=
  let c := Config r in
  with_config r
    {| Name := Name c; Description := Description c; Urls := Urls c; Type_ := Type_ c;
       Priority := Priority c; Enable := Enable c; Cached := Cached c;
       Authentication := Authentication c; TreePath := p;
       MetaPath := MetaPath c; Verify := Verify c; Revision := Revision c;
       LastUpdate := LastUpdate c |}.
Definition SetMetaPath (r : LuetSystemRepository) (p : string) : LuetSystemRepository :=
  let c := Config r in
  with_config r
    {| Name := Name c; Description := Description c; Urls := Urls c; Type_ := Type_ c;
       Priority := Priority c; Enable := Enable c; Cached := Cached c;
       Authentication := Authentication c; TreePath := TreePath c;
       MetaPath := p; Verify := Verify c; Revision := Revision c;
       LastUpdate := LastUpdate c |}.
Definition SetAuthentication (r : LuetSystemRepository) (auth : gmap string string)
    : LuetSystemRepository :=
  let c := Config r in
  with_config r
    {| Name := Name c; Description := Description c; Urls := Urls c; Type_ := Type_ c;
       Priority := Priority c; Enable := Enable c; Cached := Cached c;
       Authentication := auth; TreePath := TreePath c;
       MetaPath := MetaPath c; Verify := Verify c; Revision := Revision c;
       LastUpdate := LastUpdate c |}.
Definition SetLastUpdate (r : LuetSystemRepository) (u : string) : LuetSystemRepository :=
  let c := Config r in
  with_config r
    {| Name := Name c; Description := Description c; Urls := Urls c; Type_ := Type_ c;
       Priority := Priority c; Enable := Enable c; Cached := Cached c;
       Authentication := Authentication c; TreePath := TreePath c;
       MetaPath := MetaPath c; Verify := Verify c; Revision := Revision c;
       LastUpdate := u |}.
(** [r.Revision = n], the assignments of [BumpRevision] and of
    [NewLuetSystemRepositoryFromYaml]. *)
Definition SetRevision (r : LuetSystemRepository) (n : Z) : LuetSystemRepository :=
  let c := Config r in
  with_config r
    {| Name := Name c; Description := Description c; Urls := Urls c; Type_ := Type_ c;
       Priority := Priority c; Enable := Enable c; Cached := Cached c;
       Authentication := Authentication c; TreePath := TreePath c;
       MetaPath := MetaPath c; Verify := Verify c; Revision := n;
       LastUpdate := LastUpdate c |}.
(** [r.LuetRepository.Revision++] *)
Definition IncrementRevision (r : LuetSystemRepository) : LuetSystemRepository :=
  SetRevision r (wrap_int (GetRevision r + 1)).
Definition SetTree (r : LuetSystemRepository) (b : Builder) : LuetSystemRepository :=
  {| Config := Config r; Index := Index r; BuildTree := BuildTree r; Tree := b;
     RepositoryFiles := RepositoryFiles r; PushImages := PushImages r;
     ForcePush := ForcePush r; imagePrefix := imagePrefix r |}.
Definition SetIndex (r : LuetSystemRepository) (i : list PackageArtifact)
    : LuetSystemRepository :=
  {| Config := Config r; Index := i; BuildTree := BuildTree r; Tree := Tree r;
     RepositoryFiles := RepositoryFiles r; PushImages := PushImages r;
     ForcePush := ForcePush r; imagePrefix := imagePrefix r |}.

(** [GetRepositoryFile] (lines 529-535) and [SetRepositoryFile]
    (lines 536-538). *)
Definition GetRepositoryFile (r : LuetSystemRepository) (name : string)
    : Result LuetRepositoryFile :=
  match RepositoryFiles r !! name with
  | Some ans => Ok ans
  | None => Err ("Repository file " ++ name ++ " not found!")
  end.
Definition SetRepositoryFile (r : LuetSystemRepository) (name : string)
    (f : LuetRepositoryFile) : LuetSystemRepository :=
  {| Config := Config r; Index := Index r; BuildTree := BuildTree r; Tree := Tree r;
     RepositoryFiles := <[name := f]> (RepositoryFiles r); PushImages := PushImages r;
     ForcePush := ForcePush r; imagePrefix := imagePrefix r |}.


(** ** Documents

    A YAML document is modelled by the keys it assigns: a key that the
    document leaves out is [None]. [yaml.Marshal] follows the json tags
    of the struct: a field tagged [omitempty] is left out when it holds
    the zero value of its type; [yaml.Unmarshal] leaves a field whose key
    is absent at its zero value and ignores keys it does not know, so a
    metadata document decodes as a spec document without keys and the
    other way round. The empty document is no mapping and no error:
    decoded into a struct it changes nothing, decoded into a nil pointer
    to a struct it leaves the pointer nil. Bytes that are not YAML do
    not decode. *)

Record RepositoryFileDocument := {
  d_filename : option string;
  d_compressiontype : option string;
  d_checksums : option (gmap string string);
}.

Record SpecDocument := {
  d_name : option string;
  d_description : option string;
  d_urls : option (list string);
  d_priority : option Z;
  d_type : option string;
  d_revision : option Z;
  d_last_update : option string;
  d_treepath : option string;
  d_metapath : option string;
  d_repo_files : option (gmap string RepositoryFileDocument);
  d_verify : option bool;
}.

(** What a regular file holds: a spec document, a metadata document,
    the empty document (a file of no bytes, or of nothing but [null],
    [~] or comments), or bytes that are not YAML (the bundles). *)
Inductive FileData :=
| SpecYaml (doc : SpecDocument)
| MetaYaml (index : option (list PackageArtifact))
| NullYaml
| Blob (bytes : string).

Definition omitempty_string (s : string) : option string :=
  if decide (s = "") then None else Some s.
Definition omitempty_int (z : Z) : option Z :=
  if decide (z = 0) then None else Some z.
Definition omitempty_map (m : gmap string string) : option (gmap string string) :=
  if decide (m = ∅) then None else Some m.

Definition encode_file (f : LuetRepositoryFile) : RepositoryFileDocument :=
  {| d_filename := Some (FileName f);
     d_compressiontype := omitempty_string (CompressionType f);
     d_checksums := omitempty_map (Checksums f) |}.
Definition decode_file (d : RepositoryFileDocument) : LuetRepositoryFile :=
  {| FileName := default "" (d_filename d);
     CompressionType := default "" (d_compressiontype d);
     Checksums := default ∅ (d_checksums d) |}.

Definition encode_spec (s : LuetSystemRepositorySerialized) : SpecDocument :=
  {| d_name := Some (sName s);
     d_description := omitempty_string (sDescription s);
     d_urls := Some (sUrls s);
     d_priority := Some (sPriority s);
     d_type := Some (sType s);
     d_revision := omitempty_int (sRevision s);
     d_last_update := omitempty_string (sLastUpdate s);
     d_treepath := Some (sTreePath s);
     d_metapath := Some (sMetaPath s);
     d_repo_files := Some (encode_file <$> sRepositoryFiles s);
     d_verify := Some (sVerify s) |}.
Definition decode_spec (d : SpecDocument) : LuetSystemRepositorySerialized :=
  {| sName := default "" (d_name d);
     sDescription := default "" (d_description d);
     sUrls := default [] (d_urls d);
     sPriority := default 0 (d_priority d);
     sType := default "" (d_type d);
     sRevision := default 0 (d_revision d);
     sLastUpdate := default "" (d_last_update d);
     sTreePath := default "" (d_treepath d);
     sMetaPath := default "" (d_metapath d);
     sRepositoryFiles := decode_file <$> default ∅ (d_repo_files d);
     sVerify := default false (d_verify d) |}.

Definition empty_spec_document : SpecDocument :=
  {| d_name := None; d_description := None; d_urls := None; d_priority := None;
     d_type := None; d_revision := None; d_last_update := None;
     d_treepath := None; d_metapath := None; d_repo_files := None;
     d_verify := None |}.

(** [yaml.Marshal(serialized)] for a [LuetSystemRepositorySerialized],
    and [yaml.Unmarshal(data, &p)] for a pointer [p] to one that is nil
    before the call: a mapping allocates the struct, the empty document
    leaves [p] nil ([None]) and is no error. *)
Definition yaml_Marshal_spec (s : LuetSystemRepositorySerialized) : FileData :=
  SpecYaml (encode_spec s).
Definition yaml_Unmarshal_spec (data : FileData)
    : Result (option LuetSystemRepositorySerialized) :=
  match data with
  | SpecYaml d => Ok (Some (decode_spec d))
  | MetaYaml _ => Ok (Some (decode_spec empty_spec_document))
  | NullYaml => Ok None
  | Blob _ => Err "yaml: unmarshal error"
  end.

(** The same for a [LuetSystemRepositoryMetadata]. *)
Definition yaml_Marshal_meta (m : LuetSystemRepositoryMetadata) : FileData :=
  MetaYaml (match mIndex m with [] => None | i => Some i end).
Definition yaml_Unmarshal_meta (data : FileData) : Result LuetSystemRepositoryMetadata :=
  match data with
  | MetaYaml i => Ok {| mIndex := default [] i |}
  | SpecYaml _ | NullYaml => Ok {| mIndex := [] |}
  | Blob _ => Err "yaml: unmarshal error"
  end.

(** [yaml.Unmarshal(dat, m)] into a metadata value that is already
    there: a key the document leaves out leaves the field as it was,
    and so does the empty document. *)
Definition yaml_Unmarshal_meta_into (m : LuetSystemRepositoryMetadata) (data : FileData)
    : Result LuetSystemRepositoryMetadata :=
  match data with
  | MetaYaml i => Ok {| mIndex := default (mIndex m) i |}
  | SpecYaml _ | NullYaml => Ok m
  | Blob _ => Err "yaml: unmarshal error"
  end.

(** ** The state: disk, backend, and what was asked of the collaborators *)

Inductive BusTopic := EventRepositoryPreBuild | EventRepositoryPostBuild.

Inductive Event :=
| EvDownload (name : string)                 (* Client.DownloadFile(name) *)
| EvVerify (path : string) (ok : bool)       (* Artifact.Verify() and its outcome *)
| EvBuild (tag : string)                     (* Artifact.GenerateFinalImage(tag, ...) *)
| EvPush (tag : string)                      (* Backend.Push(tag) *)
| EvDownloadImage (tag : string)             (* Backend.DownloadImage(tag) *)
| EvExtractRootfs (tag dst : string)         (* Backend.ExtractRootfs(tag, dst) *)
| EvBus (topic : BusTopic) (repo : LuetSystemRepository) (path : string)
| EvDebug (msg : list string)                (* logger.Debug *)
| EvInfo (msg : list string).                (* logger.Info, logger.InfoC *)

(** The transport clients of pkg/installer/client and the data they are
    built from. *)
Record RepoData := {
  rdUrls : list string;
  rdAuthentication : gmap string string;
  rdVerify : bool;
}.
Inductive ClientT :=
| LocalClient (d : RepoData)
| HttpClient (d : RepoData)
| DockerClient (d : RepoData).

(** The collaborators: process configuration, transport, archive and
    checksum primitives, tree storage, compiler backend, regular
    expressions, clock. Their results are left open. *)
Record Env := {
  BackendState : Type;
  (* config.LuetCfg.GetSystem() *)
  GetRepoDatabaseDirPath : string -> string;
  TempDirName : string -> nat -> Result string;
  (* client.DownloadFile: where the n-th download is stored and what it holds *)
  ClientDownload : ClientT -> string -> nat -> Result (string * FileData);
  (* compiler.Artifact *)
  ArtifactVerify : gmap string string -> string -> option FileData -> Result unit;
  ArtifactUnpack : string -> option FileData -> Result (list (string * FileData));
  ArtifactCompress : string -> string -> gmap string FileData -> Result (string * FileData);
  ArtifactHash : option FileData -> Result (gmap string string);
  CreateArtifactForFile : string -> option FileData -> nat -> Result (string * FileData);
  NewPackageArtifactFromYaml : FileData -> Result PackageArtifact;
  CleanPath : list PackageArtifact -> list PackageArtifact;
  (* helpers.Tar *)
  helpers_Tar : option FileData -> Result FileData;
  (* pkg.NewInMemoryDatabase(false), tree.Builder.Load and Save *)
  NewInMemoryDatabase : PackageDatabase Package;
  RecipeLoad : string -> gmap string FileData -> Result Builder;
  BuilderSave : Builder -> Result (list (string * FileData));
  (* compiler.CompilerBackend *)
  ImageAvailable : BackendState -> string -> bool;
  BackendPush : BackendState -> string -> Result unit * BackendState;
  BackendDownloadImage : BackendState -> string -> Result unit * BackendState;
  BackendExtractRootfs :
    BackendState -> string -> Result (list (string * FileData)) * BackendState;
  GenerateFinalImage :
    BackendState -> string -> option FileData -> bool -> Result unit * BackendState;
  (* regexp.Compile *)
  regexp_Compile : string -> Result (string -> bool);
  (* time.Now().Unix() *)
  time_Now_Unix : Z;
}.

Variable E : Env.

Record State := {
  fs : gmap string FileData;
  backend : BackendState E;
  trace : list Event;
  tmpseq : nat;
}.

Definition with_fs (w : State) (σ : gmap string FileData) : State :=
  {| fs := σ; backend := backend w; trace := trace w; tmpseq := tmpseq w |}.
Definition with_backend (w : State) (b : BackendState E) : State :=
  {| fs := fs w; backend := b; trace := trace w; tmpseq := tmpseq w |}.
Definition log_event (w : State) (e : Event) : State :=
  {| fs := fs w; backend := backend w; trace := (trace w ++ [e])%list; tmpseq := tmpseq w |}.
Definition next_tmp (w : State) : State :=
  {| fs := fs w; backend := backend w; trace := trace w; tmpseq := S (tmpseq w) |}.

(** *** The monad of fallible operations on the state *)

Definition M (A : Type) : Type := State -> Outcome A * State.

Definition ret {A} (a : A) : M A := fun w => (Ok a, w).
Definition fail {A} (e : string) : M A := fun w => (Err e, w).
Definition panic {A} (v : string) : M A := fun w => (Panics v, w).
(** [x, err := m; if err != nil { return err }]; a panic is not an
    error value and goes past the check. *)
Definition bind {A B} (m : M A) (f : A -> M B) : M B :=
  fun w => match m w with
           | (Returns (Ok a), w') => f a w'
           | (Returns (Err e), w') => (Err e, w')
           | (Panics v, w') => (Panics v, w')
           end.
(** [if err != nil { return errors.Wrap(err, msg) }] *)
Definition wrapped {A} (m : M A) (msg : string) : M A :=
  fun w => match m w with
           | (Returns (Ok a), w') => (Ok a, w')
           | (Returns (Err e), w') => (Err (Wrap e msg), w')
           | (Panics v, w') => (Panics v, w')
           end.
(** [defer cleanup]: [cleanup] runs when the function returns or
    panics, on every path through the statements [body] that follow the
    [defer]. *)
Definition defer {A} (cleanup : State -> State) (body : M A) : M A :=
  fun w => match body w with (r, w') => (r, cleanup w') end.
Definition lift {A} (r : Result A) : M A := fun w => (r, w).
Definition emit (e : Event) : M unit := fun w => (Ok tt, log_event w e).
Definition modify_fs (f : gmap string FileData -> gmap string FileData) : M unit :=
  fun w => (Ok tt, with_fs w (f (fs w))).
Definition get_fs : M (gmap string FileData) := fun w => (Ok (fs w), w).

Declare Scope m_scope.
Delimit Scope m_scope with M.
Notation "'let*' x ':=' m 'in' k" := (bind m (fun x => k))
  (at level 10, x name, m at level 100, k at level 200) : m_scope.
Notation "'run' m 'in' k" := (bind m (fun _ => k))
  (at level 10, m at level 100, k at level 200) : m_scope.
Local Open Scope m_scope.

Definition Debug (msg : list string) : M unit := emit (EvDebug msg).
Definition Info (msg : list string) : M unit := emit (EvInfo msg).

(** *** Paths and files *)

(** [filepath.Join] of two clean components. *)
Definition Join (dir name : string) : string :=
  if decide (dir = "") then name else dir ++ "/" ++ name.

(** [p] is [dir] or lies below it. *)
Definition under (dir p : string) : bool :=
  bool_decide (dir = p) || String.prefix (dir ++ "/") p.

(** The final component of a path. *)
Fixpoint path_Base_aux (acc p : string) : string :=
  match p with
  | EmptyString => acc
  | String c p' =>
      if Ascii.eqb c "/"%char then path_Base_aux "" p'
      else path_Base_aux (acc ++ String c "") p'
  end.
Definition path_Base (p : string) : string := path_Base_aux "" p.

(** [strings.HasSuffix] *)
Definition HasSuffix (s suffix : string) : bool :=
  String.eqb (substring (String.length s - String.length suffix)
                        (String.length suffix) s) suffix
  && (String.length suffix <=? String.length s)%nat.

(** The files of the disk at and below a path. *)
Definition files_under (dir : string) (σ : gmap string FileData) : gmap string FileData :=
  filter (fun kv => under dir kv.1 = true) σ.

(** [os.Remove] of a regular file and [os.RemoveAll]. *)
Definition os_Remove (p : string) (w : State) : State := with_fs w (delete p (fs w)).
Definition RemoveAll_fs (p : string) (σ : gmap string FileData) : gmap string FileData :=
  filter (fun kv => under p kv.1 = false) σ.
Definition os_RemoveAll (p : string) (w : State) : State :=
  with_fs w (RemoveAll_fs p (fs w)).

(** Writing the members of an unpacked archive below [dst]. *)
Definition write_files (dst : string) (files : list (string * FileData))
    (σ : gmap string FileData) : gmap string FileData :=
  foldl (fun σ' kv => <[Join dst kv.1 := kv.2]> σ') σ files.

(** [ioutil.ReadFile], [ioutil.WriteFile], [helpers.CopyFile]. The disk
    of the model takes every write: what is proved of a run that writes
    is proved of the runs in which the writes succeed. *)
Definition ioutil_ReadFile (σ : gmap string FileData) (file : string) : Result FileData :=
  match σ !! file with
  | Some d => Ok d
  | None => Err ("open " ++ file ++ ": no such file or directory")
  end.
Definition ioutil_WriteFile (p : string) (d : FileData) : M unit :=
  modify_fs (insert p d).
Definition helpers_CopyFile (src dst : string) : M unit :=
  let* σ := get_fs in
  let* d := lift (ioutil_ReadFile σ src) in
  modify_fs (insert dst d).

(** [config.LuetCfg.GetSystem().TempDir(pattern)]: a fresh directory. *)
Definition TempDir (pattern : string) : M string :=
  fun w => (TempDirName E pattern (tmpseq w), next_tmp w).

(** ** Descriptors and their documents *)

(** [tree.NewInstallerRecipe(db)] *)
Definition NewInstallerRecipe (db : PackageDatabase Package) : Builder :=
  {| GetDatabase := db |}.

(** [NewLuetSystemRepositoryFromYaml] (lines 263-294). The fields of
    [p] are read without a check that [p] is not nil (line 270). *)
Definition NewLuetSystemRepositoryFromYaml (data : FileData)
    (db : PackageDatabase Package) : Outcome LuetSystemRepository :=
  match yaml_Unmarshal_spec data with
  | Err e => Err e
  | Ok None => Panics nil_dereference
  | Ok (Some p) =>
      let repo :=
        NewLuetRepository (sName p) (sType p) (sDescription p) (sUrls p)
                          (sPriority p) true false in
      let r :=
        {| Config := repo; Index := []; BuildTree := None;
           Tree := NewInstallerRecipe db;
           RepositoryFiles := sRepositoryFiles p;
           PushImages := false; ForcePush := false; imagePrefix := "" |} in
      let r := SetVerify r (sVerify p) in
      let r := if bool_decide (0 < sRevision p) then SetRevision r (sRevision p) else r in
      let r := if bool_decide (sLastUpdate p ≠ "") then SetLastUpdate r (sLastUpdate p) else r in
      Ok (SetTree r (NewInstallerRecipe db))
  end.

(** [ReadSpecFile] (lines 540-562); it reads the disk and changes nothing. *)
Definition ReadSpecFile (σ : gmap string FileData) (file : string)
    : Outcome LuetSystemRepository :=
  match ioutil_ReadFile σ file with
  | Err e => Err (Wrap e ("Error reading file " ++ file))
  | Ok dat =>
      match NewLuetSystemRepositoryFromYaml dat (NewInMemoryDatabase E) with
      | Panics v => Panics v
      | Returns (Err e) => Err (Wrap e ("Error reading repository from file " ++ file))
      | Returns (Ok repo) =>
          match GetRepositoryFile repo REPOFILE_TREE_KEY with
          | Err _ => Err ("Invalid repository without the " ++ REPOFILE_TREE_KEY ++ " key file.")
          | Ok _ =>
              match GetRepositoryFile repo REPOFILE_META_KEY with
              | Err _ =>
                  Err ("Invalid repository without the " ++ REPOFILE_META_KEY ++ " key file.")
              | Ok _ => Ok repo
              end
          end
      end
  end.

Definition ReadSpecFileM (file : string) : M LuetSystemRepository :=
  fun w => (ReadSpecFile (fs w) file, w).

(** [os.Stat(p)] does not report [IsNotExist]. *)
Definition os_exists (σ : gmap string FileData) (p : string) : bool :=
  bool_decide (is_Some (σ !! p)).

(** [BumpRevision] (lines 424-439). *)
Definition BumpRevision (r : LuetSystemRepository) (repospec : string)
    (resetRevision : bool) : M LuetSystemRepository :=
  let* r1 :=
    (if resetRevision then ret (SetRevision r 0)
     else
       let* σ := get_fs in
       if os_exists σ repospec then
         let* spec := ReadSpecFileM repospec in
         ret (SetRevision r (GetRevision spec))
       else ret r) in
  ret (IncrementRevision r1).

(** [Serialize] (lines 809-836): the metadata, the serialised descriptor,
    and the repository with its index cleaned. *)
Definition Serialize (r : LuetSystemRepository)
    : LuetSystemRepository * LuetSystemRepositoryMetadata * LuetSystemRepositorySerialized :=
  let serialized :=
    {| sName := Name (Config r);
       sDescription := Description (Config r);
       sUrls := Urls (Config r);
       sPriority := Priority (Config r);
       sType := Type_ (Config r);
       sRevision := Revision (Config r);
       sLastUpdate := LastUpdate (Config r);
       sTreePath := "";
       sMetaPath := "";
       sRepositoryFiles := RepositoryFiles r;
       sVerify := Verify (Config r) |} in
  let r' := SetIndex r (CleanPath E (Index r)) in
  let meta := {| mIndex := foldl (fun acc a => (acc ++ [a])%list) [] (Index r') |} in
  (r', meta, serialized).

(** [LuetSystemRepositoryMetadata.ReadFile] through
    [NewLuetSystemRepositoryMetadata] (lines 105-147), with
    [removeFile = false], and [ToArtifactIndex] (lines 149-154). *)
Definition NewLuetSystemRepositoryMetadata (σ : gmap string FileData) (file : string)
    : Result LuetSystemRepositoryMetadata :=
  if decide (file = "") then Err "Invalid path for repository metadata"
  else
    match ioutil_ReadFile σ file with
    | Err e => Err e
    | Ok dat => yaml_Unmarshal_meta dat
    end.
Definition ToArtifactIndex (m : LuetSystemRepositoryMetadata) : list PackageArtifact :=
  foldl (fun ans a => (ans ++ [a])%list) [] (mIndex m).

(** [LuetSystemRepositoryMetadata.ReadFile] (lines 128-147) on the
    receiver [m], and [NewLuetSystemRepositoryMetadata] (lines 105-112)
    with the flag [removeFile]: the file is removed when the function
    returns, once it could be read. *)
Definition Metadata_ReadFile (m : LuetSystemRepositoryMetadata) (file : string)
    (removeFile : bool) : M LuetSystemRepositoryMetadata :=
  if decide (file = "") then fail "Invalid path for repository metadata"
  else
    let* σ := get_fs in
    let* dat := lift (ioutil_ReadFile σ file) in
    if removeFile then defer (os_Remove file) (lift (yaml_Unmarshal_meta_into m dat))
    else lift (yaml_Unmarshal_meta_into m dat).
Definition NewLuetSystemRepositoryMetadataM (file : string) (removeFile : bool)
    : M LuetSystemRepositoryMetadata :=
  Metadata_ReadFile {| mIndex := [] |} file removeFile.

(** [FileSearch] (lines 315-331). *)
Definition FileSearch (r : LuetSystemRepository) (pattern : string)
    : Result (list Package) :=
  match regexp_Compile E pattern with
  | Err e => Err e
  | Ok reg =>
      Ok (foldl (fun matches a =>
                   if existsb reg (Files a)
                   then (matches ++ [CompileSpecPackage a])%list else matches)
                [] (GetIndex r))
  end.

(** [SearchArtefact] (lines 619-627). *)
Definition SearchArtefact (r : LuetSystemRepository) (p : Package)
    : Result PackageArtifact :=
  match find (fun a => Matches (CompileSpecPackage a) p) (GetIndex r) with
  | Some a => Ok a
  | None => Err "Not found"
  end.

(** ** Sync (lines 597-617 and 629-807) *)

Definition Client (r : LuetSystemRepository) : option ClientT :=
  if decide (GetType r = DiskRepositoryType) then
    Some (LocalClient {| rdUrls := GetUrls r; rdAuthentication := ∅; rdVerify := false |})
  else if decide (GetType r = HttpRepositoryType) then
    Some (HttpClient {| rdUrls := GetUrls r; rdAuthentication := GetAuthentication r;
                        rdVerify := false |})
  else if decide (GetType r = DockerRepositoryType) then
    Some (DockerClient {| rdUrls := GetUrls r; rdAuthentication := GetAuthentication r;
                          rdVerify := Verify (Config r) |})
  else None.

(** [c.DownloadFile(name)]: the file is fetched to a local path. *)
Definition DownloadFile (c : ClientT) (name : string) : M string :=
  fun w =>
    let w1 := next_tmp (log_event w (EvDownload name)) in
    match ClientDownload E c name (tmpseq w) with
    | Ok (p, d) => (Ok p, with_fs w1 (<[p := d]> (fs w1)))
    | Err e => (Err e, w1)
    end.

(** The artifact made of a downloaded file and of its manifest entry:
    [Verify()] and [Unpack(dst, true)]. *)
Definition Verify_artifact (path : string) (f : LuetRepositoryFile) : M unit :=
  fun w =>
    let res := ArtifactVerify E (GetChecksums f) (GetCompressionType f) (fs w !! path) in
    (res, log_event w (EvVerify path (is_Ok res))).
Definition Unpack_artifact (path : string) (f : LuetRepositoryFile) (dst : string) : M unit :=
  fun w =>
    match ArtifactUnpack E (GetCompressionType f) (fs w !! path) with
    | Ok files => (Ok tt, with_fs w (write_files dst files (fs w)))
    | Err e => (Err e, w)
    end.

(** Where the cache of a repository lives: the cached spec document, the
    tree directory and the metadata directory (lines 646 and 665-674). *)
Definition cache_specfile (r : LuetSystemRepository) : string :=
  Join (GetRepoDatabaseDirPath E (GetName r)) REPOSITORY_SPECFILE.
Definition cache_treefs (r : LuetSystemRepository) : string :=
  if decide (GetTreePath r = "")
  then Join (GetRepoDatabaseDirPath E (GetName r)) "treefs"
  else GetTreePath r.
Definition cache_metafs (r : LuetSystemRepository) : string :=
  if decide (GetMetaPath r = "")
  then Join (GetRepoDatabaseDirPath E (GetName r)) "metafs"
  else GetMetaPath r.

(** A manifest entry read with its error dropped:
    [treeFile, _ := repo.GetRepositoryFile(key)]. *)
Definition repository_file_or_zero (repo : LuetSystemRepository) (key : string)
    : LuetRepositoryFile :=
  match GetRepositoryFile repo key with
  | Ok f => f
  | Err _ => {| FileName := ""; CompressionType := ""; Checksums := ∅ |}
  end.

(** Lines 770-806: the index and the tree are loaded from the cache
    paths and the local settings are copied over the synced ones. *)
Definition Sync_rehydrate (r repo : LuetSystemRepository) (treefs metafs : string)
    : M LuetSystemRepository :=
  let* σ := get_fs in
  let* meta :=
    wrapped (lift (NewLuetSystemRepositoryMetadata σ (Join metafs REPOSITORY_METAFILE)))
            ("While processing " ++ REPOSITORY_METAFILE) in
  let repo := SetIndex repo (ToArtifactIndex meta) in
  let* reciper := wrapped (lift (RecipeLoad E treefs (files_under treefs σ)))
                          "Error met while unpacking rootfs" in
  let repo := SetTree repo reciper in
  let repo := SetTreePath repo treefs in
  let repo := SetUrls repo (GetUrls r) in
  let repo := SetAuthentication repo (GetAuthentication r) in
  let repo := SetType repo (GetType r) in
  let repo := SetPriority repo (GetPriority r) in
  let repo := SetName repo (GetName r) in
  let repo := SetVerify repo (GetVerify r) in
  run Info [":information_source:"; "Repository: "; GetName repo; " Priority: ";
            pretty (GetPriority repo); " Type: "; GetType repo] in
  ret repo.

(** Lines 692-765: the bundles are fetched, verified, and only then put
    in place of the cache. [os.MkdirAll(metafs)] changes no file. *)
Definition Sync_fetch (r repo : LuetSystemRepository) (c : ClientT) (file : string)
    (treefs metafs : string) : M LuetSystemRepository :=
  let treeFile := repository_file_or_zero repo REPOFILE_TREE_KEY in
  let metaFile := repository_file_or_zero repo REPOFILE_META_KEY in
  let* downloadedTreeFile :=
    wrapped (DownloadFile c (GetFileName treeFile))
            ("While downloading " ++ GetFileName treeFile) in
  defer (os_Remove downloadedTreeFile) (
    run wrapped (Verify_artifact downloadedTreeFile treeFile)
                "Tree integrity check failure" in
    run Debug ["Tree tarball for the repository " ++ GetName r ++ " downloaded correctly."] in
    let* downloadedMeta :=
      wrapped (DownloadFile c (GetFileName metaFile))
              ("While downloading " ++ GetFileName metaFile) in
    defer (os_Remove downloadedMeta) (
      run wrapped (Verify_artifact downloadedMeta metaFile)
                  "Metadata integrity check failure" in
      run Debug ["Metadata tarball for the repository " ++ GetName r
                 ++ " downloaded correctly."] in
      run (if Cached (Config r) then
             run wrapped (helpers_CopyFile file (cache_specfile r))
                         ("Error on update " ++ REPOSITORY_SPECFILE) in
             run modify_fs (RemoveAll_fs treefs) in
             modify_fs (RemoveAll_fs metafs)
           else ret tt) in
      run Debug ["Decompress tree of the repository " ++ Name (Config r) ++ "..."] in
      run wrapped (Unpack_artifact downloadedTreeFile treeFile treefs)
                  "Error met while unpacking tree" in
      run wrapped (Unpack_artifact downloadedMeta metaFile metafs)
                  "Error met while unpacking metadata" in
      run Info [":house: Repository " ++ GetName repo ++ " revision: ";
                pretty (GetRevision repo); " - "; GetLastUpdate repo] in
      Sync_rehydrate r repo treefs metafs)).

Definition Sync (r : LuetSystemRepository) (force : bool) : M LuetSystemRepository :=
  run Debug ["Sync of the repository"; Name (Config r); "in progress..."] in
  match Client r with
  | None => fail "no client could be generated from repository"
  | Some c =>
      let* file := wrapped (DownloadFile c REPOSITORY_SPECFILE)
                           ("While downloading " ++ REPOSITORY_SPECFILE) in
      let* repo := ReadSpecFileM file in
      defer (os_RemoveAll file) (
        let* st :=
          (if Cached (Config r) then
             let* σ := get_fs in
             let* repoUpdated :=
               (if negb force then
                  match ReadSpecFile σ (cache_specfile r) with
                  | Returns (Ok localRepo) =>
                      ret (bool_decide (GetRevision localRepo = GetRevision repo)
                           && bool_decide (GetLastUpdate localRepo = GetLastUpdate repo))
                  | Returns (Err _) => ret false
                  | Panics v => panic v
                  end
                else ret false) in
             ret (repoUpdated, cache_treefs r, cache_metafs r)
           else
             let* treefs := wrapped (TempDir "treefs")
                                    "Error met while creating tempdir for rootfs" in
             let* metafs := wrapped (TempDir "metafs")
                                    "Error met whilte creating tempdir for metafs" in
             ret (false, treefs, metafs)) in
        let '(repoUpdated, treefs, metafs) := st in
        if negb repoUpdated then Sync_fetch r repo c file treefs metafs
        else
          run Info ["Repository"; GetName repo; "is already up to date."] in
          Sync_rehydrate r repo treefs metafs)
  end.

(** ** The aggregator (lines 838-974) *)

(** [Repositories], a slice of synchronised repositories. *)
Abbreviation Repositories := (list LuetSystemRepository).

(** The [sort.Interface] of [Repositories] (lines 838-842). An index out
    of range panics in Go; [sort.Sort] only passes indices below [Len]. *)
Definition Len (r : Repositories) : nat := length r.
Definition Swap (r : Repositories) (i j : nat) : Repositories :=
  match r !! i, r !! j with
  | Some a, Some b => <[j := a]> (<[i := b]> r)
  | _, _ => r
  end.
Definition Less (r : Repositories) (i j : nat) : bool :=
  match r !! i, r !! j with
  | Some a, Some b => bool_decide (GetPriority a < GetPriority b)
  | _, _ => false
  end.

(** [sort.Sort(re)] of Go's standard library works on the collection in
    place through [Len], [Less] and [Swap] only. It is given here by the
    library's insertion sort,
    [for i := 1; i < n; i++ { for j := i; j > 0 && Less(j, j-1); j-- { Swap(j, j-1) } }],
    which is what the library runs on short slices. [sift r j] is the
    inner loop from index [j] down. *)
Fixpoint sift (r : Repositories) (j : nat) : Repositories :=
  match j with
  | O => r
  | S j' => if Less r j j' then sift (Swap r j j') j' else r
  end.
Fixpoint insertion_loop (r : Repositories) (i n : nat) : Repositories :=
  match n with
  | O => r
  | S n' => insertion_loop (sift r i) (S i) n'
  end.
Definition sort_Sort (r : Repositories) : Repositories :=
  insertion_loop r 1 (Len r - 1).

(** The packages of a repository: [r.GetTree().GetDatabase()]. *)
Definition database (r : LuetSystemRepository) : PackageDatabase Package :=
  GetDatabase (GetTree r).

(** [World] (lines 844-861). The fingerprint map is filled walking the
    collection from its last repository to its first; the order in which
    Go ranges over the map is not fixed, and neither is the order of the
    list returned here. *)
Definition World_cache (r : Repositories) : gmap string Package :=
  foldr (fun repo cache =>
           foldl (fun cache p => <[GetFingerPrint p := p]> cache)
                 cache (db_World (database repo)))
        ∅ r.
Definition World (r : Repositories) : list Package :=
  (map_to_list (World_cache r)).*2.

(** [SyncDatabase] (lines 863-877): the packages handed to
    [d.CreatePackage], in order. *)
Definition SyncDatabase (r : Repositories) : list Package :=
  snd (foldr (fun repo st =>
                foldl (fun (st : gset string * list Package) p =>
                         if bool_decide (GetFingerPrint p ∈ st.1) then st
                         else ({[GetFingerPrint p]} ∪ st.1, (st.2 ++ [p])%list))
                      st (db_World (database repo)))
             (∅, []) r).

Record PackageMatch := {
  pmRepo : LuetSystemRepository;
  pmArtifact : option PackageArtifact;
  pmPackage : Package;
}.

(** The three functions below start with [sort.Sort(re)], which reorders
    the slice the caller passed: they return the reordered collection
    together with their result. *)

(** [PackageMatches] (lines 885-904). *)
Fixpoint first_match (pack : Package) (re : Repositories) : list PackageMatch :=
  match re with
  | [] => []
  | r :: rest =>
      match FindPackage (database r) pack with
      | Some c => [{| pmRepo := r; pmArtifact := None; pmPackage := c |}]
      | None => first_match pack rest
      end
  end.
Definition PackageMatches (re : Repositories) (p : list Package)
    : list PackageMatch * Repositories :=
  let re := sort_Sort re in
  (foldl (fun matches pack => (matches ++ first_match pack re)%list) [] p, re).

(** [ResolveSelectors] (lines 906-932). [resolve_in pack re matches] is
    the loop labelled REPOSITORY for one requested package: a selector
    leaves it at the first candidate, anything else appends the package
    and goes on to the next repository. *)
Fixpoint resolve_in (pack : Package) (re : Repositories) (matches : list Package)
    : list Package :=
  match re with
  | [] => matches
  | r :: rest =>
      if IsSelector pack then
        match FindPackageCandidate (database r) pack with
        | None => resolve_in pack rest matches
        | Some c => (matches ++ [c])%list
        end
      else resolve_in pack rest (matches ++ [pack])%list
  end.
Definition ResolveSelectors (re : Repositories) (p : list Package)
    : list Package * Repositories :=
  let re := sort_Sort re in
  (foldl (fun matches pack => resolve_in pack re matches) [] p, re).

(** [SearchPackages] (lines 934-962). *)
Definition search_repository (r : LuetSystemRepository) (p : string)
    (t : LuetSearchModeType) : option (list Package) :=
  match t with
  | SRegexPkg => FindPackageMatch (database r) p
  | SLabel => FindPackageLabel (database r) p
  | SRegexLabel => FindPackageLabelMatch (database r) p
  | FileSearchMode =>
      match FileSearch r p with Ok l => Some l | Err _ => None end
  end.
Definition artefact_or_nil (r : LuetSystemRepository) (pack : Package)
    : option PackageArtifact :=
  match SearchArtefact r pack with Ok a => Some a | Err _ => None end.
Definition SearchPackages (re : Repositories) (p : string) (t : LuetSearchModeType)
    : list PackageMatch * Repositories :=
  let re := sort_Sort re in
  (foldl (fun matches r =>
            match search_repository r p t with
            | Some repoMatches =>
                (matches ++
                 map (fun pack => {| pmRepo := r; pmArtifact := artefact_or_nil r pack;
                                     pmPackage := pack |}) repoMatches)%list
            | None => matches
            end) [] re,
   re).

Definition SearchLabelMatch (re : Repositories) (s : string) := SearchPackages re s SRegexLabel.
Definition SearchLabel (re : Repositories) (s : string) := SearchPackages re s SLabel.
Definition Search (re : Repositories) (s : string) := SearchPackages re s SRegexPkg.

(** ** Publishing: the manifest (lines 441-527) *)

(** The artifact of a bundle, [compiler.NewPackageArtifact(path)]: a file
    with its compression and checksums. *)
Record Artifact := {
  aPath : string;
  aCompressionType : string;
  aChecksums : gmap string string;
}.
Definition NewPackageArtifact (path : string) : Artifact :=
  {| aPath := path; aCompressionType := ""; aChecksums := ∅ |}.
(** [a.GetFileName()] *)
Definition Artifact_GetFileName (a : Artifact) : string := path_Base (aPath a).

(** [filepath.Dir] of a clean path. *)
Definition path_Dir (p : string) : string :=
  let b := path_Base p in
  if (String.length p <=? String.length b)%nat then "."
  else
    let d := substring 0 (String.length p - String.length b - 1) p in
    if decide (d = "") then "/" else d.

(** [a.Compress(src, 1)]: the directory [src] is archived next to the
    path of the artifact, which takes the name of the archive. *)
Definition Artifact_Compress (a : Artifact) (src : string) : M Artifact :=
  fun w =>
    match ArtifactCompress E (aCompressionType a) (aPath a) (files_under src (fs w)) with
    | Ok (p, d) =>
        (Ok {| aPath := p; aCompressionType := aCompressionType a;
               aChecksums := aChecksums a |},
         with_fs w (<[p := d]> (fs w)))
    | Err e => (Err e, w)
    end.
(** [a.Hash()] *)
Definition Artifact_Hash (a : Artifact) : M Artifact :=
  fun w =>
    match ArtifactHash E (fs w !! aPath a) with
    | Ok c => (Ok {| aPath := aPath a; aCompressionType := aCompressionType a;
                     aChecksums := c |}, w)
    | Err e => (Err e, w)
    end.

(** [AddRepositoryFile] (lines 501-527). *)
Definition AddRepositoryFile (r : LuetSystemRepository) (src fileKey repositoryRoot : string)
    (defaults : LuetRepositoryFile) : M (LuetSystemRepository * Artifact) :=
  let '(r, treeFile) :=
    match GetRepositoryFile r fileKey with
    | Ok f => (r, f)
    | Err _ => (SetRepositoryFile r fileKey defaults, defaults)
    end in
  let a := NewPackageArtifact (Join repositoryRoot (GetFileName treeFile)) in
  let a := {| aPath := aPath a; aCompressionType := GetCompressionType treeFile;
              aChecksums := aChecksums a |} in
  let* a := wrapped (Artifact_Compress a src) "Error met while creating package archive" in
  let treeFile := SetFileName treeFile (path_Base (aPath a)) in
  let* a := wrapped (Artifact_Hash a) "Failed generating checksums for tree" in
  let treeFile := SetChecksums treeFile (aChecksums a) in
  let treeFile := SetFileName treeFile (path_Base (aPath a)) in
  ret (SetRepositoryFile r fileKey treeFile, a).

(** [AddTree] (lines 479-496) with the default manifest entry passed by
    its callers in [Generate] (lines 1186 and 1197); line 491 passes
    [NewDefaultTreeRepositoryFile()]. Saving a nil tree is a nil
    dereference. *)
Definition AddTree (r : LuetSystemRepository) (t : option Builder) (dst key : string)
    (defaults : LuetRepositoryFile) : M (LuetSystemRepository * Artifact) :=
  let* archive := wrapped (TempDir "archive") "Error met while creating tempdir for archive" in
  defer (os_RemoveAll archive) (
    let* files :=
      match t with
      | Some b => wrapped (lift (BuilderSave E b)) "Error met while saving the tree"
      | None => panic nil_dereference
      end in
    run modify_fs (write_files archive files) in
    wrapped (AddRepositoryFile r archive key dst defaults)
            "Error met while adding archive to repository").

(** [LuetSystemRepositoryMetadata.WriteFile] (lines 114-126), where
    neither [yaml.Marshal] nor the write fails. *)
Definition Metadata_WriteFile (m : LuetSystemRepositoryMetadata) (path : string) : M unit :=
  ioutil_WriteFile path (yaml_Marshal_meta m).

(** [AddMetadata] (lines 442-474). The map [RepositoryFiles] of the
    serialised descriptor is the map of the repository itself, so the
    document written last carries the entry added for the metadata. *)
Definition AddMetadata (r : LuetSystemRepository) (repospec dst : string)
    : M (LuetSystemRepository * Artifact) :=
  let '(r, meta, serialized) := Serialize r in
  let* metaTmpDir := wrapped (TempDir "metadata")
                             "Error met while creating tempdir for metadata" in
  defer (os_RemoveAll metaTmpDir) (
    let repoMetaSpec := Join metaTmpDir REPOSITORY_METAFILE in
    run Metadata_WriteFile meta repoMetaSpec in
    let* ra := wrapped (AddRepositoryFile r metaTmpDir REPOFILE_META_KEY dst
                                          NewDefaultMetaRepositoryFile)
                       "Error met while adding archive to repository" in
    let '(r, a) := ra in
    let serialized :=
      {| sName := sName serialized; sDescription := sDescription serialized;
         sUrls := sUrls serialized; sPriority := sPriority serialized;
         sType := sType serialized; sRevision := sRevision serialized;
         sLastUpdate := sLastUpdate serialized; sTreePath := sTreePath serialized;
         sMetaPath := sMetaPath serialized;
         sRepositoryFiles := RepositoryFiles r;
         sVerify := sVerify serialized |} in
    run ioutil_WriteFile repospec (yaml_Marshal_spec serialized) in
    ret (r, a)).

(** ** The registry generator (lines 1014-1235) *)

Record dockerRepositoryGenerator := {
  g_imagePrefix : string;
  g_imagePush : bool;
  g_force : bool;
}.

Definition backend_ImageAvailable (image : string) : M bool :=
  fun w => (Ok (ImageAvailable E (backend w) image), w).
Definition backend_Push (image : string) : M unit :=
  fun w =>
    match BackendPush E (backend w) image with
    | (res, b) => (res, log_event (with_backend w b) (EvPush image))
    end.
Definition backend_DownloadImage (image : string) : M unit :=
  fun w =>
    match BackendDownloadImage E (backend w) image with
    | (res, b) => (res, log_event (with_backend w b) (EvDownloadImage image))
    end.
Definition backend_ExtractRootfs (image dst : string) : M unit :=
  fun w =>
    match BackendExtractRootfs E (backend w) image with
    | (Ok files, b) =>
        (Ok tt, log_event (with_fs (with_backend w b) (write_files dst files (fs w)))
                          (EvExtractRootfs image dst))
    | (Err e, b) => (Err e, log_event (with_backend w b) (EvExtractRootfs image dst))
    end.
(** [a.GenerateFinalImage(image, b, keepPerms)] on the artifact stored
    at [path]. *)
Definition Artifact_GenerateFinalImage (path image : string) (keepPerms : bool) : M unit :=
  fun w =>
    match GenerateFinalImage E (backend w) image (fs w !! path) keepPerms with
    | (res, b) => (res, log_event (with_backend w b) (EvBuild image))
    end.

(** [pushImage] (lines 1024-1030). *)
Definition pushImage (image : string) (force : bool) : M unit :=
  let* available := backend_ImageAvailable image in
  if available && negb force then
    Debug ["Image"; image; "already present, skipping"]
  else backend_Push image.

(** The function [ff] handed to [filepath.Walk] in [generatePackageImages]
    (lines 1035-1082), on one regular file. *)
Definition generatePackageImages_visit (imagePrefix : string) (db : PackageDatabase Package)
    (imagePush force : bool) (art : list PackageArtifact) (currentpath : string)
    : M (list PackageArtifact) :=
  if negb (HasSuffix (path_Base currentpath) ".metadata.yaml") then ret art
  else
    let* σ := get_fs in
    let* dat := wrapped (lift (ioutil_ReadFile σ currentpath))
                        ("Error reading file " ++ currentpath) in
    let* a := wrapped (lift (NewPackageArtifactFromYaml E dat))
                      ("Error reading yaml " ++ currentpath) in
    let a := {| Path := Join (path_Dir currentpath) (path_Base (Path a));
                CompileSpecPackage := CompileSpecPackage a;
                ArtifactCompressionType := ArtifactCompressionType a;
                ArtifactChecksums := ArtifactChecksums a;
                Files := Files a |} in
    match FindPackage db (CompileSpecPackage a) with
    | None =>
        run Debug ["Package " ++ HumanReadableString (CompileSpecPackage a)
                   ++ " not found in tree. Ignoring it."] in
        ret art
    | Some _ =>
        let packageImage := imagePrefix ++ ":" ++ ImageID (CompileSpecPackage a) in
        let* available := backend_ImageAvailable packageImage in
        run (if imagePush && available && negb force then
               Info ["Image"; packageImage;
                     "already present, skipping. use --force-push to override"]
             else
               run Info ["Generating final image"; packageImage; "for package ";
                         HumanReadableString (CompileSpecPackage a)] in
               wrapped (Artifact_GenerateFinalImage (Path a) packageImage true)
                       ("Failed generating metadata tree" ++ packageImage)) in
        run (if imagePush then
               wrapped (pushImage packageImage force)
                       ("Failed while pushing image: '" ++ packageImage ++ "'")
             else ret tt) in
        ret (art ++ [a])%list
    end.

(** [filepath.Walk] stops at the first error of the function it calls. *)
Fixpoint walk (f : list PackageArtifact -> string -> M (list PackageArtifact))
    (art : list PackageArtifact) (paths : list string) : M (list PackageArtifact) :=
  match paths with
  | [] => ret art
  | p :: rest => let* art := f art p in walk f art rest
  end.

(** [generatePackageImages] (lines 1032-1090). The files below [path]
    are visited in the order [files_under] lists them. *)
Definition generatePackageImages (imagePrefix path : string) (db : PackageDatabase Package)
    (imagePush force : bool) : M (list PackageArtifact) :=
  run Info ["Generating docker images for packages in"; imagePrefix] in
  let* σ := get_fs in
  walk (generatePackageImages_visit imagePrefix db imagePush force) []
       (map fst (map_to_list (files_under path σ))).

(** [dockerRepositoryGenerator.Initialize] (lines 1020-1022). *)
Definition Initialize (l : dockerRepositoryGenerator) (path : string)
    (db : PackageDatabase Package) : M (list PackageArtifact) :=
  generatePackageImages (g_imagePrefix l) path db (g_imagePush l) (g_force l).

(** [pushFileFromArtifact] (lines 1092-1103). *)
Definition pushFileFromArtifact (d : dockerRepositoryGenerator) (a : Artifact)
    (imageTree : string) (r : LuetSystemRepository) : M unit :=
  run Debug ["Generating image"; imageTree] in
  run wrapped (Artifact_GenerateFinalImage (aPath a) imageTree false)
              ("Failed generating metadata tree " ++ imageTree) in
  if PushImages r then
    wrapped (pushImage imageTree true)
            ("Failed while pushing image: '" ++ imageTree ++ "'")
  else ret tt.

(** [helpers.Tar(src, dst)] *)
Definition Tar (src dst : string) : M unit :=
  fun w =>
    match helpers_Tar E (fs w !! src) with
    | Ok d => (Ok tt, with_fs w (<[dst := d]> (fs w)))
    | Err e => (Err e, w)
    end.

(** [pushRepoMetadata] (lines 1105-1125). *)
Definition pushRepoMetadata (d : dockerRepositoryGenerator) (repospec : string)
    (r : LuetSystemRepository) : M unit :=
  let* metaDir := wrapped (TempDir "metadata")
                          "Error met while creating tempdir for metadata" in
  defer (os_RemoveAll metaDir) (
    let tempRepoFile := Join metaDir (REPOSITORY_SPECFILE ++ ".tar") in
    run wrapped (Tar repospec tempRepoFile) "Error met while archiving repository file" in
    let a := NewPackageArtifact tempRepoFile in
    let imageRepo := g_imagePrefix d ++ ":" ++ REPOSITORY_SPECFILE in
    wrapped (pushFileFromArtifact d a imageRepo r) "while pushing file from artifact").

(** [artifact.CreateArtifactForFile(path)]: a new archive holding the file. *)
Definition Artifact_CreateForFile (path : string) : M Artifact :=
  fun w =>
    match CreateArtifactForFile E path (fs w !! path) (tmpseq w) with
    | Ok (p, d) => (Ok (NewPackageArtifact p), next_tmp (with_fs w (<[p := d]> (fs w))))
    | Err e => (Err e, next_tmp w)
    end.

(** [pushImageFromArtifact] (lines 1127-1137). *)
Definition pushImageFromArtifact (d : dockerRepositoryGenerator) (a : Artifact)
    (r : LuetSystemRepository) : M unit :=
  let* treeArchive := wrapped (Artifact_CreateForFile (aPath a))
                              "failed generating checksums for tree" in
  let imageTree := g_imagePrefix d ++ ":" ++ Artifact_GetFileName a in
  pushFileFromArtifact d treeArchive imageTree r.

(** [dockerRepositoryGenerator.Generate] (lines 1140-1235); it returns
    the repository as the call leaves it. *)
Definition Generate (d : dockerRepositoryGenerator) (r : LuetSystemRepository)
    (imagePrefix : string) (resetRevision : bool) : M LuetSystemRepository :=
  let imageRepository := imagePrefix ++ ":" ++ REPOSITORY_SPECFILE in
  let r := SetLastUpdate r (pretty (time_Now_Unix E)) in
  let* repoTemp := wrapped (TempDir "repo")
                           "error met while creating tempdir for repository" in
  defer (os_RemoveAll repoTemp) (
    let* available := backend_ImageAvailable imageRepository in
    run (if available then
           run wrapped (backend_DownloadImage imageRepository)
                       ("while downloading '" ++ imageRepository ++ "'") in
           wrapped (backend_ExtractRootfs imageRepository repoTemp)
                   ("while extracting '" ++ imageRepository ++ "'")
         else ret tt) in
    let repospec := Join repoTemp REPOSITORY_SPECFILE in
    let* r := BumpRevision r repospec resetRevision in
    run Info ["For repository " ++ Name (Config r) ++ " creating revision "
              ++ pretty (Revision (Config r)) ++ " and last update "
              ++ LastUpdate (Config r) ++ "..."] in
    run emit (EvBus EventRepositoryPreBuild r imageRepository) in
    let* ra := wrapped (AddTree r (Some (GetTree r)) repoTemp REPOFILE_TREE_KEY
                                NewDefaultTreeRepositoryFile)
                       "error met while adding runtime tree to repository" in
    let '(r, a) := ra in
    run wrapped (pushImageFromArtifact d a r) "error met while pushing runtime tree" in
    let* ra := wrapped (AddTree r (BuildTree r) repoTemp REPOFILE_COMPILER_TREE_KEY
                                NewDefaultCompilerTreeRepositoryFile)
                       "error met while adding compiler tree to repository" in
    let '(r, a) := ra in
    run wrapped (pushImageFromArtifact d a r) "error met while pushing compiler tree" in
    let* metaDir := wrapped (TempDir "metadata")
                            "error met while creating tempdir for metadata" in
    defer (os_RemoveAll metaDir) (
      let* ra := wrapped (AddMetadata r repospec metaDir)
                         "failed adding Metadata file to repository" in
      let '(r, a) := ra in
      run wrapped (pushImageFromArtifact d a r)
                  "error met while pushing docker image from artifact" in
      run wrapped (pushRepoMetadata d repospec r)
                  "while pushing repository metadata tree" in
      run emit (EvBus EventRepositoryPostBuild r imagePrefix) in
      ret r)).

(** ** Choosing a generator (lines 219-254, 300-312 and 564-595) *)

(** The interface [RepositoryGenerator]: [Generate] and [Initialize]. *)
Record RepositoryGenerator := {
  rg_Generate : LuetSystemRepository -> string -> bool -> M LuetSystemRepository;
  rg_Initialize : string -> PackageDatabase Package -> M (list PackageArtifact);
}.

(** [&dockerRepositoryGenerator{...}] as a [RepositoryGenerator]. *)
Definition dockerGenerator (d : dockerRepositoryGenerator) : RepositoryGenerator :=
  {| rg_Generate := Generate d; rg_Initialize := Initialize d |}.

(** [tree.NewCompilerRecipe(db)] *)
Definition NewCompilerRecipe (db : PackageDatabase Package) : Builder :=
  {| GetDatabase := db |}.

Section Generators.

(** The generator of disk and http repositories and the [Load] methods
    of the two recipes are declared outside repository.go; what is
    proved below holds whatever they do. *)
Variable localRepositoryGenerator : RepositoryGenerator.
Variable InstallerRecipe_Load CompilerRecipe_Load :
  Builder -> string -> gmap string FileData -> Result Builder.

(** [getGenerator] (lines 569-585). *)
Definition getGenerator (r : LuetSystemRepository) : Result RepositoryGenerator :=
  if decide (GetType r = DiskRepositoryType \/ GetType r = HttpRepositoryType) then
    Ok localRepositoryGenerator
  else if decide (GetType r = DockerRepositoryType) then
    Ok (dockerGenerator {| g_imagePrefix := imagePrefix r; g_imagePush := PushImages r;
                           g_force := ForcePush r |})
  else Err "invalid repository type".

(** [initialize] (lines 300-312). *)
Definition initialize (r : LuetSystemRepository) (src : string) : M LuetSystemRepository :=
  let* generator := wrapped (lift (getGenerator r))
                            "while constructing repository generator" in
  let* art := wrapped (rg_Initialize generator src (GetDatabase (Tree r)))
                      "while initializing repository generator" in
  ret (SetIndex r art).

(** [Write] (lines 588-595). *)
Definition Write (r : LuetSystemRepository) (dst : string) (resetRevision force : bool)
    : M LuetSystemRepository :=
  let* rg := lift (getGenerator r) in
  rg_Generate rg r dst resetRevision.

(** The loop of [GenerateRepository] over [treesDir] (lines 229-236). *)
Fixpoint load_trees (tr btr : Builder) (treesDir : list string) : M (Builder * Builder) :=
  match treesDir with
  | [] => ret (tr, btr)
  | treeDir :: rest =>
      let* σ := get_fs in
      let* tr := lift (InstallerRecipe_Load tr treeDir (files_under treeDir σ)) in
      let* btr := lift (CompilerRecipe_Load btr treeDir (files_under treeDir σ)) in
      load_trees tr btr rest
  end.

(** [GenerateRepository] (lines 222-254). *)
Definition GenerateRepository (name descr t : string) (urls : list string) (priority : Z)
    (src : string) (treesDir : list string) (db : PackageDatabase Package)
    (imagePrefix : string) (pushImages force : bool) : M LuetSystemRepository :=
  let tr := NewInstallerRecipe db in
  let btr := NewCompilerRecipe (NewInMemoryDatabase E) in
  let* trees := load_trees tr btr treesDir in
  let repo :=
    {| Config := NewLuetRepository name t descr urls priority true false;
       Index := []; BuildTree := Some trees.2; Tree := trees.1;
       RepositoryFiles := ∅; PushImages := pushImages; ForcePush := force;
       imagePrefix := imagePrefix |} in
  wrapped (initialize repo src) "while building repository artifact index".

End Generators.

(** ** What the properties speak about *)

(** The order [sort.Sort] establishes with [Less]: no repository is
    followed by one of smaller priority value. *)
Definition by_priority (a b : LuetSystemRepository) : Prop :=
  GetPriority a <= GetPriority b.

(** A repository defines a fingerprint. *)
Definition defines (r : LuetSystemRepository) (fp : string) : Prop :=
  exists q, q ∈ db_World (database r) /\ GetFingerPrint q = fp.

(** [p] is a definition taken from a repository of the collection that
    no repository defining the same fingerprint precedes in priority. *)
Definition highest_precedence_definition (re : Repositories) (p : Package) : Prop :=
  exists r, r ∈ re /\ p ∈ db_World (database r) /\
    forall r', r' ∈ re -> defines r' (GetFingerPrint p) -> GetPriority r <= GetPriority r'.

(** Serialising a descriptor to its spec document and parsing it again. *)
Definition spec_roundtrip (r : LuetSystemRepository) (db : PackageDatabase Package)
    : Outcome LuetSystemRepository :=
  NewLuetSystemRepositoryFromYaml (yaml_Marshal_spec (Serialize r).2) db.

(** The names the transport client was asked for, and those events of a
    run that are verifications which failed. *)
Definition downloads (t : list Event) : list string :=
  omap (fun e => match e with EvDownload n => Some n | _ => None end) t.
Definition failed_verifications (t : list Event) : list string :=
  omap (fun e => match e with EvVerify p false => Some p | _ => None end) t.
Definition builds (t : list Event) : list string :=
  omap (fun e => match e with EvBuild i => Some i | _ => None end) t.
Definition pushes (t : list Event) : list string :=
  omap (fun e => match e with EvPush i => Some i | _ => None end) t.
Definition announcements (t : list Event)
    : list (BusTopic * LuetSystemRepository * string) :=
  omap (fun e => match e with EvBus topic r p => Some (topic, r, p) | _ => None end) t.
(** The events a run from [w] to [w'] added. *)
Definition new_events (w w' : State) : list Event :=
  drop (length (trace w)) (trace w').

(** The on-disk cache of a repository: the cached spec document and
    everything in the tree and metadata directories. *)
Definition in_cache (r : LuetSystemRepository) (q : string) : bool :=
  bool_decide (q = cache_specfile r) || under (cache_treefs r) q || under (cache_metafs r) q.
Definition cache_unchanged (r : LuetSystemRepository) (w w' : State) : Prop :=
  forall q, in_cache r q = true -> fs w' !! q = fs w !! q.

(** Two paths neither of which is the other or lies below it. *)
Definition independent (p q : string) : bool :=
  negb (under p q) && negb (under q p).
(** A local path of the transport client that is not part of the cache. *)
Definition outside_cache (r : LuetSystemRepository) (p : string) : bool :=
  independent p (cache_specfile r) && independent p (cache_treefs r)
  && independent p (cache_metafs r).
(** The transport client stores what it downloads outside the cache. *)
Definition client_outside_cache (r : LuetSystemRepository) : Prop :=
  forall c name n p d,
    ClientDownload E c name n = Ok (p, d) -> outside_cache r p = true.

(** A run from [w] to [w'] built the images [b], pushed the images [p]
    and announced [a] on the bus. *)
Definition adds (w w' : State) (b p : list string)
    (a : list (BusTopic * LuetSystemRepository * string)) : Prop :=
  exists t, trace w' = (trace w ++ t)%list
            /\ builds t = b /\ pushes t = p /\ announcements t = a.

(** A run neither pushed the image [tag] nor, when images are pushed,
    built it; a run that does not push images pushed none. *)
Definition left_alone (tag : string) (imagePush : bool) (w w' : State) : Prop :=
  exists b p a, adds w w' b p a /\ (tag ∉ p) /\ (imagePush = true -> (tag ∉ b))
                /\ (imagePush = false -> p = []).

(** A failed [Sync] reports a bundle that did not verify. *)
Definition integrity_error (res : Outcome LuetSystemRepository) : Prop :=
  exists e, res = Err (Wrap e "Tree integrity check failure")
            \/ res = Err (Wrap e "Metadata integrity check failure").

(** The verifications of a run, each with its outcome. *)
Definition verifications (t : list Event) : list (string * bool) :=
  omap (fun e => match e with EvVerify p ok => Some (p, ok) | _ => None end) t.

(** The tag of the image of a package (line 1062). *)
Definition packageImage (imagePrefix : string) (a : PackageArtifact) : string :=
  imagePrefix ++ ":" ++ ImageID (CompileSpecPackage a).

(** The artifact [a] is the one the metadata file [file] of the disk [σ]
    describes, with its path taken next to that file (lines 1037-1052). *)
Definition described_by (σ : gmap string FileData) (file : string) (a : PackageArtifact)
    : Prop :=
  HasSuffix (path_Base file) ".metadata.yaml" = true
  /\ exists dat a0,
       σ !! file = Some dat
       /\ NewPackageArtifactFromYaml E dat = Ok a0
       /\ CompileSpecPackage a = CompileSpecPackage a0
       /\ Files a = Files a0
       /\ Path a = Join (path_Dir file) (path_Base (Path a0)).

(** The settings of the caller's descriptor that [Sync] puts over those
    of the downloaded one. *)
Record same_local_settings (r r' : LuetSystemRepository) : Prop := {
  same_urls : GetUrls r' = GetUrls r;
  same_authentication : GetAuthentication r' = GetAuthentication r;
  same_type : GetType r' = GetType r;
  same_priority : GetPriority r' = GetPriority r;
  same_name : GetName r' = GetName r;
  same_verify : GetVerify r' = GetVerify r;
}.

End Model.

(** ** A concrete instance

    Packages with a name, a version and the repository that defines
    them; databases over a list of packages; and collaborators with
    fixed answers. They are used to run the definitions above. *)

Module Demo.

Record Pkg := {
  pName : string;
  pVersion : string;
  pSelector : bool;
  pOrigin : string;
}.

#[export] Instance Pkg_API : PackageAPI Pkg := {|
  GetFingerPrint p := pName p ++ "-" ++ pVersion p;
  IsSelector p := pSelector p;
  Matches p q := String.eqb (pName p) (pName q) && String.eqb (pVersion p) (pVersion q);
  HumanReadableString p := pName p ++ "-" ++ pVersion p;
  ImageID p := pName p ++ "-" ++ pVersion p;
|}.

Definition same_fingerprint (p q : Pkg) : bool :=
  String.eqb (GetFingerPrint p) (GetFingerPrint q).

(** A database over a list of packages; a selector is resolved to the
    first package of its name. *)
Definition db (l : list Pkg) : PackageDatabase Pkg :=
  {| db_World := l;
     FindPackage := fun p => find (same_fingerprint p) l;
     FindPackageCandidate := fun p => find (fun q => String.eqb (pName p) (pName q)) l;
     FindPackageMatch := fun s => Some (filter (fun q => String.eqb s (pName q) = true) l);
     FindPackageLabel := fun s => Some [];
     FindPackageLabelMatch := fun s => Some [] |}.

Definition repo (name : string) (priority : Z) (l : list Pkg) : LuetSystemRepository :=
  {| Config := NewLuetRepository name DiskRepositoryType "" ["/mirror/" ++ name] priority
                                 true true;
     Index := []; BuildTree := Some {| GetDatabase := db l |};
     Tree := {| GetDatabase := db l |};
     RepositoryFiles := ∅; PushImages := true; ForcePush := false;
     imagePrefix := "quay.io/demo" |}.

Definition fooA : Pkg :=
  {| pName := "foo"; pVersion := "1.0"; pSelector := false; pOrigin := "A" |}.
Definition fooB : Pkg :=
  {| pName := "foo"; pVersion := "1.0"; pSelector := false; pOrigin := "B" |}.
Definition bar20 : Pkg :=
  {| pName := "bar"; pVersion := "2.0"; pSelector := false; pOrigin := "B" |}.
Definition bar_ge_10 : Pkg :=
  {| pName := "bar"; pVersion := ">=1.0"; pSelector := true; pOrigin := "" |}.

(** Repository A (priority 1) and repository B (priority 10). *)
Definition A : LuetSystemRepository := repo "A" 1 [fooA].
Definition B : LuetSystemRepository := repo "B" 10 [fooB; bar20].

(** The manifest and the spec document a mirror publishes. *)
Definition manifest : gmap string LuetRepositoryFile :=
  <[REPOFILE_TREE_KEY := {| FileName := "tree.tar.gz"; CompressionType := GZip;
                            Checksums := {["sha256" := "tree-v3"]} |}]>
  (<[REPOFILE_META_KEY := {| FileName := "repository.meta.yaml.tar";
                             CompressionType := NoCompression;
                             Checksums := {["sha256" := "meta-v3"]} |}]> ∅).
Definition published (files : gmap string LuetRepositoryFile) : LuetSystemRepositorySerialized :=
  {| sName := "upstream"; sDescription := "demo"; sUrls := ["https://upstream"];
     sPriority := 99; sType := HttpRepositoryType; sRevision := 3;
     sLastUpdate := "1700000000"; sTreePath := ""; sMetaPath := "";
     sRepositoryFiles := files; sVerify := true |}.

(** Collaborators. The mirror serves the spec document of [files] and
    the bundles [tree] and [meta]; a bundle verifies when the checksum of
    the manifest is the bundle itself. *)
Definition env (files : gmap string LuetRepositoryFile) (tree meta : string) : @Env Pkg :=
  {| BackendState := unit;
     GetRepoDatabaseDirPath := fun name => "/var/cache/luet/repos/" ++ name;
     TempDirName := fun pattern n => Ok ("/tmp/" ++ pattern ++ pretty n);
     ClientDownload := fun c name n =>
       if String.eqb name REPOSITORY_SPECFILE
       then Ok ("/tmp/dl/spec", yaml_Marshal_spec (published files))
       else if String.eqb name "tree.tar.gz" then Ok ("/tmp/dl/tree", Blob tree)
       else if String.eqb name "repository.meta.yaml.tar" then Ok ("/tmp/dl/meta", Blob meta)
       else Err "not found";
     ArtifactVerify := fun sums _ d =>
       match d with
       | Some (Blob b) =>
           if decide (sums !! "sha256" = Some b) then Ok tt else Err "checksum mismatch"
       | _ => Err "no such file"
       end;
     ArtifactUnpack := fun _ d =>
       match d with
       | Some (Blob b) =>
           if String.eqb b "meta-v3" then Ok [(REPOSITORY_METAFILE, MetaYaml None)]
           else Ok [("foo/definition.yaml", Blob b)]
       | _ => Err "no such file"
       end;
     ArtifactCompress := fun c p _ => Ok (p ++ ".gz", Blob ("archive of " ++ p));
     ArtifactHash := fun d =>
       match d with
       | Some (Blob b) => Ok {["sha256" := b]}
       | _ => Err "no such file"
       end;
     CreateArtifactForFile := fun p d n => Ok ("/tmp/artifact" ++ pretty n, Blob p);
     NewPackageArtifactFromYaml := fun d =>
       Ok {| Path := "/build/foo-1.0.package.tar"; CompileSpecPackage := fooA;
             ArtifactCompressionType := GZip; ArtifactChecksums := ∅; Files := [] |};
     CleanPath := fun i => i;
     helpers_Tar := fun d => Ok (Blob "tar");
     NewInMemoryDatabase := db [];
     RecipeLoad := fun _ _ => Ok {| GetDatabase := db [fooA] |};
     BuilderSave := fun _ => Ok [("foo/definition.yaml", Blob "foo-1.0")];
     ImageAvailable := fun _ _ => true;
     BackendPush := fun b _ => (Ok tt, b);
     BackendDownloadImage := fun b _ => (Ok tt, b);
     BackendExtractRootfs := fun b _ => (Ok [], b);
     GenerateFinalImage := fun b _ _ _ => (Ok tt, b);
     regexp_Compile := fun p => Ok (String.eqb p);
     time_Now_Unix := 1700000123 |}.

(** A disk holding a cache of revision [rev] of repository [name]. *)
Definition cached_disk (name : string) (rev : Z) : gmap string (@FileData Pkg) :=
  <["/var/cache/luet/repos/" ++ name ++ "/" ++ REPOSITORY_SPECFILE :=
      yaml_Marshal_spec
        {| sName := "upstream"; sDescription := "demo"; sUrls := ["https://upstream"];
           sPriority := 99; sType := HttpRepositoryType; sRevision := rev;
           sLastUpdate := "1700000000"; sTreePath := ""; sMetaPath := "";
           sRepositoryFiles := manifest; sVerify := true |}]>
  (<["/var/cache/luet/repos/" ++ name ++ "/treefs/foo/definition.yaml" := Blob "old tree"]>
  (<["/var/cache/luet/repos/" ++ name ++ "/metafs/" ++ REPOSITORY_METAFILE := MetaYaml None]>
   ∅)).

(** The mirror of the manifest above, with bundles that verify ([E0])
    and with a tree bundle that does not ([E1]). *)
Definition E0 : @Env Pkg := env manifest "tree-v3" "meta-v3".
Definition E1 : @Env Pkg := env manifest "tree-v4" "meta-v3".
(** A mirror whose spec document declares no metadata bundle. *)
Definition E2 : @Env Pkg := env (delete REPOFILE_META_KEY manifest) "tree-v3" "meta-v3".

(** A descriptor whose revision is negative. *)
Definition negative : LuetSystemRepository :=
  SetRevision (repo "N" 5 [fooA]) (-1).

(** A registry generator that pushes and one that does not, neither
    forced, and a directory of built packages. *)
Definition pushing : dockerRepositoryGenerator :=
  {| g_imagePrefix := "quay.io/demo"; g_imagePush := true; g_force := false |}.
Definition building : dockerRepositoryGenerator :=
  {| g_imagePrefix := "quay.io/demo"; g_imagePush := false; g_force := false |}.
Definition build_dir : gmap string (@FileData Pkg) :=
  {["/build/foo-1.0.metadata.yaml" := Blob "foo"]}.

Definition start (E : @Env Pkg) (b : BackendState E) (σ : gmap string (@FileData Pkg))
    : State E :=
  {| fs := σ; backend := b; trace := []; tmpseq := 0 |}.

(** A registry that holds no image yet. *)
Definition empty_registry (E : @Env Pkg) : @Env Pkg :=
  {| BackendState := BackendState E;
     GetRepoDatabaseDirPath := GetRepoDatabaseDirPath E;
     TempDirName := TempDirName E;
     ClientDownload := ClientDownload E;
     ArtifactVerify := ArtifactVerify E;
     ArtifactUnpack := ArtifactUnpack E;
     ArtifactCompress := ArtifactCompress E;
     ArtifactHash := ArtifactHash E;
     CreateArtifactForFile := CreateArtifactForFile E;
     NewPackageArtifactFromYaml := NewPackageArtifactFromYaml E;
     CleanPath := CleanPath E;
     helpers_Tar := helpers_Tar E;
     NewInMemoryDatabase := NewInMemoryDatabase E;
     RecipeLoad := RecipeLoad E;
     BuilderSave := BuilderSave E;
     ImageAvailable := fun _ _ => false;
     BackendPush := BackendPush E;
     BackendDownloadImage := BackendDownloadImage E;
     BackendExtractRootfs := BackendExtractRootfs E;
     GenerateFinalImage := GenerateFinalImage E;
     regexp_Compile := regexp_Compile E;
     time_Now_Unix := time_Now_Unix E |}.
Definition E3 : @Env Pkg := empty_registry E0.


(** A mirror whose spec document is empty. *)
Definition empty_spec_mirror (E : @Env Pkg) : @Env Pkg :=
  {| BackendState := BackendState E;
     GetRepoDatabaseDirPath := GetRepoDatabaseDirPath E;
     TempDirName := TempDirName E;
     ClientDownload := fun c name n =>
       if String.eqb name REPOSITORY_SPECFILE then Ok ("/tmp/dl/spec", NullYaml)
       else ClientDownload E c name n;
     ArtifactVerify := ArtifactVerify E;
     ArtifactUnpack := ArtifactUnpack E;
     ArtifactCompress := ArtifactCompress E;
     ArtifactHash := ArtifactHash E;
     CreateArtifactForFile := CreateArtifactForFile E;
     NewPackageArtifactFromYaml := NewPackageArtifactFromYaml E;
     CleanPath := CleanPath E;
     helpers_Tar := helpers_Tar E;
     NewInMemoryDatabase := NewInMemoryDatabase E;
     RecipeLoad := RecipeLoad E;
     BuilderSave := BuilderSave E;
     ImageAvailable := ImageAvailable E;
     BackendPush := BackendPush E;
     BackendDownloadImage := BackendDownloadImage E;
     BackendExtractRootfs := BackendExtractRootfs E;
     GenerateFinalImage := GenerateFinalImage E;
     regexp_Compile := regexp_Compile E;
     time_Now_Unix := time_Now_Unix E |}.
Definition E5 : @Env Pkg := empty_spec_mirror E0.

(** A repository of a type no generator and no client exists for. *)
Definition ftp : LuetSystemRepository := SetType A "ftp".

(** Repository B once its tree is in the manifest. *)
Definition B_with_tree : LuetSystemRepository :=
  SetRepositoryFile B REPOFILE_TREE_KEY NewDefaultTreeRepositoryFile.

(** A generator of local repositories that builds nothing, and recipes
    whose [Load] keeps the tree as it is. *)
Definition local_generator : RepositoryGenerator E0 :=
  {| rg_Generate := fun r _ _ => ret E0 r; rg_Initialize := fun _ _ => ret E0 [] |}.
Definition keep_tree (b : @Builder Pkg) (dir : string) (files : gmap string (@FileData Pkg))
    : Result (@Builder Pkg) := Ok b.

(** An artifact that installs one file, and a repository indexing it. *)
Definition foo_artifact : @PackageArtifact Pkg :=
  {| Path := "/build/foo-1.0.package.tar"; CompileSpecPackage := fooA;
     ArtifactCompressionType := GZip; ArtifactChecksums := ∅;
     Files := ["/usr/bin/foo"] |}.

End Demo.

(** * Properties *)

(** ** Paths *)

Lemma prefix_String c s d t :
  String.prefix (String c s) (String d t) = true <-> c = d /\ String.prefix s t = true.
Proof.
  simpl. destruct (ascii_dec c d); [by split; [intros ?|intros [_ ?]]|].
  split; [done|by intros [? _]].
Qed.

(** Two prefixes of one string are comparable. *)
Lemma prefix_comparable x y q :
  String.prefix x q = true -> String.prefix y q = true ->
  String.prefix x y = true \/ String.prefix y x = true.
Proof.
  revert y q. induction x as [|c x IH]; intros y q; [left; by destruct y|].
  destruct y as [|d y]; [by right|].
  destruct q as [|e q]; [done|].
  rewrite !prefix_String. intros [-> Hx] [-> Hy].
  destruct (IH y q Hx Hy); [left|right]; by split.
Qed.

Lemma prefix_slash a b :
  String.prefix (a ++ "/") (b ++ "/") = true -> a = b \/ String.prefix (a ++ "/") b = true.
Proof.
  revert b. induction a as [|c a IH]; intros b.
  - destruct b as [|d b]; [by left|].
    change ("" ++ "/") with (String "/" "").
    change (String d b ++ "/") with (String d (b ++ "/")).
    intros [<- _]%prefix_String. right.
    apply (prefix_String "/" "" "/" b). split; [done|by destruct b].
  - change (String c a ++ "/") with (String c (a ++ "/")).
    destruct b as [|d b].
    + change ("" ++ "/") with (String "/" "").
      intros [_ Hp]%prefix_String. by destruct a.
    + change (String d b ++ "/") with (String d (b ++ "/")).
      intros [-> Hp]%prefix_String.
      destruct (IH b Hp) as [->|Hq]; [by left|right].
      by apply (prefix_String d (a ++ "/") d b).
Qed.

Lemma under_refl p : under p p = true.
Proof. unfold under. by rewrite bool_decide_eq_true_2. Qed.

Lemma under_inv dir p :
  under dir p = true -> dir = p \/ String.prefix (dir ++ "/") p = true.
Proof.
  unfold under. intros [?%bool_decide_eq_true|?]%orb_true_iff; auto.
Qed.

(** Two directories that hold a common path are nested. *)
Lemma under_comparable a b q :
  under a q = true -> under b q = true -> under a b = true \/ under b a = true.
Proof.
  intros [->|Ha]%under_inv [->|Hb]%under_inv.
  - left. apply under_refl.
  - right. unfold under. by rewrite Hb, orb_true_r.
  - left. unfold under. by rewrite Ha, orb_true_r.
  - destruct (prefix_comparable _ _ _ Ha Hb) as [Hab|Hba].
    + left. destruct (prefix_slash _ _ Hab) as [->|Hp]; [apply under_refl|].
      unfold under. by rewrite Hp, orb_true_r.
    + right. destruct (prefix_slash _ _ Hba) as [->|Hp]; [apply under_refl|].
      unfold under. by rewrite Hp, orb_true_r.
Qed.

Lemma independent_under p dir q :
  independent p dir = true -> under dir q = true -> under p q = false.
Proof.
  unfold independent. intros [Hpd Hdp]%andb_true_iff Hq.
  destruct (under p q) eqn:Hpq; [|done].
  destruct (under_comparable _ _ _ Hpq Hq) as [Hx|Hx]; rewrite Hx in *; done.
Qed.

Lemma prefix_app_slash a b : String.prefix (a ++ "/") (a ++ "/" ++ b) = true.
Proof.
  induction a as [|c a IH].
  - change ("" ++ "/") with (String "/" ""). change ("" ++ "/" ++ b) with (String "/" b).
    apply prefix_String. split; [done|]. by destruct b.
  - change (String c a ++ "/") with (String c (a ++ "/")).
    change (String c a ++ "/" ++ b) with (String c (a ++ "/" ++ b)).
    by apply prefix_String.
Qed.

Lemma Join_under dir name : dir <> "" -> under dir (Join dir name) = true.
Proof.
  intros Hdir. unfold Join, under. rewrite decide_False by done.
  by rewrite prefix_app_slash, orb_true_r.
Qed.

Lemma Join_nonempty dir name : name <> "" -> Join dir name <> "".
Proof.
  intros Hname. unfold Join. case_decide; [done|]. by destruct dir.
Qed.


Section Properties.
Context {Package : Type} `{PackageAPI Package}.
Variable E : @Env Package.
Implicit Types (re : list (@LuetSystemRepository Package)).
Implicit Types (r repo : @LuetSystemRepository Package) (w : State E).
Implicit Types (σ : gmap string (@FileData Package)).
Local Open Scope list_scope.

(** Unfolding the monad, and running it by cases on the results of the
    collaborators. *)
Ltac unfold_M :=
  unfold Debug, Info, ioutil_WriteFile, ReadSpecFileM in *;
  unfold bind, wrapped, defer, lift, ret, fail, panic, emit, get_fs, modify_fs in *.
Ltac st_simpl :=
  cbn [fs trace backend tmpseq with_fs log_event next_tmp with_backend os_Remove
       os_RemoveAll fst snd is_Ok] in *.
Ltac exec := unfold_M; st_simpl; repeat (case_match; simplify_eq; st_simpl).

(** ** The aggregator *)

(** *** [sort.Sort] leaves a priority-sorted permutation *)

#[local] Instance by_priority_trans : Transitive (@by_priority Package).
Proof. intros a b c; unfold by_priority; lia. Qed.

Lemma Swap_adjacent re1 a b re2 :
  Swap (re1 ++ a :: b :: re2) (S (length re1)) (length re1) = re1 ++ b :: a :: re2.
Proof.
  unfold Swap.
  rewrite (lookup_app_r re1) by lia.
  replace (S (length re1) - length re1)%nat with 1%nat by lia.
  rewrite list_lookup_middle by done. simpl.
  rewrite (insert_app_r_alt re1) by lia.
  replace (S (length re1) - length re1)%nat with 1%nat by lia. simpl.
  rewrite (insert_app_r_alt re1) by lia.
  by replace (length re1 - length re1)%nat with 0%nat by lia.
Qed.

Lemma Less_adjacent re1 a b re2 :
  Less (re1 ++ a :: b :: re2) (S (length re1)) (length re1)
  = bool_decide (GetPriority b < GetPriority a).
Proof.
  unfold Less.
  rewrite (lookup_app_r re1) by lia.
  replace (S (length re1) - length re1)%nat with 1%nat by lia.
  by rewrite list_lookup_middle.
Qed.

(** The inner loop inserts the element at index [length re1] into the
    sorted prefix [re1]. *)
Lemma sift_sorted_prefix re1 x re2 :
  StronglySorted by_priority re1 ->
  exists re1', sift (re1 ++ x :: re2) (length re1) = re1' ++ re2
               /\ re1' ≡ₚ re1 ++ [x]
               /\ StronglySorted by_priority re1'.
Proof.
  revert x re2. induction re1 as [|y re1 IH] using rev_ind; intros x re2 Hs.
  - exists [x]. repeat split; [done|]. repeat constructor.
  - rewrite length_app, Nat.add_1_r, <- app_assoc. simpl.
    rewrite Less_adjacent. apply StronglySorted_app in Hs as (Hle & Hs1 & _).
    case_bool_decide as Hlt.
    + rewrite Swap_adjacent.
      destruct (IH x (y :: re2) Hs1) as (re1' & -> & Hp & Hs').
      exists (re1' ++ [y]). rewrite <- app_assoc. split; [done|]. split.
      * rewrite Hp. rewrite <- !app_assoc. apply Permutation_app_head, perm_swap.
      * apply StronglySorted_app_2; [|done|repeat constructor].
        intros z1 z2 Hz1 ->%list_elem_of_singleton.
        rewrite Hp in Hz1. apply elem_of_app in Hz1 as [Hz1| ->%list_elem_of_singleton].
        -- apply Hle; [done|]. by apply list_elem_of_singleton.
        -- unfold by_priority. lia.
    + exists ((re1 ++ [y]) ++ [x]). rewrite <- !app_assoc. split; [done|]. split; [done|].
      rewrite app_assoc.
      apply StronglySorted_app_2; [| |repeat constructor].
      * intros z1 z2 Hz1 ->%list_elem_of_singleton.
        apply elem_of_app in Hz1 as [Hz1| ->%list_elem_of_singleton].
        -- assert (by_priority z1 y) by (apply Hle; [done|by apply list_elem_of_singleton]).
           unfold by_priority in *. lia.
        -- unfold by_priority. lia.
      * apply StronglySorted_app_2; [done..|repeat constructor].
Qed.

Lemma insertion_loop_sorted re1 re2 :
  StronglySorted by_priority re1 ->
  let out := insertion_loop (re1 ++ re2) (length re1) (length re2) in
  out ≡ₚ re1 ++ re2 /\ StronglySorted by_priority out.
Proof.
  revert re1. induction re2 as [|x re2 IH]; intros re1 Hs; simpl.
  - by rewrite app_nil_r.
  - destruct (sift_sorted_prefix re1 x re2 Hs) as (re1' & -> & Hp & Hs').
    assert (Hlen : S (length re1) = length re1').
    { apply Permutation_length in Hp. rewrite length_app in Hp. simpl in Hp. lia. }
    rewrite Hlen. destruct (IH re1' Hs') as [Hp' Hs'']. split; [|done].
    rewrite Hp', Hp, <- app_assoc. done.
Qed.

Lemma sort_Sort_sorted re :
  sort_Sort re ≡ₚ re /\ Sorted by_priority (sort_Sort re).
Proof.
  unfold sort_Sort, Len. destruct re as [|x re]; simpl.
  - split; [done|constructor].
  - rewrite Nat.sub_0_r.
    destruct (insertion_loop_sorted [x] re) as [Hp Hs]; [repeat constructor|].
    simpl in Hp, Hs. split; [done|]. by apply StronglySorted_Sorted.
Qed.


(** *** [World] keeps the first definition in collection order *)

Local Abbreviation add_package :=
  (fun (cache : gmap string Package) p => <[GetFingerPrint p := p]> cache).

Lemma lookup_fold_packages (l : list Package) (c : gmap string Package) fp :
  (exists p, p ∈ l /\ GetFingerPrint p = fp /\ foldl add_package c l !! fp = Some p)
  \/ ((forall q, q ∈ l -> GetFingerPrint q <> fp) /\ foldl add_package c l !! fp = c !! fp).
Proof.
  revert c. induction l as [|x l IH]; intros c; simpl.
  - right. split; [|done]. by intros q ?%elem_of_nil.
  - destruct (IH (<[GetFingerPrint x := x]> c)) as [(p & Hp & Hfp & Hl)|[Hno Hl]].
    + left. exists p. split; [by right|done].
    + destruct (decide (GetFingerPrint x = fp)) as [Hx|Hx].
      * left. exists x. split; [by left|]. split; [done|].
        by rewrite Hl, <- Hx, lookup_insert_eq.
      * right. split.
        -- intros q [->|Hq]%elem_of_cons; [done|by apply Hno].
        -- by rewrite Hl, lookup_insert_ne.
Qed.

Lemma World_cache_cons r re :
  World_cache (r :: re) = foldl add_package (World_cache re) (db_World (database r)).
Proof. done. Qed.

Lemma World_cache_first re fp p :
  World_cache re !! fp = Some p ->
  GetFingerPrint p = fp /\
  exists re1 r re2, re = re1 ++ r :: re2 /\ p ∈ db_World (database r)
                    /\ forall r', r' ∈ re1 -> ~ defines r' fp.
Proof.
  revert p. induction re as [|r re IH]; intros p.
  - unfold World_cache; simpl. by rewrite lookup_empty.
  - rewrite World_cache_cons.
    destruct (lookup_fold_packages (db_World (database r)) (World_cache re) fp)
      as [(p' & Hp' & Hfp & ->)|[Hno ->]].
    + intros [= <-]. split; [done|]. exists [], r, re. split; [done|]. split; [done|].
      by intros r' ?%elem_of_nil.
    + intros Hl. destruct (IH p Hl) as (Hfp & re1 & r0 & re2 & -> & Hin & Hfirst).
      split; [done|]. exists (r :: re1), r0, re2. split; [done|]. split; [done|].
      intros r' [->|Hr']%elem_of_cons; [|by apply Hfirst].
      intros (q & Hq & Hqfp). by apply (Hno q).
Qed.

Lemma World_cache_defined re r fp :
  r ∈ re -> defines r fp -> is_Some (World_cache re !! fp).
Proof.
  induction re as [|r0 re IH]; [by intros ?%elem_of_nil|].
  intros Hr Hdef. rewrite World_cache_cons.
  destruct (lookup_fold_packages (db_World (database r0)) (World_cache re) fp)
    as [(p' & Hp' & Hfp & ->)|[Hno ->]]; [done|].
  apply elem_of_cons in Hr as [->|Hr]; [|by apply IH].
  destruct Hdef as (q & Hq & Hqfp). by destruct (Hno q).
Qed.

Lemma elem_of_World re p :
  p ∈ World re <-> World_cache re !! GetFingerPrint p = Some p.
Proof.
  unfold World. rewrite list_elem_of_fmap. split.
  - intros ([fp q] & -> & Hin%elem_of_map_to_list). simpl.
    by destruct (World_cache_first _ _ _ Hin) as [-> _].
  - intros Hl. exists (GetFingerPrint p, p). split; [done|]. by apply elem_of_map_to_list.
Qed.

Lemma World_fingerprints re :
  GetFingerPrint <$> World re = (map_to_list (World_cache re)).*1.
Proof.
  unfold World. rewrite <- list_fmap_compose. apply list_fmap_ext.
  intros i [fp q] Hin%list_elem_of_lookup_2%elem_of_map_to_list. simpl.
  by destruct (World_cache_first _ _ _ Hin) as [-> _].
Qed.

Lemma World_NoDup re : NoDup (GetFingerPrint <$> World re).
Proof. rewrite World_fingerprints. apply NoDup_fst_map_to_list. Qed.

Lemma World_covers re r q :
  r ∈ re -> q ∈ db_World (database r) ->
  exists p, p ∈ World re /\ GetFingerPrint p = GetFingerPrint q.
Proof.
  intros Hr Hq.
  destruct (World_cache_defined re r (GetFingerPrint q) Hr) as [p Hp]; [by exists q|].
  destruct (World_cache_first _ _ _ Hp) as [Hfp _].
  exists p. split; [|done]. apply elem_of_World. by rewrite Hfp.
Qed.

(** *** [ResolveSelectors], one requested package at a time *)

Lemma resolve_in_not_selector (pack : Package) re matches :
  IsSelector pack = false ->
  resolve_in pack re matches = matches ++ replicate (length re) pack.
Proof.
  intros Hsel. revert matches. induction re as [|r re IH]; intros matches; simpl.
  - by rewrite app_nil_r.
  - by rewrite Hsel, IH, <- app_assoc.
Qed.

Lemma resolve_in_selector (pack : Package) re matches :
  IsSelector pack = true ->
  resolve_in pack re matches
  = matches ++ option_list (head (omap (fun r => FindPackageCandidate (database r) pack) re)).
Proof.
  intros Hsel. induction re as [|r re IH]; simpl.
  - by rewrite app_nil_r.
  - rewrite Hsel. by destruct (FindPackageCandidate (database r) pack).
Qed.


Lemma sort_Sort_length re : length (sort_Sort re) = length re.
Proof. apply Permutation_length. by destruct (sort_Sort_sorted re). Qed.

(** What [ResolveSelectors] returns for one requested package that is
    not a selector: the package, once for every repository. *)
Lemma ResolveSelectors_plain re (pack : Package) :
  IsSelector pack = false ->
  (ResolveSelectors re [pack]).1 = replicate (length re) pack.
Proof.
  intros Hsel. unfold ResolveSelectors. simpl.
  by rewrite resolve_in_not_selector, sort_Sort_length.
Qed.

(** And for a selector: the candidate of the first repository, in
    ascending order of priority, that has one. *)
Lemma ResolveSelectors_selector re (pack : Package) :
  IsSelector pack = true ->
  (ResolveSelectors re [pack]).1
  = option_list (head (omap (fun r => FindPackageCandidate (database r) pack)
                            (sort_Sort re))).
Proof. intros Hsel. unfold ResolveSelectors. simpl. by rewrite resolve_in_selector. Qed.

(** C10. [PackageMatches], [ResolveSelectors] and [SearchPackages] sort
    the collection they are called on: the collection the caller sees
    afterwards is in ascending order of priority and is a permutation of
    what it was. *)
Theorem aggregator_sorts_collection re (p : list Package) (s : string)
    (t : LuetSearchModeType) :
  (Sorted by_priority (PackageMatches re p).2 /\ (PackageMatches re p).2 ≡ₚ re)
  /\ (Sorted by_priority (ResolveSelectors re p).2 /\ (ResolveSelectors re p).2 ≡ₚ re)
  /\ (Sorted by_priority (SearchPackages E re s t).2 /\ (SearchPackages E re s t).2 ≡ₚ re).
Proof. destruct (sort_Sort_sorted re). by repeat split. Qed.

(** C6, amended. Over a collection in ascending order of priority,
    [World] returns exactly one package for every fingerprint defined in
    the collection, and the package returned is a definition from a
    repository that no repository defining the same fingerprint precedes
    in priority. *)
Theorem World_precedence re :
  Sorted by_priority re ->
  NoDup (GetFingerPrint <$> World re)
  /\ (forall r q, r ∈ re -> q ∈ db_World (database r) ->
        exists p, p ∈ World re /\ GetFingerPrint p = GetFingerPrint q)
  /\ (forall p, p ∈ World re -> highest_precedence_definition re p).
Proof.
  intros Hs%Sorted_StronglySorted; [|apply _].
  split; [apply World_NoDup|]. split; [intros; by eapply World_covers|].
  intros p Hp%elem_of_World.
  destruct (World_cache_first _ _ _ Hp) as (_ & re1 & r & re2 & -> & Hin & Hfirst).
  exists r. split; [set_solver|]. split; [done|].
  intros r' Hr' Hdef. apply elem_of_app in Hr' as [Hr'|Hr']; [by destruct (Hfirst r' Hr')|].
  apply elem_of_cons in Hr' as [->|Hr']; [done|].
  apply StronglySorted_app in Hs as (_ & _ & Hs).
  apply StronglySorted_cons in Hs as [Hall _]. rewrite Forall_forall in Hall. by apply Hall.
Qed.

(** ** Spec documents *)

Lemma default_omitempty_string s : default "" (omitempty_string s) = s.
Proof. unfold omitempty_string. by case_decide. Qed.
Lemma default_omitempty_int z : default 0 (omitempty_int z) = z.
Proof. unfold omitempty_int. by case_decide. Qed.
Lemma default_omitempty_map m : default ∅ (omitempty_map m) = m.
Proof. unfold omitempty_map. by case_decide. Qed.

Lemma decode_encode_file f : decode_file (encode_file f) = f.
Proof.
  destruct f. unfold decode_file, encode_file. simpl.
  by rewrite default_omitempty_string, default_omitempty_map.
Qed.

Lemma decode_encode_spec (s : @LuetSystemRepositorySerialized) :
  decode_spec (encode_spec s) = s.
Proof.
  destruct s as [? ? ? ? ? ? ? ? ? files ?]. unfold decode_spec, encode_spec. simpl.
  rewrite !default_omitempty_string, default_omitempty_int.
  f_equal. rewrite <- map_fmap_compose.
  rewrite <- (map_fmap_id files) at 2.
  apply map_fmap_ext. intros ? f _. apply decode_encode_file.
Qed.

Lemma yaml_Unmarshal_Marshal_spec (s : @LuetSystemRepositorySerialized) :
  @yaml_Unmarshal_spec Package (yaml_Marshal_spec s) = Ok (Some s).
Proof. unfold yaml_Unmarshal_spec, yaml_Marshal_spec. by rewrite decode_encode_spec. Qed.

Lemma spec_roundtrip_fields (r : @LuetSystemRepository Package) db :
  exists r', spec_roundtrip E r db = Ok r'
    /\ GetName r' = GetName r
    /\ GetUrls r' = GetUrls r
    /\ GetPriority r' = GetPriority r
    /\ GetType r' = GetType r
    /\ GetRevision r' = (if bool_decide (0 < GetRevision r) then GetRevision r else 0)
    /\ GetLastUpdate r' = GetLastUpdate r
    /\ RepositoryFiles r' = RepositoryFiles r
    /\ GetVerify r' = GetVerify r.
Proof.
  unfold spec_roundtrip, NewLuetSystemRepositoryFromYaml.
  rewrite yaml_Unmarshal_Marshal_spec. eexists. split; [done|].
  destruct r as [[] ? ? ? ? ? ? ?]. unfold Serialize. simpl.
  repeat case_bool_decide; simpl; repeat split; try done.
Qed.


(** C4, amended. For every descriptor whose revision is not negative,
    serialising it to its spec document and parsing the document yields
    a descriptor with the same name, urls, priority, type, revision,
    last_update, repo_files and verify. *)
Theorem spec_roundtrip_identity (r : @LuetSystemRepository Package) db :
  0 <= GetRevision r ->
  exists r', spec_roundtrip E r db = Ok r'
    /\ GetName r' = GetName r
    /\ GetUrls r' = GetUrls r
    /\ GetPriority r' = GetPriority r
    /\ GetType r' = GetType r
    /\ GetRevision r' = GetRevision r
    /\ GetLastUpdate r' = GetLastUpdate r
    /\ RepositoryFiles r' = RepositoryFiles r
    /\ GetVerify r' = GetVerify r.
Proof.
  intros Hrev.
  destruct (spec_roundtrip_fields r db) as (r' & Hrt & ? & ? & ? & ? & Hr & ? & ? & ?).
  exists r'. repeat split; try done. rewrite Hr. case_bool_decide; lia.
Qed.

(** ** The disk *)

Lemma lookup_RemoveAll_fs p q σ :
  under p q = false -> RemoveAll_fs p σ !! q = σ !! q.
Proof.
  intros Hq. unfold RemoveAll_fs.
  destruct (σ !! q) as [d|] eqn:Hl.
  - apply map_lookup_filter_Some. by split.
  - apply map_lookup_filter_None. left. done.
Qed.

Lemma outside_cache_under r p q :
  outside_cache E r p = true -> in_cache E r q = true -> under p q = false.
Proof.
  unfold outside_cache, in_cache.
  intros [[Hs Ht]%andb_true_iff Hm]%andb_true_iff
         [[->%bool_decide_eq_true|Hq]%orb_true_iff|Hq]%orb_true_iff.
  - apply (independent_under _ _ _ Hs), under_refl.
  - by apply (independent_under _ _ _ Ht).
  - by apply (independent_under _ _ _ Hm).
Qed.

Lemma outside_cache_ne r p q :
  outside_cache E r p = true -> in_cache E r q = true -> p <> q.
Proof.
  intros Hp Hq ->. pose proof (outside_cache_under _ _ _ Hp Hq) as Hu.
  by rewrite under_refl in Hu.
Qed.

(** ** Sync *)

(** The events added by a run, once its trace is known. *)
Lemma new_events_app w w' t : trace E w' = trace E w ++ t -> new_events E w w' = t.
Proof. unfold new_events. intros ->. apply drop_app_length. Qed.

(** Rehydration reads the disk, logs, and returns the downloaded
    descriptor under the local settings. *)
Lemma Sync_rehydrate_spec r repo treefs metafs w res w' :
  Sync_rehydrate E r repo treefs metafs w = (res, w') ->
  fs E w' = fs E w
  /\ (exists t, trace E w' = trace E w ++ t
                /\ failed_verifications t = [] /\ downloads t = [])
  /\ forall r', res = Ok r' -> same_local_settings r r'.
Proof.
  unfold Sync_rehydrate. intros Hrun. exec.
  - split; [done|]. split; [by eexists [_]|]. intros r' [= <-]. by split.
  - split; [done|]. split; [exists []; by rewrite app_nil_r|]. done.
  - split; [done|]. split; [exists []; by rewrite app_nil_r|]. done.
Qed.

(** Fetching the bundles: a verification that fails ends the run with
    an integrity error before any file of the cache is touched. *)
Lemma Sync_fetch_spec r repo c file treefs metafs w res w' :
  Sync_fetch E r repo c file treefs metafs w = (res, w') ->
  (exists t, trace E w' = trace E w ++ t
     /\ (client_outside_cache E r -> failed_verifications t <> [] ->
         integrity_error res /\ cache_unchanged E r w w'))
  /\ forall r', res = Ok r' -> same_local_settings r r'.
Proof.
  unfold Sync_fetch, DownloadFile, Verify_artifact, Unpack_artifact, helpers_CopyFile.
  intros Hrun. exec.
  all: try match goal with
           | Hr : Sync_rehydrate _ _ _ _ _ _ = _ |- _ =>
               apply Sync_rehydrate_spec in Hr as (Hfs & (t & Ht & Hv & Hd) & Hok);
               st_simpl
           end.
  all: split; [|try done; eauto].
  all: rewrite ?Ht, <- ?app_assoc; eexists; (split; [reflexivity|]).
  all: cbn [failed_verifications omap app list_omap]; rewrite ?omap_app, ?Hv.
  all: try done.
  all: try (intros; done).
  all: intros Hout _; (split; [eexists; eauto|]); intros q Hq; st_simpl.
  all: rewrite !lookup_delete_ne, !lookup_insert_ne; try done.
  all: eapply outside_cache_ne; eauto.
Qed.

(** The same for the whole of [Sync]. *)
Lemma Sync_spec r force w res w' :
  Sync E r force w = (res, w') ->
  (exists t, trace E w' = trace E w ++ t
     /\ (client_outside_cache E r -> failed_verifications t <> [] ->
         integrity_error res /\ cache_unchanged E r w w'))
  /\ forall r', res = Ok r' -> same_local_settings r r'.
Proof.
  unfold Sync, DownloadFile, TempDir. intros Hrun. exec.
  all: try match goal with
           | Hr : Sync_rehydrate _ _ _ _ _ _ = _ |- _ =>
               apply Sync_rehydrate_spec in Hr as (Hfs & (t & Ht & Hv & Hd) & Hok);
               st_simpl
           end.
  all: try match goal with
           | Hr : Sync_fetch _ _ _ _ _ _ _ _ = _ |- _ =>
               apply Sync_fetch_spec in Hr as ((t & Ht & Hgate) & Hok);
               st_simpl
           end.
  all: split; [|try done; eauto].
  all: rewrite ?Ht, <- ?app_assoc; eexists; (split; [reflexivity|]).
  all: cbn [failed_verifications omap app list_omap]; rewrite ?omap_app, ?Hv.
  all: try done.
  all: try (intros; done).
  all: intros Hout Hfail; destruct (Hgate Hout Hfail) as [Herr Hcache].
  all: split; [done|].
  all: intros q Hq; st_simpl.
  all: rewrite lookup_RemoveAll_fs by (eapply outside_cache_under; eauto).
  all: rewrite (Hcache q Hq); st_simpl.
  all: apply lookup_insert_ne; eapply outside_cache_ne; eauto.
Qed.


Lemma ReadSpecFile_insert_ne (σ : gmap string (@FileData Package)) p d file :
  p <> file -> ReadSpecFile E (<[p := d]> σ) file = ReadSpecFile E σ file.
Proof. intros Hne. unfold ReadSpecFile, ioutil_ReadFile. by rewrite lookup_insert_ne. Qed.


(** C8. The descriptor a successful [Sync] returns has the urls,
    authentication, type, priority, name and verify flag of the
    caller's descriptor, whatever the downloaded document declares. *)
Theorem Sync_keeps_local_settings r force w r' w' :
  Sync E r force w = (Ok r', w') ->
  GetUrls r' = GetUrls r /\ GetAuthentication r' = GetAuthentication r
  /\ GetType r' = GetType r /\ GetPriority r' = GetPriority r
  /\ GetName r' = GetName r /\ GetVerify r' = GetVerify r.
Proof.
  intros Hrun. destruct (Sync_spec _ _ _ _ _ Hrun) as [_ Hok].
  by destruct (Hok r' eq_refl).
Qed.

(** C5. For a cached repository synced without [force], when the cached
    spec document and the downloaded one parse to the same revision and
    last update, the only download of the run is the spec document, the
    cache is left as it was, and the repository is reported as already
    up to date. *)
Theorem Sync_short_circuit r w c file data remote local res w' :
  Cached (Config r) = true ->
  Client r = Some c ->
  ClientDownload E c REPOSITORY_SPECFILE (tmpseq E w) = Ok (file, data) ->
  outside_cache E r file = true ->
  ReadSpecFile E (<[file := data]> (fs E w)) file = Ok remote ->
  ReadSpecFile E (fs E w) (cache_specfile E r) = Ok local ->
  GetRevision local = GetRevision remote ->
  GetLastUpdate local = GetLastUpdate remote ->
  Sync E r false w = (res, w') ->
  downloads (new_events E w w') = [REPOSITORY_SPECFILE]
  /\ cache_unchanged E r w w'
  /\ EvInfo ["Repository"; GetName remote; "is already up to date."] ∈ new_events E w w'.
Proof.
  intros Hcached Hc Hdl Hfile Hremote Hlocal Hrev Hlu.
  assert (Hlocal' : ReadSpecFile E (<[file := data]> (fs E w)) (cache_specfile E r) = Ok local).
  { rewrite ReadSpecFile_insert_ne; [done|]. eapply outside_cache_ne; [done|].
    unfold in_cache. by rewrite bool_decide_eq_true_2. }
  unfold Sync, DownloadFile. intros Hrun. exec.
  all: repeat match goal with
              | H1 : ?x = Ok _, H2 : ?x = _ |- _ => rewrite H1 in H2; simplify_eq
              | H1 : ?x = Returns (Ok _), H2 : ?x = _ |- _ => rewrite H1 in H2; simplify_eq
              end.
  all: try match goal with
           | Hb : negb (_ && _) = true |- _ =>
               rewrite Hrev, Hlu, !bool_decide_eq_true_2 in Hb by done; done
           end.
  all: match goal with
       | Hr : Sync_rehydrate _ _ _ _ _ _ = _ |- _ =>
           apply Sync_rehydrate_spec in Hr as (Hfs & (t & Ht & Hv & Hd) & Hok); st_simpl
       end.
  all: unfold new_events; st_simpl; rewrite Ht, <- !app_assoc, drop_app_length.
  all: split; [by unfold downloads in *; rewrite !omap_app, Hd|].
  all: split; [|set_solver].
  all: intros q Hq; st_simpl.
  all: rewrite lookup_RemoveAll_fs by (eapply outside_cache_under; eauto).
  all: rewrite Hfs; apply lookup_insert_ne; eapply outside_cache_ne; eauto.
Qed.

(** The mandatory keys, for a document that decodes to a descriptor:
    [ReadSpecFile] returns a descriptor only if it declares manifest
    entries for both the tree key and the meta key; a document whose
    descriptor lacks either is answered with an error, and [Sync] stops
    on it having downloaded the spec document and nothing else. *)
Theorem ReadSpecFile_mandatory_keys :
  (forall σ file repo,
     ReadSpecFile E σ file = Ok repo ->
     is_Some (RepositoryFiles repo !! REPOFILE_TREE_KEY)
     /\ is_Some (RepositoryFiles repo !! REPOFILE_META_KEY))
  /\ (forall σ file dat repo,
        σ !! file = Some dat ->
        NewLuetSystemRepositoryFromYaml dat (NewInMemoryDatabase E) = Ok repo ->
        RepositoryFiles repo !! REPOFILE_TREE_KEY = None
        \/ RepositoryFiles repo !! REPOFILE_META_KEY = None ->
        exists e, ReadSpecFile E σ file = Err e)
  /\ (forall r force w c file dat repo,
        Client r = Some c ->
        ClientDownload E c REPOSITORY_SPECFILE (tmpseq E w) = Ok (file, dat) ->
        NewLuetSystemRepositoryFromYaml dat (NewInMemoryDatabase E) = Ok repo ->
        RepositoryFiles repo !! REPOFILE_TREE_KEY = None
        \/ RepositoryFiles repo !! REPOFILE_META_KEY = None ->
        exists e w', Sync E r force w = (Err e, w')
                     /\ downloads (new_events E w w') = [REPOSITORY_SPECFILE]).
Proof.
  assert (Hmissing : forall σ file dat repo,
            σ !! file = Some dat ->
            NewLuetSystemRepositoryFromYaml dat (NewInMemoryDatabase E) = Ok repo ->
            RepositoryFiles repo !! REPOFILE_TREE_KEY = None
            \/ RepositoryFiles repo !! REPOFILE_META_KEY = None ->
            exists e, ReadSpecFile E σ file = Err e).
  { intros σ file dat repo Hfile Hparse Hnone.
    unfold ReadSpecFile, ioutil_ReadFile, GetRepositoryFile. rewrite Hfile, Hparse.
    destruct Hnone as [-> | ->]; [by eexists|]. case_match; by eexists. }
  split; [|split; [done|]].
  - intros σ file repo. unfold ReadSpecFile, GetRepositoryFile.
    repeat case_match; intros; simplify_eq; eauto.
  - intros r force w c file dat repo Hc Hdl Hparse Hnone.
    destruct (Hmissing (<[file := dat]> (fs E w)) file dat repo) as [e He];
      [apply lookup_insert_eq|done..|].
    exists e. unfold Sync, DownloadFile. unfold_M. rewrite Hc. st_simpl.
    rewrite Hdl. st_simpl. rewrite He. eexists. split; [done|].
    unfold new_events. st_simpl. rewrite <- app_assoc. by rewrite drop_app_length.
Qed.

(** What [ReadSpecFile] does, by cases: a descriptor it returns has both
    keys, and it panics on the empty document and on nothing else. *)
Lemma ReadSpecFile_outcomes σ file :
  match ReadSpecFile E σ file with
  | Returns (Ok repo) =>
      is_Some (RepositoryFiles repo !! REPOFILE_TREE_KEY)
      /\ is_Some (RepositoryFiles repo !! REPOFILE_META_KEY)
  | Returns (Err _) => σ !! file <> Some NullYaml
  | Panics v => v = nil_dereference /\ σ !! file = Some NullYaml
  end.
Proof.
  unfold ReadSpecFile, ioutil_ReadFile, NewLuetSystemRepositoryFromYaml, GetRepositoryFile.
  destruct (σ !! file) as [[doc|index| |bytes]|]; cbn [yaml_Unmarshal_spec]; try done.
  all: repeat case_match; simplify_eq; eauto.
Qed.

(** The empty document served by a mirror: [Sync] panics where it parses
    the download, before the removal of the downloaded file is deferred
    (line 653) and before any bundle is asked for. *)
Lemma Sync_empty_document r force w c file :
  Client r = Some c ->
  ClientDownload E c REPOSITORY_SPECFILE (tmpseq E w) = Ok (file, NullYaml) ->
  exists w',
    Sync E r force w = (Panics nil_dereference, w')
    /\ downloads (new_events E w w') = [REPOSITORY_SPECFILE]
    /\ fs E w' !! file = Some NullYaml.
Proof.
  intros Hc Hdl. unfold Sync, DownloadFile. unfold_M. rewrite Hc. st_simpl.
  rewrite Hdl. st_simpl. unfold ReadSpecFile, ioutil_ReadFile.
  rewrite lookup_insert_eq. cbn [NewLuetSystemRepositoryFromYaml yaml_Unmarshal_spec].
  eexists. split; [done|]. st_simpl. split; [|apply lookup_insert_eq].
  unfold new_events. st_simpl. rewrite <- app_assoc. by rewrite drop_app_length.
Qed.


(** ** The registry generator *)

Lemma adds_nothing w w' : trace E w' = trace E w -> adds E w w' [] [] [].
Proof. intros Ht. exists []. by rewrite app_nil_r. Qed.

Lemma adds_app w w1 w2 b1 p1 a1 b2 p2 a2 :
  adds E w w1 b1 p1 a1 -> adds E w1 w2 b2 p2 a2 -> adds E w w2 (b1 ++ b2) (p1 ++ p2) (a1 ++ a2).
Proof.
  intros (t1 & Ht1 & <- & <- & <-) (t2 & Ht2 & <- & <- & <-).
  exists (t1 ++ t2). rewrite Ht2, Ht1, <- app_assoc. split; [done|].
  unfold builds, pushes, announcements. by rewrite !omap_app.
Qed.

Lemma adds_new_events w w' b p a :
  adds E w w' b p a ->
  builds (new_events E w w') = b /\ pushes (new_events E w w') = p
  /\ announcements (new_events E w w') = a.
Proof.
  intros (t & Ht & <- & <- & <-). unfold new_events. by rewrite Ht, drop_app_length.
Qed.

(** *** The manifest operations keep the settings of the descriptor *)

Lemma AddRepositoryFile_spec r src key root defaults w r' a w' :
  AddRepositoryFile E r src key root defaults w = (Ok (r', a), w') ->
  Config r' = Config r /\ PushImages r' = PushImages r /\ trace E w' = trace E w.
Proof.
  unfold AddRepositoryFile, Artifact_Compress, Artifact_Hash. intros Hrun. by exec.
Qed.

Lemma AddTree_spec r t dst key defaults w r' a w' :
  AddTree E r t dst key defaults w = (Ok (r', a), w') ->
  Config r' = Config r /\ PushImages r' = PushImages r /\ trace E w' = trace E w.
Proof.
  unfold AddTree, TempDir. intros Hrun. exec.
  all: match goal with
       | Hr : AddRepositoryFile _ _ _ _ _ _ _ = _ |- _ =>
           apply AddRepositoryFile_spec in Hr as (? & ? & Ht); st_simpl
       end; done.
Qed.

Lemma AddMetadata_spec r repospec dst w r' a w' :
  AddMetadata E r repospec dst w = (Ok (r', a), w') ->
  Config r' = Config r /\ PushImages r' = PushImages r /\ trace E w' = trace E w.
Proof.
  unfold AddMetadata, Serialize, Metadata_WriteFile, TempDir. intros Hrun. exec.
  all: match goal with
       | Hr : AddRepositoryFile _ _ _ _ _ _ _ = _ |- _ =>
           apply AddRepositoryFile_spec in Hr as (? & ? & Ht); st_simpl
       end; done.
Qed.



(** *** What the generator asks of the backend *)

Lemma adds_log w s e b p a :
  adds E w s b p a ->
  adds E w (log_event E s e) (b ++ builds [e]) (p ++ pushes [e]) (a ++ announcements [e]).
Proof. intros Hs. eapply adds_app; [done|]. by exists [e]. Qed.
Lemma adds_with_fs w s σ b p a : adds E w s b p a -> adds E w (with_fs E s σ) b p a.
Proof. done. Qed.
Lemma adds_with_backend w s x b p a : adds E w s b p a -> adds E w (with_backend E s x) b p a.
Proof. done. Qed.
Lemma adds_next_tmp w s b p a : adds E w s b p a -> adds E w (next_tmp E s) b p a.
Proof. done. Qed.
Lemma adds_os_RemoveAll w s x b p a : adds E w s b p a -> adds E w (os_RemoveAll E x s) b p a.
Proof. done. Qed.
Lemma adds_os_Remove w s x b p a : adds E w s b p a -> adds E w (os_Remove E x s) b p a.
Proof. done. Qed.

Lemma adds_eq w w' b p a b' p' a' :
  adds E w w' b p a -> b = b' -> p = p' -> a = a' -> adds E w w' b' p' a'.
Proof. by intros ? <- <- <-. Qed.

(** Collects what the state in the goal adds to [w], from its shape and
    from the facts known about the runs it went through. *)
Ltac solve_adds :=
  lazymatch goal with
  | |- adds _ ?w ?w _ _ _ => apply adds_nothing; reflexivity
  | |- adds _ _ (log_event _ _ _) _ _ _ => eapply adds_log; solve_adds
  | |- adds _ _ (with_fs _ _ _) _ _ _ => apply adds_with_fs; solve_adds
  | |- adds _ _ (with_backend _ _ _) _ _ _ => apply adds_with_backend; solve_adds
  | |- adds _ _ (next_tmp _ _) _ _ _ => apply adds_next_tmp; solve_adds
  | |- adds _ _ (os_RemoveAll _ _ _) _ _ _ => apply adds_os_RemoveAll; solve_adds
  | |- adds _ _ (os_Remove _ _ _) _ _ _ => apply adds_os_Remove; solve_adds
  | |- adds _ _ ?s _ _ _ =>
      lazymatch goal with
      | Hs : adds _ _ s _ _ _ |- _ => eapply adds_app; [|exact Hs]; solve_adds
      end
  end.

Lemma pushImage_forced image w res w' :
  pushImage E image true w = (res, w') -> adds E w w' [] [image] [].
Proof.
  unfold pushImage, backend_ImageAvailable, backend_Push. intros Hrun. exec.
  - match goal with Hb : _ && negb true = true |- _ => by rewrite andb_false_r in Hb end.
  - by eexists [_].
Qed.

Lemma pushFileFromArtifact_spec d a imageTree r w w' :
  pushFileFromArtifact E d a imageTree r w = (Ok tt, w') ->
  adds E w w' [imageTree] (if PushImages r then [imageTree] else []) [].
Proof.
  unfold pushFileFromArtifact, Artifact_GenerateFinalImage. intros Hrun. exec.
  - match goal with
    | Hr : pushImage _ _ _ _ = _ |- _ => apply pushImage_forced in Hr
    end.
    eapply adds_eq; [solve_adds|try done..]; by case_match.
  - eapply adds_eq; [solve_adds|try done..]; by case_match.
Qed.

Lemma pushImageFromArtifact_spec d a r w w' :
  pushImageFromArtifact E d a r w = (Ok tt, w') ->
  let image := (g_imagePrefix d ++ ":" ++ Artifact_GetFileName a)%string in
  adds E w w' [image] (if PushImages r then [image] else []) [].
Proof.
  unfold pushImageFromArtifact, Artifact_CreateForFile. intros Hrun. exec.
  all: match goal with
       | Hr : pushFileFromArtifact _ _ _ _ _ _ = (Returns (Ok ?u), _) |- _ =>
           destruct u; apply pushFileFromArtifact_spec in Hr
       end.
  all: eapply adds_eq; [solve_adds|try done..]; by case_match.
Qed.

Lemma pushRepoMetadata_spec d repospec r w w' :
  pushRepoMetadata E d repospec r w = (Ok tt, w') ->
  let image := (g_imagePrefix d ++ ":" ++ REPOSITORY_SPECFILE)%string in
  adds E w w' [image] (if PushImages r then [image] else []) [].
Proof.
  unfold pushRepoMetadata, TempDir, Tar. intros Hrun. exec.
  all: match goal with
       | Hr : pushFileFromArtifact _ _ _ _ _ _ = (Returns (Ok ?u), _) |- _ =>
           destruct u; apply pushFileFromArtifact_spec in Hr
       end.
  all: eapply adds_eq; [solve_adds|try done..]; by case_match.
Qed.


Lemma backend_DownloadImage_adds image w res w' :
  backend_DownloadImage E image w = (res, w') -> adds E w w' [] [] [].
Proof.
  unfold backend_DownloadImage. intros Hrun. exec.
  all: eapply adds_eq; [solve_adds|done..].
Qed.
Lemma backend_ExtractRootfs_adds image dst w res w' :
  backend_ExtractRootfs E image dst w = (res, w') -> adds E w w' [] [] [].
Proof.
  unfold backend_ExtractRootfs. intros Hrun. exec.
  all: eapply adds_eq; [solve_adds|done..].
Qed.

Lemma BumpRevision_spec r repospec resetRevision w r' w' :
  BumpRevision E r repospec resetRevision w = (Ok r', w') ->
  w' = w /\ PushImages r' = PushImages r /\ (resetRevision = true -> GetRevision r' = 1).
Proof. unfold BumpRevision, os_exists. intros Hrun. by exec. Qed.

(** A successful [Generate]: the revision it leaves, and what it asked
    of the backend and announced on the bus. *)
Lemma Generate_spec d r imagePrefix resetRevision w r' w' :
  Generate E d r imagePrefix resetRevision w = (Ok r', w') ->
  exists r0 tree compilertree meta,
    let spec := (g_imagePrefix d ++ ":" ++ REPOSITORY_SPECFILE)%string in
    let images := [tree; compilertree; meta; spec] in
    adds E w w' images (if PushImages r then images else [])
         [(EventRepositoryPreBuild, r0, (imagePrefix ++ ":" ++ REPOSITORY_SPECFILE)%string);
          (EventRepositoryPostBuild, r', imagePrefix)]
    /\ Config r' = Config r0
    /\ (resetRevision = true -> GetRevision r0 = 1).
Proof.
  unfold Generate, TempDir, backend_ImageAvailable. intros Hrun. exec.
  all: repeat match goal with
         | Hr : AddTree _ _ _ _ _ _ _ = _ |- _ =>
             apply AddTree_spec in Hr as (? & ? & ?%adds_nothing)
         | Hr : AddMetadata _ _ _ _ _ = _ |- _ =>
             apply AddMetadata_spec in Hr as (? & ? & ?%adds_nothing)
         | Hr : pushImageFromArtifact _ _ _ _ _ = (Returns (Ok ?u), _) |- _ =>
             destruct u; apply pushImageFromArtifact_spec in Hr
         | Hr : pushRepoMetadata _ _ _ _ _ = (Returns (Ok ?u), _) |- _ =>
             destruct u; apply pushRepoMetadata_spec in Hr
         | Hr : backend_DownloadImage _ _ _ = _ |- _ =>
             apply backend_DownloadImage_adds in Hr
         | Hr : backend_ExtractRootfs _ _ _ _ = _ |- _ =>
             apply backend_ExtractRootfs_adds in Hr
         | Hr : BumpRevision _ _ _ _ _ = _ |- _ =>
             apply BumpRevision_spec in Hr as (-> & ? & ?)
         end.
  all: repeat match goal with
         | Hp : PushImages ?x = PushImages _ |- _ => rewrite Hp in *; clear Hp
         end.
  all: cbn [PushImages SetLastUpdate with_config] in *.
  all: try match goal with
         | Hp : PushImages _ = true |- _ => rewrite Hp in *
         | Hp : PushImages _ = false |- _ => rewrite Hp in *
         end.
  all: eexists _, _, _, _; split; [eapply adds_eq; [solve_adds|reflexivity..]|].
  all: split; [congruence|done].
Qed.






(** *** [Initialize] leaves the images the registry already has *)

Section Available.
Variable tag : string.
Hypothesis available : forall b, ImageAvailable E b tag = true.

(** Goals [tag ∉ l] for a list made of [++], [::] and [[]]. *)
Ltac absent :=
  rewrite ?not_elem_of_app, ?not_elem_of_cons;
  repeat split; auto using not_elem_of_nil.

Lemma left_alone_refl imagePush w : left_alone E tag imagePush w w.
Proof.
  exists [], [], []. split; [by apply adds_nothing|].
  split; [absent|]. split; [intros; absent|done].
Qed.

Lemma left_alone_trans imagePush w w1 w2 :
  left_alone E tag imagePush w w1 ->
  left_alone E tag imagePush w1 w2 ->
  left_alone E tag imagePush w w2.
Proof.
  intros (b1 & p1 & a1 & Ha1 & Hp1 & Hb1 & He1) (b2 & p2 & a2 & Ha2 & Hp2 & Hb2 & He2).
  exists (b1 ++ b2), (p1 ++ p2), (a1 ++ a2). split; [by eapply adds_app|].
  split; [absent|]. split; [intros; absent|].
  intros Hno. by rewrite He1, He2.
Qed.

Lemma pushImage_not_forced image w res w' :
  pushImage E image false w = (res, w') ->
  exists p, adds E w w' [] p [] /\ (tag ∉ p) /\ (image = tag -> res = Ok tt /\ p = []).
Proof.
  unfold pushImage, backend_ImageAvailable, backend_Push. intros Hrun. exec.
  - exists []. split; [eapply adds_eq; [solve_adds|done..]|]. split; [absent|done].
  - exists [image]. split; [eapply adds_eq; [solve_adds|done..]|].
    match goal with Hb : _ && negb false = false |- _ => rewrite andb_true_r in Hb end.
    split; [|intros ->; by rewrite available in *].
    intros ->%list_elem_of_singleton. by rewrite available in *.
Qed.

Lemma generatePackageImages_visit_spec imagePrefix db imagePush art path w res w' :
  generatePackageImages_visit E imagePrefix db imagePush false art path w = (res, w') ->
  left_alone E tag imagePush w w'.
Proof.
  unfold generatePackageImages_visit, Artifact_GenerateFinalImage, backend_ImageAvailable.
  intros Hrun. destruct imagePush; exec.
  all: repeat match goal with
         | Hr : pushImage _ _ _ _ = _ |- _ =>
             apply pushImage_not_forced in Hr as (? & Hr & ? & _)
         end.
  all: cbn [andb negb] in *; rewrite ?andb_true_r in *.
  all: repeat match goal with
         | Hb : ImageAvailable E _ ?img = false |- _ =>
             assert (img <> tag) by (intros Heq; by rewrite Heq, available in Hb);
             clear Hb
         end.
  all: eexists _, _, _; (split; [solve_adds|]); simpl.
  all: repeat split; try done; intros; absent.
Qed.

Lemma walk_left_alone imagePrefix db imagePush paths art w res w' :
  walk E (generatePackageImages_visit E imagePrefix db imagePush false) art paths w
  = (res, w') ->
  left_alone E tag imagePush w w'.
Proof.
  revert art w. induction paths as [|p paths IH]; intros art w; simpl.
  - intros [= <- <-]. apply left_alone_refl.
  - unfold bind.
    destruct (generatePackageImages_visit _ _ _ _ _ _ _ _) as [[[art'|e]|v] w1] eqn:Hvisit;
      apply generatePackageImages_visit_spec in Hvisit.
    + intros Hrest%IH. by eapply left_alone_trans.
    + by intros [= <- <-].
    + by intros [= <- <-].
Qed.

Lemma Initialize_left_alone l path db w res w' :
  g_force l = false ->
  Initialize E l path db w = (res, w') ->
  left_alone E tag (g_imagePush l) w w'.
Proof.
  unfold Initialize, generatePackageImages. intros -> Hrun. exec.
  all: match goal with
       | Hr : walk _ _ _ _ _ = _ |- _ => apply walk_left_alone in Hr
       end.
  all: eapply left_alone_trans; [|done].
  all: eexists _, _, _; (split; [solve_adds|]); simpl.
  all: repeat split; try done; intros; absent.
Qed.


(** C7, amended. For a tag whose image the backend reports as
    available, without force: [pushImage] does not push it;
    [Initialize] never pushes it and, when images are pushed, does not
    build it either (when they are not, it pushes nothing). [Generate]
    builds the images of its four bundles and, when [PushImages] is
    set, pushes every one of them, available or not. *)
Theorem registry_generator_available_image :
  (forall w res w',
     pushImage E tag false w = (res, w') ->
     res = Ok tt /\ pushes (new_events E w w') = [])
  /\ (forall l path db w res w',
        g_force l = false ->
        Initialize E l path db w = (res, w') ->
        left_alone E tag (g_imagePush l) w w')
  /\ (forall d r imagePrefix resetRevision w r' w',
        Generate E d r imagePrefix resetRevision w = (Ok r', w') ->
        length (builds (new_events E w w')) = 4%nat
        /\ (g_imagePrefix d ++ ":" ++ REPOSITORY_SPECFILE)%string ∈ builds (new_events E w w')
        /\ pushes (new_events E w w')
           = if PushImages r then builds (new_events E w w') else []).
Proof.
  split; [|split].
  - intros w res w' Hrun.
    destruct (pushImage_not_forced _ _ _ _ Hrun) as (p & Hadds & _ & Hskip).
    destruct (Hskip eq_refl) as [-> ->].
    by apply adds_new_events in Hadds as (_ & -> & _).
  - intros. by eapply Initialize_left_alone.
  - intros d r imagePrefix resetRevision w r' w' Hrun.
    destruct (Generate_spec _ _ _ _ _ _ _ Hrun)
      as (r0 & tree & compilertree & meta & Hadds & _).
    apply adds_new_events in Hadds as (-> & -> & _).
    split; [done|]. split; [|done]. do 3 right. left.
Qed.

End Available.

(** * Further properties of the code *)

(** ** The metadata file *)

Lemma ToArtifactIndex_id (m : @LuetSystemRepositoryMetadata Package) :
  ToArtifactIndex m = mIndex m.
Proof.
  unfold ToArtifactIndex.
  assert (Hg : forall (l acc : list (@PackageArtifact Package)),
             foldl (fun ans a => ans ++ [a]) acc l = acc ++ l).
  { induction l as [|a l IH]; intros acc; simpl; [by rewrite app_nil_r|].
    by rewrite IH, <- app_assoc. }
  apply (Hg _ []).
Qed.

(** X2. The edges of [ReadFile]: an empty path is refused before the
    disk is read; a missing file is an error and leaves the disk as it
    was; a file that could be read is removed when [removeFile] is set,
    also when it does not decode; and a document without the index key
    leaves the receiver as it was. *)
Theorem Metadata_ReadFile_edges (m : @LuetSystemRepositoryMetadata Package) removeFile w :
  Metadata_ReadFile E m "" removeFile w = (Err "Invalid path for repository metadata", w)
  /\ (forall file, file <> "" -> fs E w !! file = None ->
        exists e, Metadata_ReadFile E m file removeFile w = (Err e, w))
  /\ (forall file dat, file <> "" -> fs E w !! file = Some dat ->
        exists w',
          Metadata_ReadFile E m file removeFile w = (yaml_Unmarshal_meta_into m dat, w')
          /\ fs E w' = (if removeFile then delete file (fs E w) else fs E w)
          /\ trace E w' = trace E w)
  /\ (forall file, file <> "" -> fs E w !! file = Some (MetaYaml None) ->
        (Metadata_ReadFile E m file removeFile w).1 = Ok m).
Proof.
  unfold Metadata_ReadFile, ioutil_ReadFile. unfold_M.
  split; [done|]. split; [|split].
  - intros file Hne Hfile. rewrite decide_False, Hfile by done. by eexists.
  - intros file dat Hne Hfile. rewrite decide_False, Hfile by done.
    destruct removeFile; st_simpl; eexists; (split; [done|]); by destruct w.
  - intros file Hne Hfile. rewrite decide_False, Hfile by done.
    destruct removeFile, m; by st_simpl.
Qed.

(** ** Searching *)

Lemma foldl_app_bind {A B} (g : A -> list B) (l : list A) (acc : list B) :
  foldl (fun acc x => acc ++ g x) acc l = acc ++ (l ≫= g).
Proof.
  revert acc. induction l as [|x l IH]; intros acc; simpl; [by rewrite app_nil_r|].
  by rewrite IH, <- app_assoc.
Qed.

Lemma FileSearch_filter r pattern reg :
  regexp_Compile E pattern = Ok reg ->
  FileSearch E r pattern
  = Ok (CompileSpecPackage <$> List.filter (fun a => existsb reg (Files a)) (GetIndex r)).
Proof.
  intros Hreg. unfold FileSearch. rewrite Hreg. f_equal.
  assert (Hg : forall (l : list PackageArtifact) (acc : list Package),
             foldl (fun matches a =>
                      if existsb reg (Files a) then matches ++ [CompileSpecPackage a]
                      else matches) acc l
             = acc ++ (CompileSpecPackage <$> List.filter (fun a => existsb reg (Files a)) l)).
  { induction l as [|a l IH]; intros acc; simpl; [by rewrite app_nil_r|].
    rewrite IH. destruct (existsb reg (Files a)); simpl; [|done]. by rewrite <- app_assoc. }
  apply (Hg _ []).
Qed.

(** X6. [FileSearch] returns the error of a pattern that does not
    compile; otherwise the packages of the artifacts of the index that
    own a file matching the pattern, each artifact once, in the order of
    the index. *)
Theorem FileSearch_spec r pattern :
  (forall e, regexp_Compile E pattern = Err e -> FileSearch E r pattern = Err e)
  /\ (forall reg, regexp_Compile E pattern = Ok reg ->
        exists l, FileSearch E r pattern = Ok (CompileSpecPackage <$> l)
          /\ sublist l (GetIndex r)
          /\ forall a, a ∈ l <-> a ∈ GetIndex r /\ exists f, f ∈ Files a /\ reg f = true).
Proof.
  split.
  - intros e He. unfold FileSearch. by rewrite He.
  - intros reg Hreg. eexists. split; [by apply FileSearch_filter|]. split.
    + induction (GetIndex r) as [|a l IH]; simpl; [done|].
      destruct (existsb reg (Files a)); by constructor.
    + intros a. rewrite list_elem_of_In, filter_In, existsb_exists, <- list_elem_of_In.
      by setoid_rewrite <- list_elem_of_In.
Qed.

Lemma SearchArtefact_first r (p : Package) :
  match SearchArtefact r p with
  | Ok a => exists l1 l2, GetIndex r = l1 ++ a :: l2
                          /\ Matches (CompileSpecPackage a) p = true
                          /\ forall b, b ∈ l1 -> Matches (CompileSpecPackage b) p = false
  | Err e => e = "Not found"
             /\ forall b, b ∈ GetIndex r -> Matches (CompileSpecPackage b) p = false
  end.
Proof.
  unfold SearchArtefact. induction (GetIndex r) as [|a l IH]; simpl.
  - split; [done|]. by intros b ?%elem_of_nil.
  - destruct (Matches (CompileSpecPackage a) p) eqn:Ha.
    + exists [], l. split; [done|]. split; [done|]. by intros b ?%elem_of_nil.
    + destruct (find _ l) as [a'|].
      * destruct IH as (l1 & l2 & -> & Hm & Hfirst). exists (a :: l1), l2.
        split; [done|]. split; [done|]. intros b [->|Hb]%elem_of_cons; auto.
      * destruct IH as [_ Hnone]. split; [done|]. intros b [->|Hb]%elem_of_cons; auto.
Qed.

(** ** More on the aggregator *)

Lemma map_fmap {A B} (f : A -> B) (l : list A) : map f l = f <$> l.
Proof. induction l as [|x l IH]; [done|]. cbn. by rewrite IH. Qed.

Lemma sort_Sort_strongly_sorted re : StronglySorted by_priority (sort_Sort re).
Proof.
  destruct (sort_Sort_sorted re) as [_ Hs].
  apply Sorted_StronglySorted in Hs; [done|]. intros a b c; unfold by_priority; lia.
Qed.

Lemma elem_of_sort_Sort_1 re r : r ∈ sort_Sort re -> r ∈ re.
Proof. destruct (sort_Sort_sorted re) as [Hp _]. by rewrite Hp. Qed.
Lemma elem_of_sort_Sort_2 re r : r ∈ re -> r ∈ sort_Sort re.
Proof. destruct (sort_Sort_sorted re) as [Hp _]. by rewrite Hp. Qed.

(** The matches of one repository, as the body of the loop of
    [SearchPackages] appends them. *)
Local Abbreviation matches_in p t :=
  (fun r : @LuetSystemRepository Package =>
     match search_repository E r p t with
     | Some repoMatches =>
         map (fun pack => {| pmRepo := r; pmArtifact := artefact_or_nil r pack;
                             pmPackage := pack |}) repoMatches
     | None => []
     end).

Lemma SearchPackages_bind re p t :
  (SearchPackages E re p t).1 = sort_Sort re ≫= matches_in p t.
Proof.
  unfold SearchPackages. cbn [fst].
  assert (Hg : forall l acc,
             foldl (fun matches r =>
                      match search_repository E r p t with
                      | Some repoMatches =>
                          matches ++
                          map (fun pack => {| pmRepo := r;
                                              pmArtifact := artefact_or_nil r pack;
                                              pmPackage := pack |}) repoMatches
                      | None => matches
                      end) acc l
             = acc ++ (l ≫= matches_in p t)).
  { induction l as [|r l IH]; intros acc; simpl; [by rewrite app_nil_r|].
    rewrite IH, app_assoc. f_equal.
    destruct (search_repository E r p t); [done|by rewrite app_nil_r]. }
  apply (Hg _ []).
Qed.

Lemma bind_sorted_by_priority {A} (f : A -> @LuetSystemRepository Package)
    (g : @LuetSystemRepository Package -> list A) l :
  (forall r m, m ∈ g r -> f m = r) ->
  StronglySorted by_priority l ->
  StronglySorted by_priority (f <$> (l ≫= g)).
Proof.
  intros Hf. induction 1 as [|r l Hs IH Hall]; simpl; [constructor|].
  rewrite fmap_app. apply StronglySorted_app_2; [| |done].
  - intros x y (m & -> & Hm)%list_elem_of_fmap (m' & -> & Hm')%list_elem_of_fmap.
    rewrite (Hf _ _ Hm). apply list_elem_of_bind in Hm' as (r' & Hm' & Hr').
    rewrite (Hf _ _ Hm'). rewrite Forall_forall in Hall. by apply Hall.
  - assert (Hrep : f <$> g r = replicate (length (g r)) r).
    { assert (Hin : forall m, m ∈ g r -> f m = r) by (intros; by eapply Hf).
      induction (g r) as [|m ms IHm]; [done|]. simpl.
      rewrite (Hin m) by (by left). f_equal. apply IHm. intros. apply Hin. by right. }
    rewrite Hrep. clear Hrep. generalize (length (g r)).
    induction n as [|n IHn]; simpl; constructor; [done|].
    apply Forall_forall. intros x ->%elem_of_replicate_inv. unfold by_priority. lia.
Qed.

(** X20. [SearchPackages] lists, repository by repository in the
    ascending order of priority it leaves the collection in, the
    packages the query of the mode found there, each once and in the
    order of the query; a repository whose query fails adds nothing.
    Every match carries the first artifact of the index of its
    repository that matches its package, and no artifact when none
    does. *)
Theorem SearchPackages_by_priority re p t :
  let out := (SearchPackages E re p t).1 in
  let sorted := (SearchPackages E re p t).2 in
  Sorted by_priority (pmRepo <$> out)
  /\ (fun m => (pmRepo m, pmPackage m)) <$> out
     = sorted ≫= (fun r => (fun pack => (r, pack)) <$> default [] (search_repository E r p t))
  /\ (forall m, m ∈ out ->
        pmRepo m ∈ re
        /\ (exists l, search_repository E (pmRepo m) p t = Some l /\ pmPackage m ∈ l)
        /\ match pmArtifact m with
           | Some a =>
               exists l1 l2,
                 GetIndex (pmRepo m) = l1 ++ a :: l2
                 /\ Matches (CompileSpecPackage a) (pmPackage m) = true
                 /\ forall b, b ∈ l1 -> Matches (CompileSpecPackage b) (pmPackage m) = false
           | None => forall a, a ∈ GetIndex (pmRepo m) ->
                       Matches (CompileSpecPackage a) (pmPackage m) = false
           end)
  /\ (forall r l pack, r ∈ re -> search_repository E r p t = Some l -> pack ∈ l ->
        exists m, m ∈ out /\ pmRepo m = r /\ pmPackage m = pack).
Proof.
  intros out sorted. unfold out, sorted. rewrite SearchPackages_bind.
  split; [|split; [|split]].
  - apply StronglySorted_Sorted, bind_sorted_by_priority; [|apply sort_Sort_strongly_sorted].
    intros r m. destruct (search_repository E r p t); [|by intros ?%elem_of_nil].
    rewrite map_fmap. by intros (pack & -> & _)%list_elem_of_fmap.
  - unfold SearchPackages. cbn [snd].
    induction (sort_Sort re) as [|r rs IH]; [done|].
    rewrite !bind_cons, fmap_app, IH. f_equal.
    destruct (search_repository E r p t) as [l|]; [|done]. cbn [default from_option id].
    induction l as [|pack l IHl]; [done|]. cbn. by rewrite <- IHl.
  - intros m (r & Hm & Hr%elem_of_sort_Sort_1)%list_elem_of_bind.
    destruct (search_repository E r p t) as [l|] eqn:Hsearch; [|by apply elem_of_nil in Hm].
    rewrite map_fmap in Hm. apply list_elem_of_fmap in Hm as (pack & -> & Hpack).
    simpl. split; [done|]. split; [by exists l|].
    unfold artefact_or_nil. pose proof (SearchArtefact_first r pack) as Hfirst.
    destruct (SearchArtefact r pack) as [a|e]; [done|by destruct Hfirst].
  - intros r l pack Hr Hsearch Hpack. eexists. split.
    + apply list_elem_of_bind. exists r. split; [|by apply elem_of_sort_Sort_2].
      rewrite Hsearch, map_fmap. apply list_elem_of_fmap. by eexists.
    + done.
Qed.

(** *** PackageMatches *)

Lemma PackageMatches_bind re (p : list Package) :
  (PackageMatches re p).1 = p ≫= (fun pack => first_match pack (sort_Sort re)).
Proof.
  unfold PackageMatches. cbn [fst]. by rewrite foldl_app_bind.
Qed.

Lemma first_match_spec (pack : Package) re :
  (first_match pack re = [] /\ forall r, r ∈ re -> FindPackage (database r) pack = None)
  \/ exists re1 r re2 c,
       re = re1 ++ r :: re2
       /\ first_match pack re = [{| pmRepo := r; pmArtifact := None; pmPackage := c |}]
       /\ FindPackage (database r) pack = Some c
       /\ forall r', r' ∈ re1 -> FindPackage (database r') pack = None.
Proof.
  induction re as [|r re IH]; simpl.
  - left. split; [done|]. by intros r ?%elem_of_nil.
  - destruct (FindPackage (database r) pack) as [c|] eqn:Hfind.
    + right. exists [], r, re, c. repeat split; try done. by intros r' ?%elem_of_nil.
    + destruct IH as [[-> Hnone]|(re1 & r0 & re2 & c & -> & -> & Hc & Hfirst)].
      * left. split; [done|]. intros r' [->|Hr']%elem_of_cons; auto.
      * right. exists (r :: re1), r0, re2, c. repeat split; try done.
        intros r' [->|Hr']%elem_of_cons; auto.
Qed.

(** X18. [PackageMatches] goes through the requested packages in
    order and returns at most one match for each, none with an
    artifact: the package found by a repository of the collection that
    no repository having the requested package precedes in priority. A
    requested package that no repository has is left out. *)
Theorem PackageMatches_first_by_priority re (p : list Package) :
  exists f : Package -> option PackageMatch,
    (PackageMatches re p).1 = omap f p
    /\ forall pack,
         match f pack with
         | Some m =>
             pmArtifact m = None /\ pmRepo m ∈ re
             /\ FindPackage (database (pmRepo m)) pack = Some (pmPackage m)
             /\ forall r', r' ∈ re -> is_Some (FindPackage (database r') pack) ->
                  GetPriority (pmRepo m) <= GetPriority r'
         | None => forall r, r ∈ re -> FindPackage (database r) pack = None
         end.
Proof.
  exists (fun pack => head (first_match pack (sort_Sort re))). split.
  - rewrite PackageMatches_bind. induction p as [|pack p IH]; [done|].
    rewrite bind_cons, IH. cbn [omap list_omap].
    by destruct (first_match_spec pack (sort_Sort re))
      as [[-> _]|(? & ? & ? & ? & _ & -> & _)].
  - intros pack. pose proof (sort_Sort_strongly_sorted re) as Hs.
    destruct (first_match_spec pack (sort_Sort re))
      as [[-> Hnone]|(re1 & r & re2 & c & Hre & -> & Hc & Hfirst)]; cbn [head].
    { intros r Hr. by apply Hnone, elem_of_sort_Sort_2. }
    cbn [pmArtifact pmRepo pmPackage]. split; [done|]. split.
    { apply elem_of_sort_Sort_1. rewrite Hre. apply elem_of_app. right. by left. }
    split; [done|].
    intros r' Hr'%elem_of_sort_Sort_2 Hsome. rewrite Hre in Hr', Hs.
    apply elem_of_app in Hr' as [Hr'|Hr'].
    { rewrite (Hfirst r' Hr') in Hsome. by destruct Hsome. }
    apply elem_of_cons in Hr' as [->|Hr']; [done|].
    apply StronglySorted_app in Hs as (_ & _ & Hs).
    apply StronglySorted_cons in Hs as [Hall _]. rewrite Forall_forall in Hall. by apply Hall.
Qed.

(** *** ResolveSelectors on selectors *)

Lemma head_omap_first {A B} (f : A -> option B) (l : list A) c :
  head (omap f l) = Some c ->
  exists l1 x l2, l = l1 ++ x :: l2 /\ f x = Some c /\ forall y, y ∈ l1 -> f y = None.
Proof.
  induction l as [|x l IH]; simpl; [done|].
  destruct (f x) as [b|] eqn:Hx; simpl.
  - intros [= ->]. exists [], x, l. repeat split; try done. by intros y ?%elem_of_nil.
  - intros (l1 & x0 & l2 & -> & Hx0 & Hfirst)%IH. exists (x :: l1), x0, l2.
    repeat split; try done. intros y [->|Hy]%elem_of_cons; auto.
Qed.

Lemma ResolveSelectors_bind re (p : list Package) :
  (ResolveSelectors re p).1
  = p ≫= (fun pack =>
            if IsSelector pack
            then option_list (head (omap (fun r => FindPackageCandidate (database r) pack)
                                         (sort_Sort re)))
            else replicate (length re) pack).
Proof.
  unfold ResolveSelectors. cbn [fst].
  assert (Hg : forall (l : list Package) acc,
             foldl (fun matches pack => resolve_in pack (sort_Sort re) matches) acc l
             = acc ++ (l ≫= (fun pack =>
                 if IsSelector pack
                 then option_list (head (omap (fun r => FindPackageCandidate (database r) pack)
                                              (sort_Sort re)))
                 else replicate (length re) pack))).
  { induction l as [|pack l IH]; intros acc; simpl; [by rewrite app_nil_r|].
    rewrite IH, app_assoc. f_equal.
    destruct (IsSelector pack) eqn:Hsel.
    - by apply resolve_in_selector.
    - rewrite resolve_in_not_selector by done. by rewrite sort_Sort_length. }
  apply (Hg _ []).
Qed.

(** X19. For a request made of selectors, [ResolveSelectors] goes
    through the selectors in order and returns at most one package for
    each: the candidate of a repository that no repository having a
    candidate for the selector precedes in priority. A selector for
    which no repository has a candidate is left out. *)
Theorem ResolveSelectors_candidates re (p : list Package) :
  (forall pack, pack ∈ p -> IsSelector pack = true) ->
  exists f : Package -> option Package,
    (ResolveSelectors re p).1 = omap f p
    /\ forall pack,
         match f pack with
         | Some c =>
             exists r, r ∈ re /\ FindPackageCandidate (database r) pack = Some c
               /\ forall r', r' ∈ re ->
                    is_Some (FindPackageCandidate (database r') pack) ->
                    GetPriority r <= GetPriority r'
         | None => forall r, r ∈ re -> FindPackageCandidate (database r) pack = None
         end.
Proof.
  intros Hsel.
  exists (fun pack => head (omap (fun r => FindPackageCandidate (database r) pack)
                                 (sort_Sort re))).
  split.
  - rewrite ResolveSelectors_bind. induction p as [|pack p IH]; [done|].
    rewrite bind_cons, IH by (intros q Hq; apply Hsel; by right).
    rewrite (Hsel pack) by (by left). cbn [omap list_omap].
    by destruct (head _).
  - intros pack.
    destruct (head _) as [c|] eqn:Hhead.
    + apply head_omap_first in Hhead as (re1 & r & re2 & Hre & Hr & Hfirst).
      pose proof (sort_Sort_strongly_sorted re) as Hs.
      exists r. split.
      { apply elem_of_sort_Sort_1. rewrite Hre. apply elem_of_app. right. by left. }
      split; [done|].
      intros r' Hr'%elem_of_sort_Sort_2 Hsome. rewrite Hre in Hr', Hs.
      apply elem_of_app in Hr' as [Hr'|Hr'].
      { rewrite (Hfirst r' Hr') in Hsome. by destruct Hsome. }
      apply elem_of_cons in Hr' as [->|Hr']; [done|].
      apply StronglySorted_app in Hs as (_ & _ & Hs).
      apply StronglySorted_cons in Hs as [Hall _]. rewrite Forall_forall in Hall.
      by apply Hall.
    + apply head_None in Hhead. intros r Hr%elem_of_sort_Sort_2.
      destruct (FindPackageCandidate (database r) pack) as [c|] eqn:Hc; [|done].
      assert (Hin : c ∈ omap (fun r => FindPackageCandidate (database r) pack)
                              (sort_Sort re)).
      { apply list_elem_of_omap. by exists r. }
      rewrite Hhead in Hin. by apply elem_of_nil in Hin.
Qed.

(** *** [SyncDatabase] creates the last definition in collection order *)

Local Abbreviation create_package :=
  (fun (st : gset string * list Package) p =>
     if bool_decide (GetFingerPrint p ∈ st.1) then st
     else ({[GetFingerPrint p]} ∪ st.1, st.2 ++ [p])).
Local Abbreviation sync_state re :=
  (foldr (fun repo st => foldl create_package st (db_World (database repo)))
         ((∅, []) : gset string * list Package) re).

Lemma create_packages_spec (l : list Package) (st : gset string * list Package) :
  (forall fp, fp ∈ st.1 <-> fp ∈ GetFingerPrint <$> st.2) ->
  NoDup (GetFingerPrint <$> st.2) ->
  let st' := foldl create_package st l in
  (forall fp, fp ∈ st'.1 <-> fp ∈ GetFingerPrint <$> st'.2)
  /\ NoDup (GetFingerPrint <$> st'.2)
  /\ (exists new, st'.2 = st.2 ++ new
                  /\ forall p, p ∈ new -> p ∈ l /\ GetFingerPrint p ∉ st.1)
  /\ (forall q, q ∈ l -> GetFingerPrint q ∈ st'.1)
  /\ (forall fp, fp ∈ st.1 -> fp ∈ st'.1).
Proof.
  revert st. induction l as [|x l IH]; intros st Hseen Hnodup; simpl.
  - split; [done|]. split; [done|]. split.
    { exists []. split; [by rewrite app_nil_r|]. by intros p ?%elem_of_nil. }
    split; [by intros q ?%elem_of_nil|done].
  - case_bool_decide as Hx.
    + destruct (IH st Hseen Hnodup) as (Ha & Hb & (new & Hnew & Hfresh) & Hcov & Hmono).
      split; [done|]. split; [done|]. split.
      { exists new. split; [done|]. intros p Hp. destruct (Hfresh p Hp). split; [by right|done]. }
      split; [|done]. intros q [->|Hq]%elem_of_cons; auto.
    + destruct (IH ({[GetFingerPrint x]} ∪ st.1, st.2 ++ [x]))
        as (Ha & Hb & (new & Hnew & Hfresh) & Hcov & Hmono); simpl.
      { intros fp. rewrite fmap_app, elem_of_app, elem_of_union, elem_of_singleton, Hseen.
        simpl. rewrite list_elem_of_singleton. tauto. }
      { rewrite fmap_app. apply NoDup_app. split; [done|]. split; [|apply NoDup_singleton].
        intros fp Hfp ->%list_elem_of_singleton. by apply Hx, Hseen. }
      simpl in *. split; [done|]. split; [done|]. split.
      { exists (x :: new). split; [by rewrite Hnew, <- app_assoc|].
        intros p [->|Hp]%elem_of_cons; [split; [by left|done]|].
        destruct (Hfresh p Hp) as [Hin Hnot]. split; [by right|].
        intros Hold. apply Hnot, elem_of_union. by right. }
      split.
      * intros q [->|Hq]%elem_of_cons; [|by apply Hcov].
        apply Hmono, elem_of_union. left. by apply elem_of_singleton.
      * intros fp Hfp. apply Hmono, elem_of_union. by right.
Qed.

Lemma sync_state_spec re :
  let st := sync_state re in
  (forall fp, fp ∈ st.1 <-> fp ∈ GetFingerPrint <$> st.2)
  /\ NoDup (GetFingerPrint <$> st.2)
  /\ (forall p, p ∈ st.2 ->
        exists re1 r re2, re = re1 ++ r :: re2 /\ p ∈ db_World (database r)
                          /\ forall r', r' ∈ re2 -> ~ defines r' (GetFingerPrint p))
  /\ (forall r q, r ∈ re -> q ∈ db_World (database r) -> GetFingerPrint q ∈ st.1).
Proof.
  induction re as [|r re IH]; simpl.
  - split; [intros fp; split; [by intros ?%elem_of_empty|by intros ?%elem_of_nil]|].
    split; [constructor|].
    split; [by intros p ?%elem_of_nil|by intros r q ?%elem_of_nil].
  - destruct IH as (Hseen & Hnodup & Horigin & Hcover).
    destruct (create_packages_spec (db_World (database r)) (sync_state re) Hseen Hnodup)
      as (Ha & Hb & (new & Hnew & Hfresh) & Hcov & Hmono).
    split; [done|]. split; [done|]. split.
    + intros p. rewrite Hnew. intros [Hp|Hp]%elem_of_app.
      * destruct (Horigin p Hp) as (re1 & r0 & re2 & -> & Hin & Hlast).
        by exists (r :: re1), r0, re2.
      * destruct (Hfresh p Hp) as [Hin Hnot]. exists [], r, re.
        split; [done|]. split; [done|].
        intros r' Hr' (q & Hq & Hfp). apply Hnot. rewrite <- Hfp. by eapply Hcover.
    + intros r' q [->|Hr']%elem_of_cons Hq; [by apply Hcov|]. apply Hmono. by eapply Hcover.
Qed.

(** X17. [SyncDatabase] creates exactly one package for every
    fingerprint defined in the collection, the same fingerprints
    [World] returns; the package created is a definition from the last
    repository, in the order of the collection, that defines the
    fingerprint. *)
Theorem SyncDatabase_last_definition re :
  NoDup (GetFingerPrint <$> SyncDatabase re)
  /\ (forall p, p ∈ SyncDatabase re ->
        exists re1 r re2, re = re1 ++ r :: re2 /\ p ∈ db_World (database r)
                          /\ forall r', r' ∈ re2 -> ~ defines r' (GetFingerPrint p))
  /\ (forall r q, r ∈ re -> q ∈ db_World (database r) ->
        exists p, p ∈ SyncDatabase re /\ GetFingerPrint p = GetFingerPrint q)
  /\ (forall fp, fp ∈ GetFingerPrint <$> SyncDatabase re
                 <-> fp ∈ GetFingerPrint <$> World re).
Proof.
  destruct (sync_state_spec re) as (Hseen & Hnodup & Horigin & Hcover).
  assert (Hcovers : forall r q, r ∈ re -> q ∈ db_World (database r) ->
            exists p, p ∈ SyncDatabase re /\ GetFingerPrint p = GetFingerPrint q).
  { intros r q Hr Hq. pose proof (Hcover r q Hr Hq) as Hfp.
    apply Hseen, list_elem_of_fmap in Hfp as (p & Hfp & Hp). by exists p. }
  split; [done|]. split; [done|]. split; [done|].
  intros fp. split.
  - intros (p & -> & Hp)%list_elem_of_fmap.
    destruct (Horigin p Hp) as (re1 & r & re2 & -> & Hin & _).
    destruct (World_covers (re1 ++ r :: re2) r p) as (p' & Hp' & <-);
      [apply elem_of_app; right; by left|done|].
    apply list_elem_of_fmap. by exists p'.
  - intros (p & -> & Hp%elem_of_World)%list_elem_of_fmap.
    destruct (World_cache_first _ _ _ Hp) as (_ & re1 & r & re2 & -> & Hin & _).
    destruct (Hcovers r p) as (p' & Hp' & <-);
      [apply elem_of_app; right; by left|done|].
    apply list_elem_of_fmap. by exists p'.
Qed.

(** ** Publishing: the manifest *)

Lemma lookup_RemoveAll_fs_under p q σ :
  under p q = true -> RemoveAll_fs p σ !! q = None.
Proof.
  intros Hq. unfold RemoveAll_fs. apply map_lookup_filter_None. right.
  intros d _. simpl. by rewrite Hq.
Qed.

Lemma lookup_RemoveAll_fs_None p q σ :
  σ !! q = None -> RemoveAll_fs p σ !! q = None.
Proof. intros Hq. unfold RemoveAll_fs. apply map_lookup_filter_None. by left. Qed.

(** X8. A successful [AddRepositoryFile] records under the key the
    base name of the archive it created and the checksums of that
    archive as it is on disk, and keeps the compression of the entry
    that was there (of the default entry when there was none); the other
    keys, the settings and the index of the repository, and every file
    but the archive, are as they were. *)
Theorem AddRepositoryFile_manifest r src key root defaults w r' a w' :
  AddRepositoryFile E r src key root defaults w = (Ok (r', a), w') ->
  let entry := default defaults (RepositoryFiles r !! key) in
  RepositoryFiles r'
  = <[key := {| FileName := path_Base (aPath a);
                CompressionType := CompressionType entry;
                Checksums := aChecksums a |}]> (RepositoryFiles r)
  /\ aCompressionType a = CompressionType entry
  /\ ArtifactHash E (fs E w' !! aPath a) = Ok (aChecksums a)
  /\ is_Some (fs E w' !! aPath a)
  /\ (forall q, q <> aPath a -> fs E w' !! q = fs E w !! q)
  /\ Config r' = Config r /\ Index r' = Index r.
Proof.
  unfold AddRepositoryFile, Artifact_Compress, Artifact_Hash, GetRepositoryFile.
  intros Hrun. exec.
  all: cbn [default RepositoryFiles SetRepositoryFile aPath aChecksums aCompressionType
            SetChecksums SetFileName NewPackageArtifact GetCompressionType
            FileName CompressionType Checksums Config Index].
  all: rewrite ?insert_insert_eq.
  all: repeat split; try done.
  all: try (by rewrite lookup_insert_eq).
  all: try (intros q Hq; by rewrite lookup_insert_ne by congruence).
Qed.

Lemma BumpRevision_absent r repospec w :
  fs E w !! repospec = None ->
  BumpRevision E r repospec false w = (Ok (IncrementRevision r), w).
Proof.
  intros Hnone. unfold BumpRevision, os_exists. unfold_M.
  rewrite bool_decide_eq_false_2; [done|]. rewrite Hnone. by intros [? ?].
Qed.

Lemma BumpRevision_present r repospec w :
  is_Some (fs E w !! repospec) ->
  BumpRevision E r repospec false w
  = (match ReadSpecFile E (fs E w) repospec with
     | Returns (Ok spec) =>
         Returns (Ok (IncrementRevision (SetRevision r (GetRevision spec))))
     | Returns (Err e) => Returns (Err e)
     | Panics v => Panics v
     end, w).
Proof.
  intros Hsome. unfold BumpRevision, os_exists. unfold_M.
  rewrite bool_decide_eq_true_2 by done. st_simpl.
  by destruct (ReadSpecFile _ _ _) as [[spec|e]|v].
Qed.

Lemma ReadSpecFile_Ok_exists σ file repo :
  ReadSpecFile E σ file = Ok repo -> is_Some (σ !! file).
Proof.
  unfold ReadSpecFile, ioutil_ReadFile. destruct (σ !! file); [by eexists|done].
Qed.

(** X7. [BumpRevision] without reset: with nothing at [repospec] the
    revision of the repository is incremented; with a spec document
    there that [ReadSpecFile] accepts, the revision becomes the one of
    the document plus one; with a file there that it refuses, its error
    is returned. The increment is that of a 64-bit integer and changes
    neither the manifest nor the timestamp. *)
Theorem BumpRevision_cases r repospec w :
  ((forall q, under repospec q = true -> fs E w !! q = None) ->
     BumpRevision E r repospec false w = (Ok (IncrementRevision r), w))
  /\ (forall spec, ReadSpecFile E (fs E w) repospec = Ok spec ->
        BumpRevision E r repospec false w
        = (Ok (IncrementRevision (SetRevision r (GetRevision spec))), w)
        /\ GetRevision (IncrementRevision (SetRevision r (GetRevision spec)))
           = wrap_int (GetRevision spec + 1))
  /\ (forall e, is_Some (fs E w !! repospec) ->
        ReadSpecFile E (fs E w) repospec = Err e ->
        BumpRevision E r repospec false w = (Err e, w))
  /\ (forall r0 : @LuetSystemRepository Package,
        (- 2 ^ 63 <= GetRevision r0 < 2 ^ 63 - 1 ->
         GetRevision (IncrementRevision r0) = GetRevision r0 + 1)
        /\ (GetRevision r0 = 2 ^ 63 - 1 ->
            GetRevision (IncrementRevision r0) = - 2 ^ 63)
        /\ RepositoryFiles (IncrementRevision r0) = RepositoryFiles r0
        /\ GetLastUpdate (IncrementRevision r0) = GetLastUpdate r0).
Proof.
  split; [|split; [|split]].
  - intros Hnone. apply BumpRevision_absent, Hnone, under_refl.
  - intros spec Hspec.
    rewrite BumpRevision_present by (by eapply ReadSpecFile_Ok_exists). by rewrite Hspec.
  - intros e Hex Herr. rewrite BumpRevision_present by done. by rewrite Herr.
  - intros r0. unfold IncrementRevision, GetRevision, SetRevision. simpl.
    split; [|split; [|done]]; intros Hrev; unfold wrap_int.
    + rewrite Z.mod_small by lia. lia.
    + rewrite Hrev. done.
Qed.

(** X9. The spec document [AddMetadata] writes for a repository that
    has a tree entry is accepted by [ReadSpecFile]: it parses to a
    descriptor with the manifest of the repository (the metadata entry
    included), its name, description, urls, priority, type, verify flag
    and timestamp, and its revision when that is positive (0
    otherwise). *)
Theorem AddMetadata_ReadSpecFile r repospec dst w r' a w' :
  (forall d, TempDirName E "metadata" (tmpseq E w) = Ok d -> under d repospec = false) ->
  is_Some (RepositoryFiles r !! REPOFILE_TREE_KEY) ->
  AddMetadata E r repospec dst w = (Ok (r', a), w') ->
  exists repo,
    ReadSpecFile E (fs E w') repospec = Ok repo
    /\ RepositoryFiles repo = RepositoryFiles r'
    /\ is_Some (RepositoryFiles r' !! REPOFILE_META_KEY)
    /\ GetName repo = GetName r /\ GetDescription repo = GetDescription r
    /\ GetUrls repo = GetUrls r /\ GetPriority repo = GetPriority r
    /\ GetType repo = GetType r /\ GetVerify repo = GetVerify r
    /\ GetLastUpdate repo = GetLastUpdate r
    /\ GetRevision repo = (if bool_decide (0 < GetRevision r) then GetRevision r else 0).
Proof.
  intros Htmp Htree. unfold AddMetadata, Serialize, Metadata_WriteFile, TempDir.
  intros Hrun. exec.
  all: match goal with
       | Hr : AddRepositoryFile _ _ _ _ _ _ _ = _ |- _ =>
           apply AddRepositoryFile_manifest in Hr as (Hfiles & _)
       end.
  all: cbn [RepositoryFiles SetIndex] in Hfiles.
  all: unfold ReadSpecFile, ioutil_ReadFile.
  all: rewrite lookup_RemoveAll_fs by eauto; rewrite lookup_insert_eq.
  all: unfold NewLuetSystemRepositoryFromYaml; rewrite yaml_Unmarshal_Marshal_spec.
  all: cbn [sName sType sDescription sUrls sPriority sVerify sRevision sLastUpdate
            sRepositoryFiles].
  all: unfold GetRepositoryFile.
  all: assert (Hmeta : is_Some (RepositoryFiles r' !! REPOFILE_META_KEY))
         by (rewrite Hfiles, lookup_insert_eq; by eexists).
  all: assert (Htree' : is_Some (RepositoryFiles r' !! REPOFILE_TREE_KEY))
         by (by rewrite Hfiles, lookup_insert_ne by done).
  all: destruct Hmeta as [mf Hmf], Htree' as [tf Htf].
  all: unfold GetRevision, GetLastUpdate, GetName, GetDescription, GetUrls, GetPriority,
         GetType, GetVerify in *.
  all: destruct r as [[n d us t pr en ca au tp mp ve rv lu] ix bt tr fl pi fp ip]; simpl in *.
  all: repeat case_bool_decide; try lia.
  all: eexists; split;
         [cbn [RepositoryFiles SetTree SetLastUpdate SetRevision SetVerify with_config];
          rewrite Htf, Hmf; reflexivity|].
  all: simpl; repeat split; try done; by eexists.
Qed.

(** ** Temporary directories *)

(** X10. The temporary directory that [AddTree], [AddMetadata],
    [pushRepoMetadata] and [Generate] create first is removed when they
    return, whatever the outcome: no file is left at or below it. *)
Theorem temporary_directories_removed w d q :
  under d q = true ->
  (forall r t dst key defaults res w',
     TempDirName E "archive" (tmpseq E w) = Ok d ->
     AddTree E r t dst key defaults w = (res, w') -> fs E w' !! q = None)
  /\ (forall r repospec dst res w',
        TempDirName E "metadata" (tmpseq E w) = Ok d ->
        AddMetadata E r repospec dst w = (res, w') -> fs E w' !! q = None)
  /\ (forall g repospec r res w',
        TempDirName E "metadata" (tmpseq E w) = Ok d ->
        pushRepoMetadata E g repospec r w = (res, w') -> fs E w' !! q = None)
  /\ (forall g r imagePrefix resetRevision res w',
        TempDirName E "repo" (tmpseq E w) = Ok d ->
        Generate E g r imagePrefix resetRevision w = (res, w') -> fs E w' !! q = None).
Proof.
  intros Hq. split; [|split; [|split]].
  - intros r t dst key defaults res w' Htmp. unfold AddTree, TempDir.
    unfold bind at 1. unfold wrapped at 1. rewrite Htmp. unfold defer at 1.
    destruct (bind _ _ _) as [res0 w0]. intros [= <- <-]. st_simpl.
    by apply lookup_RemoveAll_fs_under.
  - intros r repospec dst res w' Htmp. unfold AddMetadata, Serialize, TempDir.
    unfold bind at 1. unfold wrapped at 1. rewrite Htmp. unfold defer at 1.
    destruct (bind _ _ _) as [res0 w0]. intros [= <- <-]. st_simpl.
    by apply lookup_RemoveAll_fs_under.
  - intros g repospec r res w' Htmp. unfold pushRepoMetadata, TempDir.
    unfold bind at 1. unfold wrapped at 1. rewrite Htmp. unfold defer at 1.
    destruct (bind _ _ _) as [res0 w0]. intros [= <- <-]. st_simpl.
    by apply lookup_RemoveAll_fs_under.
  - intros g r imagePrefix resetRevision res w' Htmp. unfold Generate, TempDir.
    unfold bind at 1. unfold wrapped at 1. rewrite Htmp. unfold defer at 1.
    destruct (bind _ _ _) as [res0 w0]. intros [= <- <-]. st_simpl.
    by apply lookup_RemoveAll_fs_under.
Qed.

(** ** What a publish leaves in the descriptor *)

Lemma AddTree_manifest r t dst key defaults w r' a w' :
  AddTree E r t dst key defaults w = (Ok (r', a), w') ->
  (exists entry, RepositoryFiles r' = <[key := entry]> (RepositoryFiles r))
  /\ Config r' = Config r /\ Index r' = Index r.
Proof.
  unfold AddTree, TempDir. intros Hrun. exec.
  all: match goal with
       | Hr : AddRepositoryFile _ _ _ _ _ _ _ = _ |- _ =>
           apply AddRepositoryFile_manifest in Hr as (Hfiles & _ & _ & _ & _ & ? & ?)
       end.
  all: split; [by eexists|done].
Qed.

Lemma AddMetadata_manifest r repospec dst w r' a w' :
  AddMetadata E r repospec dst w = (Ok (r', a), w') ->
  (exists entry, RepositoryFiles r' = <[REPOFILE_META_KEY := entry]> (RepositoryFiles r))
  /\ Config r' = Config r /\ Index r' = CleanPath E (Index r).
Proof.
  unfold AddMetadata, Serialize, Metadata_WriteFile, TempDir. intros Hrun. exec.
  all: match goal with
       | Hr : AddRepositoryFile _ _ _ _ _ _ _ = _ |- _ =>
           apply AddRepositoryFile_manifest in Hr as (Hfiles & _ & _ & _ & _ & ? & ?)
       end.
  all: split; [by eexists|done].
Qed.

Lemma BumpRevision_SetRevision r repospec resetRevision w r' w' :
  BumpRevision E r repospec resetRevision w = (Ok r', w') ->
  w' = w /\ exists n, r' = SetRevision r n.
Proof.
  unfold BumpRevision, os_exists. intros Hrun. exec.
  all: split; [done|]; eexists; unfold IncrementRevision, SetRevision, with_config; simpl;
    reflexivity.
Qed.

Lemma Generate_result d r imagePrefix resetRevision w r' w' :
  Generate E d r imagePrefix resetRevision w = (Ok r', w') ->
  exists repoTemp w1 r0,
    TempDirName E "repo" (tmpseq E w) = Ok repoTemp
    /\ BumpRevision E (SetLastUpdate r (pretty (time_Now_Unix E)))
                    (Join repoTemp REPOSITORY_SPECFILE) resetRevision w1 = (Ok r0, w1)
    /\ (ImageAvailable E (backend E w) (imagePrefix ++ ":" ++ REPOSITORY_SPECFILE)%string = false
        -> fs E w1 = fs E w)
    /\ Config r' = Config r0
    /\ Index r' = CleanPath E (Index r)
    /\ exists e1 e2 e3,
         RepositoryFiles r'
         = <[REPOFILE_META_KEY := e3]>
             (<[REPOFILE_COMPILER_TREE_KEY := e2]>
                (<[REPOFILE_TREE_KEY := e1]> (RepositoryFiles r))).
Proof.
  unfold Generate, TempDir, backend_ImageAvailable. intros Hrun. exec.
  all: repeat match goal with
         | Hr : AddTree _ _ _ _ _ _ _ = _ |- _ =>
             apply AddTree_manifest in Hr as ([? ?] & ? & ?)
         | Hr : AddMetadata _ _ _ _ _ = _ |- _ =>
             apply AddMetadata_manifest in Hr as ([? ?] & ? & ?)
         | Hr : pushImageFromArtifact _ _ _ _ _ = _ |- _ => clear Hr
         | Hr : pushRepoMetadata _ _ _ _ _ = _ |- _ => clear Hr
         end.
  all: match goal with
       | Hr : BumpRevision _ _ _ _ ?w1 = _ |- _ =>
           pose proof (BumpRevision_SetRevision _ _ _ _ _ _ Hr) as (-> & n & ->);
           eexists; exists w1; eexists; split; [done|]; split; [exact Hr|]
       end.
  all: split; [try done|].
  all: try (intros Hav; congruence).
  all: cbn [Index RepositoryFiles SetRevision SetLastUpdate with_config] in *.
  all: split; [congruence|]; split; [congruence|].
  all: repeat match goal with
         | Hf : RepositoryFiles ?x = _ |- context [RepositoryFiles ?x] => rewrite Hf
         end.
  all: by eexists _, _, _.
Qed.

(** X22. A successful [Generate] leaves a repository whose timestamp is
    the current time, whose manifest has an entry for the tree, the
    compiler tree and the metadata and is unchanged at every other key,
    whose index is the cleaned index, and whose name, description, urls,
    type, priority and verify flag are as they were. *)
Theorem Generate_descriptor d r imagePrefix resetRevision w r' w' :
  Generate E d r imagePrefix resetRevision w = (Ok r', w') ->
  GetLastUpdate r' = pretty (time_Now_Unix E)
  /\ is_Some (RepositoryFiles r' !! REPOFILE_TREE_KEY)
  /\ is_Some (RepositoryFiles r' !! REPOFILE_COMPILER_TREE_KEY)
  /\ is_Some (RepositoryFiles r' !! REPOFILE_META_KEY)
  /\ (forall k, k <> REPOFILE_TREE_KEY -> k <> REPOFILE_COMPILER_TREE_KEY ->
        k <> REPOFILE_META_KEY -> RepositoryFiles r' !! k = RepositoryFiles r !! k)
  /\ Index r' = CleanPath E (Index r)
  /\ GetName r' = GetName r /\ GetDescription r' = GetDescription r
  /\ GetUrls r' = GetUrls r /\ GetType r' = GetType r
  /\ GetPriority r' = GetPriority r /\ GetVerify r' = GetVerify r.
Proof.
  intros Hrun.
  destruct (Generate_result _ _ _ _ _ _ _ Hrun)
    as (repoTemp & w1 & r0 & _ & Hbump & _ & Hconfig & Hindex & e1 & e2 & e3 & Hfiles).
  apply BumpRevision_SetRevision in Hbump as (_ & n & ->).
  unfold GetLastUpdate, GetName, GetDescription, GetUrls, GetType, GetPriority, GetVerify.
  rewrite Hconfig, Hfiles.
  cbn [Config SetRevision SetLastUpdate with_config LastUpdate Name Description Urls Type_
       Priority Verify].
  split; [done|]. split; [by rewrite !lookup_insert_ne, lookup_insert_eq by done|].
  split; [by rewrite lookup_insert_ne, lookup_insert_eq by done|].
  split; [by rewrite lookup_insert_eq|].
  split; [intros k ? ? ?; by rewrite !lookup_insert_ne by congruence|].
  done.
Qed.

(** X23. Without reset, on a registry that does not have the image of
    the spec document, and with no file at the path of the spec document
    in the fresh temporary directory, a successful [Generate] leaves the
    revision of the repository incremented by one. *)
Theorem Generate_next_revision d r imagePrefix w r' w' :
  ImageAvailable E (backend E w) (imagePrefix ++ ":" ++ REPOSITORY_SPECFILE)%string = false ->
  (forall repoTemp,
     TempDirName E "repo" (tmpseq E w) = Ok repoTemp ->
     fs E w !! Join repoTemp REPOSITORY_SPECFILE = None) ->
  Generate E d r imagePrefix false w = (Ok r', w') ->
  GetRevision r' = wrap_int (GetRevision r + 1).
Proof.
  intros Hnew Hfresh Hrun.
  destruct (Generate_result _ _ _ _ _ _ _ Hrun)
    as (repoTemp & w1 & r0 & Htmp & Hbump & Hfs & Hconfig & _).
  rewrite BumpRevision_absent in Hbump.
  - injection Hbump as <-. unfold GetRevision. by rewrite Hconfig.
  - rewrite (Hfs Hnew). by apply Hfresh.
Qed.

(** ** [Initialize]: the artifacts returned and their images *)

Lemma pushImage_adds image force w res w' :
  pushImage E image force w = (res, w') ->
  fs E w' = fs E w
  /\ exists p, adds E w w' [] p [] /\ p `sublist_of` [image]
       /\ (force = true -> p = [image])
       /\ (ImageAvailable E (backend E w) image = true -> force = false -> p = []).
Proof.
  unfold pushImage, backend_ImageAvailable, backend_Push. intros Hrun. exec.
  all: split; [done|].
  - exists []. split; [eapply adds_eq; [solve_adds|done..]|].
    split; [apply sublist_nil_l|]. split; [|done].
    intros ->. match goal with Hb : _ && negb true = true |- _ =>
                 by rewrite andb_false_r in Hb end.
  - exists [image]. split; [eapply adds_eq; [solve_adds|done..]|].
    split; [done|]. split; [done|]. intros Hav ->.
    match goal with Hb : _ && negb false = false |- _ =>
      by rewrite Hav in Hb end.
Qed.

Lemma ioutil_ReadFile_Ok σ file d :
  ioutil_ReadFile σ file = Ok d -> σ !! file = Some d.
Proof. unfold ioutil_ReadFile. by destruct (σ !! file); intros [= ->]. Qed.

Lemma generatePackageImages_visit_result imagePrefix db imagePush force art file w art' w' :
  generatePackageImages_visit E imagePrefix db imagePush force art file w = (Ok art', w') ->
  fs E w' = fs E w
  /\ exists new b p,
       art' = art ++ new /\ adds E w w' b p []
       /\ Forall (fun a => is_Some (FindPackage db (CompileSpecPackage a))
                           /\ described_by E (fs E w) file a) new
       /\ b `sublist_of` (packageImage imagePrefix <$> new)
       /\ p `sublist_of` b
       /\ (imagePush = false -> b = packageImage imagePrefix <$> new /\ p = [])
       /\ (force = true ->
           b = packageImage imagePrefix <$> new
           /\ p = if imagePush then packageImage imagePrefix <$> new else []).
Proof.
  unfold generatePackageImages_visit, Artifact_GenerateFinalImage, backend_ImageAvailable.
  intros Hrun. destruct imagePush, force; exec.
  all: repeat match goal with
         | Hr : pushImage _ _ _ _ = _ |- _ =>
             apply pushImage_adds in Hr as (Hfs & pushed & Hr & Hsub & Hforced & Hskip);
             st_simpl
         end.
  all: cbn [andb negb] in *; rewrite ?andb_true_r, ?andb_false_r in *.
  all: try (specialize (Hforced eq_refl); subst pushed).
  all: try (match goal with
            | Hav : ImageAvailable _ _ _ = true |- _ =>
                specialize (Hskip Hav eq_refl); subst pushed
            end).
  all: split; [try (match goal with Hf : fs _ _ = _ |- _ => rewrite Hf end); by st_simpl|].
  all: try (exists [], [], []; split; [by rewrite app_nil_r|];
            split; [eapply adds_eq; [solve_adds|done..]|];
            split; [constructor|]; by repeat split).
  all: eexists [_], _, _; split; [reflexivity|].
  all: split; [eapply adds_eq; [solve_adds|reflexivity..]|].
  all: split;
         [apply Forall_singleton; split; [eexists; eassumption|];
          split; [by apply negb_false_iff|];
          eexists _, _; split; [by apply ioutil_ReadFile_Ok|];
          split; [eassumption|]; done|].
  all: cbn [fmap list_fmap]; unfold packageImage; cbn [CompileSpecPackage].
  all: repeat split; try done; try (by intros [=]).
  all: try (by apply sublist_nil_l).
  all: try (by apply sublist_skip).
Qed.

Lemma walk_result imagePrefix db imagePush force files art w art' w' :
  walk E (generatePackageImages_visit E imagePrefix db imagePush force) art files w
  = (Ok art', w') ->
  fs E w' = fs E w
  /\ exists new b p,
       art' = art ++ new /\ adds E w w' b p []
       /\ Forall (fun a => is_Some (FindPackage db (CompileSpecPackage a))
                           /\ exists file, file ∈ files /\ described_by E (fs E w) file a) new
       /\ b `sublist_of` (packageImage imagePrefix <$> new)
       /\ p `sublist_of` b
       /\ (imagePush = false -> b = packageImage imagePrefix <$> new /\ p = [])
       /\ (force = true ->
           b = packageImage imagePrefix <$> new
           /\ p = if imagePush then packageImage imagePrefix <$> new else []).
Proof.
  revert art w. induction files as [|file files IH]; intros art w; simpl.
  - intros [= <- <-]. split; [done|]. exists [], [], [].
    split; [by rewrite app_nil_r|]. split; [by apply adds_nothing|].
    split; [constructor|]. repeat split; try done. by destruct imagePush.
  - unfold bind.
    destruct (generatePackageImages_visit _ _ _ _ _ _ _ _) as [[[art1|e]|v] w1] eqn:Hvisit;
      [|done..].
    apply generatePackageImages_visit_result in Hvisit
      as (Hfs1 & new1 & b1 & p1 & -> & Hadds1 & Hall1 & Hb1 & Hp1 & Hnopush1 & Hforce1).
    intros (Hfs2 & new2 & b2 & p2 & -> & Hadds2 & Hall2 & Hb2 & Hp2 & Hnopush2 & Hforce2)%IH.
    split; [congruence|].
    exists (new1 ++ new2), (b1 ++ b2), (p1 ++ p2).
    split; [by rewrite app_assoc|]. split; [eapply adds_eq; [eapply adds_app; eassumption|done..]|]. split.
    { apply Forall_app. split.
      - eapply Forall_impl; [exact Hall1|]. intros a [? ?]. split; [done|].
        exists file. split; [by left|done].
      - eapply Forall_impl; [exact Hall2|]. intros a [? (f & ? & ?)]. split; [done|].
        exists f. split; [by right|]. by rewrite <- Hfs1. }
    rewrite fmap_app. split; [by apply sublist_app|]. split; [by apply sublist_app|].
    split.
    + intros Hno. destruct (Hnopush1 Hno) as [-> ->], (Hnopush2 Hno) as [-> ->]. done.
    + intros Hf. destruct (Hforce1 Hf) as [-> ->], (Hforce2 Hf) as [-> ->].
      split; [done|]. destruct imagePush; by rewrite ?fmap_app.
Qed.

Lemma Initialize_result l path db w art w' :
  Initialize E l path db w = (Ok art, w') ->
  let images := packageImage (g_imagePrefix l) <$> art in
  Forall (fun a => is_Some (FindPackage db (CompileSpecPackage a))
                   /\ exists file, under path file = true
                                   /\ described_by E (fs E w) file a) art
  /\ fs E w' = fs E w
  /\ builds (new_events E w w') `sublist_of` images
  /\ pushes (new_events E w w') `sublist_of` builds (new_events E w w')
  /\ (g_imagePush l = false ->
      builds (new_events E w w') = images /\ pushes (new_events E w w') = [])
  /\ (g_force l = true ->
      builds (new_events E w w') = images
      /\ pushes (new_events E w w') = if g_imagePush l then images else []).
Proof.
  intros Hrun images. unfold images. clear images.
  unfold Initialize, generatePackageImages, bind, Info, emit, get_fs in Hrun. st_simpl.
  apply walk_result in Hrun
    as (Hfs & new & b & p & Hart & Hadds & Hall & Hb & Hp & Hnopush & Hforce).
  st_simpl. rewrite app_nil_l in Hart. subst art.
  assert (Hall_adds : adds E w w' b p []).
  { eapply adds_eq; [eapply adds_app; [|exact Hadds]; eapply adds_log, adds_nothing;
                     reflexivity|done..]. }
  apply adds_new_events in Hall_adds as (-> & -> & _).
  split; [|done].
  eapply Forall_impl; [exact Hall|]. intros a [? (file & Hfile & ?)]. split; [done|].
  exists file. split; [|done].
  apply list_elem_of_fmap in Hfile as ([f d] & -> & Hin).
  apply elem_of_map_to_list in Hin. unfold files_under in Hin.
  by apply map_lookup_filter_Some in Hin as [_ Hunder].
Qed.

(** X21. A successful [Initialize] of the registry generator returns
    artifacts described by metadata files below [path], each of a
    package the database has, and leaves the disk as it was. Every image
    it built is the image of a returned artifact and every image it
    pushed was built by the call; without pushing it built the image of
    every artifact and pushed none; with force it built the image of
    every artifact and, when pushing, pushed every one. *)
Theorem Initialize_artifacts l path db w art w' :
  Initialize E l path db w = (Ok art, w') ->
  let images := packageImage (g_imagePrefix l) <$> art in
  Forall (fun a => is_Some (FindPackage db (CompileSpecPackage a))
                   /\ exists file, under path file = true
                                   /\ described_by E (fs E w) file a) art
  /\ fs E w' = fs E w
  /\ builds (new_events E w w') `sublist_of` images
  /\ pushes (new_events E w w') `sublist_of` builds (new_events E w w')
  /\ (g_imagePush l = false ->
      builds (new_events E w w') = images /\ pushes (new_events E w w') = [])
  /\ (g_force l = true ->
      builds (new_events E w w') = images
      /\ pushes (new_events E w w') = if g_imagePush l then images else []).
Proof. intros Hrun. by apply Initialize_result. Qed.

(** ** More on [Sync] *)

Lemma verifications_app t1 t2 :
  @verifications Package (t1 ++ t2) = verifications t1 ++ verifications t2.
Proof. unfold verifications. apply omap_app. Qed.
Lemma downloads_app (t1 t2 : list (@Event Package)) :
  downloads (t1 ++ t2) = downloads t1 ++ downloads t2.
Proof. unfold downloads. apply omap_app. Qed.

(** What a successful rehydration returns: the downloaded descriptor
    with the index and the tree found on disk, and the local settings. *)
Lemma Sync_rehydrate_result r repo treefs metafs w r' w' :
  Sync_rehydrate E r repo treefs metafs w = (Ok r', w') ->
  fs E w' = fs E w
  /\ (exists t, trace E w' = trace E w ++ t /\ downloads t = [] /\ verifications t = [])
  /\ (exists meta, NewLuetSystemRepositoryMetadata (fs E w) (Join metafs REPOSITORY_METAFILE)
                   = Ok meta /\ Index r' = mIndex meta)
  /\ RecipeLoad E treefs (files_under treefs (fs E w)) = Ok (Tree r')
  /\ GetTreePath r' = treefs
  /\ GetRevision r' = GetRevision repo /\ GetLastUpdate r' = GetLastUpdate repo
  /\ RepositoryFiles r' = RepositoryFiles repo
  /\ GetDescription r' = GetDescription repo /\ GetMetaPath r' = GetMetaPath repo.
Proof.
  unfold Sync_rehydrate. intros Hrun. exec.
  split; [done|]. split; [by eexists [_]|].
  split; [eexists; split; [done|]; cbn; apply ToArtifactIndex_id|].
  done.
Qed.

Lemma Sync_rehydrate_trace r repo treefs metafs w res w' :
  Sync_rehydrate E r repo treefs metafs w = (res, w') ->
  fs E w' = fs E w
  /\ exists t, trace E w' = trace E w ++ t /\ downloads t = [] /\ verifications t = [].
Proof.
  unfold Sync_rehydrate. intros Hrun. exec.
  all: split; [done|].
  - by eexists [_].
  - exists []. by rewrite app_nil_r.
  - exists []. by rewrite app_nil_r.
Qed.

(** X11. For a repository whose type is none of disk, http and docker,
    [Sync] fails with [no client could be generated from repository]
    before anything is downloaded or verified; disk and backend are as
    they were. *)
Theorem Sync_unknown_type r force w :
  GetType r <> DiskRepositoryType -> GetType r <> HttpRepositoryType ->
  GetType r <> DockerRepositoryType ->
  exists w',
    Sync E r force w = (Err "no client could be generated from repository", w')
    /\ fs E w' = fs E w /\ backend E w' = backend E w
    /\ downloads (new_events E w w') = [] /\ verifications (new_events E w w') = [].
Proof.
  intros Hdisk Hhttp Hdocker. unfold Sync, Client.
  rewrite !decide_False by done. unfold_M. st_simpl.
  eexists. split; [done|]. st_simpl. repeat split; try done.
  all: unfold new_events; st_simpl; by rewrite drop_app_length.
Qed.

Lemma lookup_delete_None_2 (σ : gmap string (@FileData Package)) p q :
  p = q \/ σ !! q = None -> delete p σ !! q = None.
Proof. intros. by apply lookup_delete_None. Qed.

(** Goals [σ !! p = None] where [σ] ends in the removal of [p]. *)
Ltac gone :=
  repeat first
    [ apply lookup_delete_eq
    | apply lookup_delete_None_2; left; reflexivity
    | apply lookup_delete_None_2; right ].

(** Whatever the outcome, the bundles that were verified are no longer
    on disk when the fetch returns. *)
Lemma Sync_fetch_cleanup r repo c file treefs metafs w res w' :
  Sync_fetch E r repo c file treefs metafs w = (res, w') ->
  exists t, trace E w' = trace E w ++ t
    /\ forall p ok, (p, ok) ∈ verifications t -> fs E w' !! p = None.
Proof.
  unfold Sync_fetch, DownloadFile, Verify_artifact, Unpack_artifact, helpers_CopyFile.
  intros Hrun. exec.
  all: try match goal with
           | Hr : Sync_rehydrate _ _ _ _ _ _ = _ |- _ =>
               apply Sync_rehydrate_trace in Hr as (Hfs & t & Ht & Hd & Hv); st_simpl
           end.
  all: rewrite ?Ht, <- ?app_assoc; eexists; (split; [reflexivity|]).
  all: rewrite ?verifications_app, ?Hv; cbn [verifications omap app list_omap].
  all: intros p ok Hin.
  all: repeat (apply elem_of_cons in Hin as [[= -> ->]|Hin]).
  all: try (by apply elem_of_nil in Hin).
  all: rewrite ?Hfs; st_simpl; gone.
Qed.

(** A fetch that succeeds: both bundles were downloaded and verified,
    the cache was replaced by what they unpack to, and the descriptor
    was rehydrated from it. *)
Lemma Sync_fetch_result r repo c file treefs metafs w r' w' :
  Sync_fetch E r repo c file treefs metafs w = (Ok r', w') ->
  let treeFile := repository_file_or_zero repo REPOFILE_TREE_KEY in
  let metaFile := repository_file_or_zero repo REPOFILE_META_KEY in
  exists p1 d1 p2 d2 wr wr' t,
    ClientDownload E c (GetFileName treeFile) (tmpseq E w) = Ok (p1, d1)
    /\ ClientDownload E c (GetFileName metaFile) (S (tmpseq E w)) = Ok (p2, d2)
    /\ Sync_rehydrate E r repo treefs metafs wr = (Ok r', wr')
    /\ fs E w' = delete p1 (delete p2 (fs E wr))
    /\ trace E w' = trace E w ++ t
    /\ downloads t = [GetFileName treeFile; GetFileName metaFile]
    /\ verifications t = [(p1, true); (p2, true)]
    /\ exists tfiles mfiles,
         let σ2 := <[p2 := d2]> (<[p1 := d1]> (fs E w)) in
         fs E wr
         = write_files metafs mfiles
             (write_files treefs tfiles
                (if Cached (Config r)
                 then RemoveAll_fs metafs
                        (RemoveAll_fs treefs
                           (match σ2 !! file with
                            | Some dspec => <[cache_specfile E r := dspec]> σ2
                            | None => σ2
                            end))
                 else σ2)).
Proof.
  unfold Sync_fetch, DownloadFile, Verify_artifact, Unpack_artifact, helpers_CopyFile.
  intros Hrun. exec.
  all: match goal with
       | Hr : Sync_rehydrate _ _ _ _ _ ?wr = (_, ?wr') |- _ =>
           pose proof (Sync_rehydrate_trace _ _ _ _ _ _ _ Hr) as (Hfs & t & Ht & Hd & Hv);
           st_simpl;
           eexists _, _, _, _, wr, wr', _;
           split; [reflexivity|]; split; [eassumption|]; split; [exact Hr|]
       end.
  all: split; [by rewrite Hfs|].
  all: rewrite Ht, <- ?app_assoc; split; [reflexivity|].
  all: rewrite !downloads_app, !verifications_app, Hd, Hv.
  all: split; [reflexivity|]; split; [reflexivity|].
  all: st_simpl; eexists _, _.
  all: repeat match goal with
         | Hc : Cached _ = _ |- _ => rewrite Hc
         | Hread : ioutil_ReadFile _ _ = Ok _ |- _ =>
             unfold ioutil_ReadFile in Hread; st_simpl
         end.
  all: repeat case_match; simplify_eq; reflexivity.
Qed.

(** A [Sync] that succeeds: the spec document was downloaded and read,
    and the descriptor comes from a rehydration of the cache or from a
    fetch, after which the downloaded document was removed. *)
Lemma Sync_result r force w r' w' :
  Sync E r force w = (Ok r', w') ->
  exists c file data remote treefs metafs w1 w2 t0,
    Client r = Some c
    /\ ClientDownload E c REPOSITORY_SPECFILE (tmpseq E w) = Ok (file, data)
    /\ ReadSpecFile E (<[file := data]> (fs E w)) file = Ok remote
    /\ (Cached (Config r) = true ->
        treefs = cache_treefs E r /\ metafs = cache_metafs E r)
    /\ fs E w1 = <[file := data]> (fs E w)
    /\ trace E w1 = trace E w ++ t0
    /\ downloads t0 = [REPOSITORY_SPECFILE] /\ verifications t0 = []
    /\ fs E w' = RemoveAll_fs file (fs E w2)
    /\ trace E w' = trace E w2
    /\ ((force = false /\ Cached (Config r) = true
         /\ Sync_rehydrate E r remote treefs metafs w1 = (Ok r', w2))
        \/ Sync_fetch E r remote c file treefs metafs w1 = (Ok r', w2)).
Proof.
  unfold Sync, DownloadFile, TempDir. intros Hrun. exec.
  all: match goal with
       | Hr : Sync_rehydrate _ _ _ _ _ ?w1 = (_, ?w2) |- _ =>
           eexists _, _, _, _, _, _, w1, w2, _
       | Hr : Sync_fetch _ _ _ _ _ _ _ ?w1 = (_, ?w2) |- _ =>
           eexists _, _, _, _, _, _, w1, w2, _
       end.
  all: split; [reflexivity|]; split; [eassumption|]; split; [eassumption|].
  all: split; [try done; by intros [= ]|].
  all: st_simpl; split; [reflexivity|].
  all: split; [rewrite <- ?app_assoc; reflexivity|].
  all: split; [reflexivity|]; split; [reflexivity|].
  all: split; [reflexivity|]; split; [reflexivity|].
  all: first [right; eassumption | left].
  all: destruct force; [done|]. all: auto.
Qed.

(** Whatever the outcome of [Sync], the verified bundles are gone. *)
Lemma Sync_cleanup r force w res w' :
  Sync E r force w = (res, w') ->
  exists t, trace E w' = trace E w ++ t
    /\ forall p ok, (p, ok) ∈ verifications t -> fs E w' !! p = None.
Proof.
  unfold Sync, DownloadFile, TempDir. intros Hrun. exec.
  all: try match goal with
           | Hr : Sync_rehydrate _ _ _ _ _ _ = _ |- _ =>
               apply Sync_rehydrate_trace in Hr as (Hfs & t & Ht & Hd & Hv); st_simpl
           end.
  all: try match goal with
           | Hr : Sync_fetch _ _ _ _ _ _ _ _ = _ |- _ =>
               apply Sync_fetch_cleanup in Hr as (t & Ht & Hgone); st_simpl
           end.
  all: rewrite ?Ht, <- ?app_assoc; eexists; (split; [reflexivity|]).
  all: rewrite ?verifications_app, ?Hv; cbn [verifications omap app list_omap].
  all: intros p ok Hin; try (by apply elem_of_nil in Hin).
  all: st_simpl; apply lookup_RemoveAll_fs_None; eauto.
Qed.


(** X16. When [Sync] returns, whatever the outcome, no bundle it
    verified is left on disk; and once the downloaded spec document was
    read, nothing is left at or below the path it was stored at. *)
Theorem Sync_removes_downloads r force w res w' :
  Sync E r force w = (res, w') ->
  (forall p ok, (p, ok) ∈ verifications (new_events E w w') -> fs E w' !! p = None)
  /\ (forall c file data remote q,
        Client r = Some c ->
        ClientDownload E c REPOSITORY_SPECFILE (tmpseq E w) = Ok (file, data) ->
        ReadSpecFile E (<[file := data]> (fs E w)) file = Ok remote ->
        under file q = true -> fs E w' !! q = None).
Proof.
  intros Hrun. split.
  - destruct (Sync_cleanup _ _ _ _ _ Hrun) as (t & Ht & Hgone).
    apply new_events_app in Ht. by rewrite Ht.
  - intros c file data remote q Hc Hdl Hremote Hq. revert Hrun.
    unfold Sync, DownloadFile. unfold bind at 1. unfold Debug, emit. rewrite Hc.
    unfold bind at 1. unfold wrapped at 1. st_simpl. rewrite Hdl.
    unfold bind at 1. unfold ReadSpecFileM at 1. st_simpl. rewrite Hremote.
    unfold defer at 1. destruct (bind _ _ _) as [res0 w0]. intros [= <- <-]. st_simpl.
    by apply lookup_RemoveAll_fs_under.
Qed.


(** X13. The descriptor a successful [Sync] returns has the revision,
    the timestamp, the manifest and the description of the downloaded
    spec document, and, for a cached repository, the tree directory of
    the cache as its tree path. *)
Theorem Sync_takes_from_mirror r force w r' w' :
  Sync E r force w = (Ok r', w') ->
  exists c file data remote,
    Client r = Some c
    /\ ClientDownload E c REPOSITORY_SPECFILE (tmpseq E w) = Ok (file, data)
    /\ ReadSpecFile E (<[file := data]> (fs E w)) file = Ok remote
    /\ GetRevision r' = GetRevision remote
    /\ GetLastUpdate r' = GetLastUpdate remote
    /\ RepositoryFiles r' = RepositoryFiles remote
    /\ GetDescription r' = GetDescription remote
    /\ (Cached (Config r) = true -> GetTreePath r' = cache_treefs E r).
Proof.
  intros Hrun.
  destruct (Sync_result _ _ _ _ _ Hrun)
    as (c & file & data & remote & treefs & metafs & w1 & w2 & t0 & Hc & Hdl & Hremote
        & Hdirs & _ & _ & _ & _ & _ & _ & Hphase).
  exists c, file, data, remote. split; [done|]. split; [done|]. split; [done|].
  assert (Hre : exists wr wr', Sync_rehydrate E r remote treefs metafs wr = (Ok r', wr')).
  { destruct Hphase as [(_ & _ & Hre)|Hfetch]; [by eexists _, _|].
    apply Sync_fetch_result in Hfetch as (? & ? & ? & ? & wr & wr' & ? & _ & _ & Hre & _).
    by exists wr, wr'. }
  destruct Hre as (wr & wr' & Hre).
  apply Sync_rehydrate_result in Hre as (_ & _ & _ & _ & Htp & Hrev & Hlu & Hfiles & Hdesc & _).
  repeat split; try done. intros Hcached. destruct (Hdirs Hcached) as [-> _]. done.
Qed.

(** ** The cache after a successful [Sync] *)

Lemma cache_metafs_nonempty r : cache_metafs E r <> "".
Proof. unfold cache_metafs. case_decide; [by apply Join_nonempty|done]. Qed.


Lemma NewLuetSystemRepositoryMetadata_ext σ σ' file :
  σ' !! file = σ !! file ->
  @NewLuetSystemRepositoryMetadata Package σ' file = NewLuetSystemRepositoryMetadata σ file.
Proof.
  intros Heq. unfold NewLuetSystemRepositoryMetadata, ioutil_ReadFile. by rewrite Heq.
Qed.

Lemma files_under_ext dir σ σ' :
  (forall q, under dir q = true -> σ' !! q = σ !! q) ->
  files_under dir σ' = files_under dir σ.
Proof.
  intros Heq. unfold files_under. apply map_filter_strong_ext_1. intros q d. simpl.
  split; intros [Hq Hl]; (split; [done|]).
  - by rewrite <- (Heq q Hq).
  - by rewrite (Heq q Hq).
Qed.

(** The files of the cache are not touched by the removal of the
    downloads when [Sync] returns. *)
Lemma cache_survives_cleanup r file p1 p2 σ q :
  outside_cache E r file = true -> outside_cache E r p1 = true ->
  outside_cache E r p2 = true -> in_cache E r q = true ->
  RemoveAll_fs file (delete p1 (delete p2 σ)) !! q = σ !! q.
Proof.
  intros Hfile Hp1 Hp2 Hq.
  rewrite lookup_RemoveAll_fs by (by eapply outside_cache_under).
  rewrite !lookup_delete_ne; [done|by eapply outside_cache_ne..].
Qed.

(** X14. For a cached repository whose client stores its downloads
    outside the cache, the descriptor a successful [Sync] returns
    describes the cache as it is on disk when the call returns: its
    index is the one of the metadata file of the cache, and its tree is
    the one loaded from the tree directory. *)
Theorem Sync_descriptor_matches_cache r force w r' w' :
  client_outside_cache E r ->
  Cached (Config r) = true ->
  Sync E r force w = (Ok r', w') ->
  (exists meta,
     NewLuetSystemRepositoryMetadata (fs E w') (Join (cache_metafs E r) REPOSITORY_METAFILE)
     = Ok meta
     /\ GetIndex r' = mIndex meta)
  /\ RecipeLoad E (cache_treefs E r) (files_under (cache_treefs E r) (fs E w'))
     = Ok (GetTree r')
  /\ GetTreePath r' = cache_treefs E r.
Proof.
  intros Hout Hcached Hrun.
  apply Sync_result in Hrun
    as (c & file & data & remote & treefs & metafs & w1 & w2 & t0 & Hc & Hdl & Hremote
        & Hdirs & Hfs1 & _ & _ & _ & Hfs' & _ & Hphase).
  destruct (Hdirs Hcached) as [-> ->].
  assert (Hfile : outside_cache E r file = true) by (by eapply Hout).
  assert (Hmetafile : in_cache E r (Join (cache_metafs E r) REPOSITORY_METAFILE) = true).
  { unfold in_cache. rewrite (Join_under (cache_metafs E r)) by apply cache_metafs_nonempty.
    apply orb_true_r. }
  assert (Htree : forall q, under (cache_treefs E r) q = true -> in_cache E r q = true).
  { intros q Hq. unfold in_cache. by rewrite Hq, orb_true_r. }
  assert (Hre : exists wr wr',
            Sync_rehydrate E r remote (cache_treefs E r) (cache_metafs E r) wr = (Ok r', wr')
            /\ forall q, in_cache E r q = true -> fs E w' !! q = fs E wr !! q).
  { destruct Hphase as [(_ & _ & Hre)|Hfetch].
    - exists w1, w2. split; [done|]. intros q Hq. rewrite Hfs'.
      apply Sync_rehydrate_trace in Hre as (-> & _).
      by rewrite lookup_RemoveAll_fs by (by eapply outside_cache_under).
    - apply Sync_fetch_result in Hfetch
        as (p1 & d1 & p2 & d2 & wr & wr' & t & Hd1 & Hd2 & Hre & Hfs2 & _).
      exists wr, wr'. split; [done|]. intros q Hq. rewrite Hfs', Hfs2.
      apply (cache_survives_cleanup r); [done|by eapply Hout..|done]. }
  destruct Hre as (wr & wr' & Hre & Hsame).
  apply Sync_rehydrate_result in Hre as (_ & _ & (meta & Hmeta & Hindex) & Hload & Htp & _).
  split; [|split; [|done]].
  - exists meta. split; [|done]. rewrite <- Hmeta.
    apply NewLuetSystemRepositoryMetadata_ext. by apply Hsame.
  - unfold GetTree. rewrite <- Hload. f_equal. apply files_under_ext.
    intros q Hq. by apply Hsame, Htree.
Qed.


(** ** Choosing a generator *)

Section GeneratorProperties.
Variable localRepositoryGenerator : @RepositoryGenerator Package E.
Variable InstallerRecipe_Load CompilerRecipe_Load :
  @Builder Package -> string -> gmap string (@FileData Package) -> Result (@Builder Package).

Local Abbreviation getGenerator' := (getGenerator E localRepositoryGenerator).
Local Abbreviation initialize' := (initialize E localRepositoryGenerator).
Local Abbreviation Write' := (Write E localRepositoryGenerator).
Local Abbreviation load_trees' := (load_trees E InstallerRecipe_Load CompilerRecipe_Load).
Local Abbreviation GenerateRepository' :=
  (GenerateRepository E localRepositoryGenerator InstallerRecipe_Load CompilerRecipe_Load).

Lemma load_trees_state tr btr treesDir w res w' :
  load_trees' tr btr treesDir w = (res, w') -> w' = w.
Proof.
  revert tr btr. induction treesDir as [|treeDir rest IH]; intros tr btr; simpl.
  - by intros [= _ <-].
  - unfold_M. repeat case_match; simplify_eq; try by intros [= _ <-].
    by intros ?%IH.
Qed.

Lemma getGenerator_docker r :
  GetType r = DockerRepositoryType ->
  getGenerator' r
  = Ok (dockerGenerator E {| g_imagePrefix := imagePrefix r; g_imagePush := PushImages r;
                             g_force := ForcePush r |}).
Proof.
  intros Ht. unfold getGenerator. rewrite Ht.
  rewrite decide_False by (by intros [|]). by rewrite decide_True.
Qed.

Lemma getGenerator_unknown r :
  GetType r <> DiskRepositoryType -> GetType r <> HttpRepositoryType ->
  GetType r <> DockerRepositoryType ->
  getGenerator' r = Err "invalid repository type".
Proof.
  intros Hdisk Hhttp Hdocker. unfold getGenerator.
  rewrite decide_False by (by intros [|]). by rewrite decide_False.
Qed.

(** X5. For a repository whose type is none of disk, http and docker,
    [Write] fails with [invalid repository type] and [initialize] with
    the same error wrapped; the state is as it was. *)
Theorem unknown_repository_type r w :
  GetType r <> DiskRepositoryType -> GetType r <> HttpRepositoryType ->
  GetType r <> DockerRepositoryType ->
  (forall dst resetRevision force,
     Write' r dst resetRevision force w = (Err "invalid repository type", w))
  /\ (forall src,
        initialize' r src w
        = (Err "while constructing repository generator: invalid repository type", w)).
Proof.
  intros Hdisk Hhttp Hdocker.
  pose proof (getGenerator_unknown r Hdisk Hhttp Hdocker) as Hgen.
  split.
  - intros. unfold Write. unfold_M. by rewrite Hgen.
  - intros. unfold initialize. unfold_M. by rewrite Hgen.
Qed.

(** X3. [GenerateRepository] loads the trees before anything else: the
    error of a tree that does not load is returned as it is, and a type
    that is none of disk, http and docker is answered with the wrapped
    [invalid repository type]; in both cases the state is as it was (no
    image was built or pushed). *)
Theorem GenerateRepository_errors name descr t urls priority src treesDir db imagePrefix
    pushImages force w :
  let loaded := load_trees' (NewInstallerRecipe db)
                            (NewCompilerRecipe (NewInMemoryDatabase E)) treesDir w in
  let generated := GenerateRepository' name descr t urls priority src treesDir db
                                       imagePrefix pushImages force w in
  (forall e, loaded.1 = Err e -> generated = (Err e, w))
  /\ (t <> DiskRepositoryType -> t <> HttpRepositoryType -> t <> DockerRepositoryType ->
      is_Ok loaded.1 = true ->
      generated
      = (Err "while building repository artifact index: while constructing repository generator: invalid repository type",
         w)).
Proof.
  intros loaded generated. subst loaded generated.
  destruct (load_trees _ _ _ _ _ _ w) as [[[trees|e0]|v] w1] eqn:Hload;
    pose proof Hload as Hstate; apply load_trees_state in Hstate as ->;
    unfold GenerateRepository, bind; rewrite Hload; cbn [fst is_Ok].
  - split; [done|]. intros Hdisk Hhttp Hdocker _. unfold initialize. unfold_M.
    rewrite getGenerator_unknown; done.
  - split; [by intros e [= ->]|done].
  - split; [done|done].
Qed.

(** X4. A docker repository that [GenerateRepository] returns holds the
    settings it was given, the loaded trees and an empty manifest; its
    index lists artifacts described by metadata files below [src] whose
    package the loaded tree defines; the disk is as it was, every image
    built is the image of an artifact of the index, every image pushed
    was built by the call, and nothing is pushed without [pushImages]. *)
Theorem GenerateRepository_docker name descr urls priority src treesDir db prefix
    pushImages force w repo w' :
  GenerateRepository' name descr DockerRepositoryType urls priority src treesDir db
                      prefix pushImages force w = (Ok repo, w') ->
  exists tr btr,
    load_trees' (NewInstallerRecipe db) (NewCompilerRecipe (NewInMemoryDatabase E))
                treesDir w = (Ok (tr, btr), w)
    /\ Tree repo = tr /\ BuildTree repo = Some btr /\ RepositoryFiles repo = ∅
    /\ GetName repo = name /\ GetDescription repo = descr /\ GetUrls repo = urls
    /\ GetPriority repo = priority /\ GetType repo = DockerRepositoryType
    /\ PushImages repo = pushImages /\ ForcePush repo = force
    /\ Forall (fun a => is_Some (FindPackage (GetDatabase tr) (CompileSpecPackage a))
                        /\ exists file, under src file = true
                                        /\ described_by E (fs E w) file a) (GetIndex repo)
    /\ fs E w' = fs E w
    /\ builds (new_events E w w') `sublist_of` (packageImage prefix <$> GetIndex repo)
    /\ pushes (new_events E w w') `sublist_of` builds (new_events E w w')
    /\ (pushImages = false -> pushes (new_events E w w') = []).
Proof.
  unfold GenerateRepository, bind.
  destruct (load_trees _ _ _ _ _ _ w) as [[[[tr btr]|e0]|v0] w1] eqn:Hload; [|done..].
  pose proof Hload as Hstate. apply load_trees_state in Hstate as ->.
  unfold initialize. rewrite getGenerator_docker by done. unfold_M.
  cbn [rg_Initialize dockerGenerator Tree fst snd].
  destruct (Initialize _ _ _ _ _) as [[[art|e]|v] w1] eqn:Hinit; [|done..].
  intros [= <- <-]. apply Initialize_result in Hinit
    as (Hall & Hfs & Hb & Hp & Hnopush & _).
  exists tr, btr.
  cbn [Tree BuildTree RepositoryFiles PushImages ForcePush GetIndex Index SetIndex
       g_imagePrefix g_imagePush g_force imagePrefix fst snd] in *.
  repeat split; try done. intros Hno. by destruct (Hnopush Hno) as [_ ->].
Qed.
End GeneratorProperties.

End Properties.

(** * The properties on the concrete instance *)

Section Instance.
Import Demo.
Local Open Scope list_scope.

(** C1. Run on the repositories B (priority 10) and A (priority 1),
    [ResolveSelectors] returns the requested package [bar-2.0], which is
    not a selector, twice, once for each repository, and not at all
    over an empty collection; the selector [bar>=1.0], which only B
    satisfies, is replaced by B's candidate. *)
Theorem ResolveSelectors_repeats_plain_package :
  (ResolveSelectors [B; A] [bar20]).1 = [bar20; bar20]
  /\ (ResolveSelectors [] [bar20]).1 = []
  /\ (ResolveSelectors [B; A] [bar_ge_10]).1 = [bar20].
Proof. by vm_compute. Qed.

(** The mirror of the concrete instance stores its downloads below
    [/tmp/dl], outside the cache of repository A. *)
Lemma env_client_outside_cache files tree meta :
  client_outside_cache (env files tree meta) A.
Proof.
  intros c name n p d. simpl.
  repeat case_match; intros; simplify_eq; by vm_compute.
Qed.


(** [Sync_keeps_local_settings] on a successful run: the mirror declares
    the name [upstream], type [http] and priority 99, the descriptor
    returned has those of A. *)
Lemma Sync_keeps_local_settings_witness :
  let out := Sync E0 A false (start E0 tt (cached_disk "A" 2)) in
  exists r',
    out.1 = Ok r'
    /\ GetUrls r' = GetUrls A /\ GetAuthentication r' = GetAuthentication A
    /\ GetType r' = GetType A /\ GetPriority r' = GetPriority A
    /\ GetName r' = GetName A /\ GetVerify r' = GetVerify A.
Proof.
  intros out.
  assert (Hok : is_Ok out.1 = true) by (vm_compute; reflexivity).
  destruct out.1 as [[r'|e]|v] eqn:Hout; [|discriminate Hok..].
  exists r'. split; [done|].
  apply (Sync_keeps_local_settings E0 A false (start E0 tt (cached_disk "A" 2)) r' out.2).
  rewrite <- Hout. apply surjective_pairing.
Defined.

(** [Sync_short_circuit] on a cache that already holds revision 3, the
    revision the mirror publishes. *)
Lemma Sync_short_circuit_witness :
  let w := start E0 tt (cached_disk "A" 3) in
  let out := Sync E0 A false w in
  exists remote,
    ReadSpecFile E0 (<["/tmp/dl/spec" := yaml_Marshal_spec (published manifest)]> (fs E0 w))
                 "/tmp/dl/spec" = Ok remote
    /\ downloads (new_events E0 w out.2) = [REPOSITORY_SPECFILE]
    /\ cache_unchanged E0 A w out.2
    /\ EvInfo ["Repository"; GetName remote; "is already up to date."]
       ∈ new_events E0 w out.2.
Proof.
  intros w out. eexists. split; [vm_compute; reflexivity|].
  eapply (Sync_short_circuit E0 A w _ "/tmp/dl/spec"
            (yaml_Marshal_spec (published manifest)) _ _ out.1 out.2).
  - reflexivity.
  - reflexivity.
  - reflexivity.
  - by vm_compute.
  - vm_compute; reflexivity.
  - vm_compute; reflexivity.
  - reflexivity.
  - reflexivity.
  - apply surjective_pairing.
Defined.

(** C9. On a spec document that is empty, which has neither key,
    [ReadSpecFile] does not return an error: it panics on the nil
    pointer the decoder left, and [Sync] on a mirror that serves such a
    document panics with it, the spec document being its only download
    and the downloaded file left on disk. A document with a tree entry
    and no metadata entry is answered with the error. *)
Theorem ReadSpecFile_empty_document_panics :
  let σ : gmap string (@FileData Pkg) := {["/repo/repository.yaml" := NullYaml]} in
  let w := start E5 tt (cached_disk "A" 2) in
  let out := Sync E5 A false w in
  ReadSpecFile E0 σ "/repo/repository.yaml" = Panics nil_dereference
  /\ out.1 = Panics nil_dereference
  /\ downloads (new_events E5 w out.2) = [REPOSITORY_SPECFILE]
  /\ fs E5 out.2 !! "/tmp/dl/spec" = Some NullYaml
  /\ (Sync E2 A false (start E2 tt (cached_disk "A" 2))).1
     = Err "Invalid repository without the meta key file.".
Proof. by vm_compute. Qed.

(** [ReadSpecFile_mandatory_keys] on a mirror whose spec document has no
    entry for the meta key. *)
Lemma ReadSpecFile_mandatory_keys_witness :
  exists e w',
    Sync E2 A false (start E2 tt (cached_disk "A" 2)) = (Err e, w')
    /\ downloads (new_events E2 (start E2 tt (cached_disk "A" 2)) w') = [REPOSITORY_SPECFILE].
Proof.
  destruct (ReadSpecFile_mandatory_keys E2) as (_ & _ & Hsync).
  eapply (Hsync A false (start E2 tt (cached_disk "A" 2))).
  - reflexivity.
  - reflexivity.
  - vm_compute; reflexivity.
  - right. by vm_compute.
Defined.


(** C4 as stated fails on a descriptor of revision -1: the descriptor
    parsed back has revision 0. *)
Lemma spec_roundtrip_negative_revision :
  ~ (exists r', spec_roundtrip E0 negative (db []) = Ok r'
                /\ GetRevision r' = GetRevision negative).
Proof.
  intros (r' & Hrt & Hrev).
  destruct (spec_roundtrip_fields E0 negative (db []))
    as (r'' & Hrt' & _ & _ & _ & _ & Hrev' & _).
  rewrite Hrt in Hrt'. injection Hrt' as <-. rewrite Hrev' in Hrev. by vm_compute in Hrev.
Qed.

(** [spec_roundtrip_identity] on repository B with its tree entry, at
    revision 7. *)
Lemma spec_roundtrip_identity_witness :
  let r := SetRevision B_with_tree 7 in
  0 <= GetRevision r
  /\ exists r', spec_roundtrip E0 r (db []) = Ok r'
       /\ GetName r' = GetName r /\ GetUrls r' = GetUrls r
       /\ GetPriority r' = GetPriority r /\ GetType r' = GetType r
       /\ GetRevision r' = 7 /\ GetLastUpdate r' = GetLastUpdate r
       /\ RepositoryFiles r' = RepositoryFiles r /\ GetVerify r' = GetVerify r.
Proof.
  intros r. split; [by vm_compute|].
  apply (spec_roundtrip_identity E0 r (db [])). by vm_compute.
Defined.

(** C6 as stated fails on the collection [B; A], which is not sorted:
    A has the lower priority number and defines [foo-1.0], and [World]
    returns B's definition of it. *)
Lemma World_unsorted_collection :
  GetPriority A < GetPriority B
  /\ db_World (database A) = [fooA]
  /\ World [B; A] = [fooB; bar20]
  /\ ~ highest_precedence_definition [B; A] fooB.
Proof.
  split; [by vm_compute|]. split; [done|]. split; [vm_compute; reflexivity|].
  intros (r & Hr & Hin & Hmin).
  apply elem_of_cons in Hr as [->|Hr].
  - assert (Hle : GetPriority B <= GetPriority A).
    { apply Hmin; [by right; left|]. exists fooA. split; [by left|done]. }
    by vm_compute in Hle.
  - apply list_elem_of_singleton in Hr as ->.
    apply list_elem_of_singleton in Hin. discriminate.
Qed.

(** [World_precedence] on the sorted collection [A; B]. *)
Lemma World_precedence_witness :
  Sorted by_priority [A; B]
  /\ NoDup (GetFingerPrint <$> World [A; B])
  /\ highest_precedence_definition [A; B] fooA.
Proof.
  assert (Hs : Sorted by_priority [A; B]).
  { repeat constructor. by vm_compute. }
  split; [done|].
  destruct (World_precedence [A; B] Hs) as (Hnodup & _ & Hprec).
  split; [done|]. apply Hprec.
  replace (World [A; B]) with [fooA; bar20] by (vm_compute; reflexivity). by left.
Defined.

(** C7 as stated fails with a backend that reports every image as
    available and no force: [Generate] builds and pushes the images of
    its four bundles, and [Initialize] without pushing builds the image
    of the package. *)
Lemma registry_generator_rebuilds_available_images :
  (forall b tag, ImageAvailable E0 b tag = true)
  /\ (let w := start E0 tt ∅ in
      let out := Generate E0 pushing B "quay.io/demo" false w in
      is_Ok out.1 = true
      /\ builds (new_events E0 w out.2)
         = ["quay.io/demo:tree.tar.gz"; "quay.io/demo:compilertree.tar.gz";
            "quay.io/demo:repository.meta.yaml.tar.gz"; "quay.io/demo:repository.yaml"]
      /\ pushes (new_events E0 w out.2) = builds (new_events E0 w out.2))
  /\ (let w := start E0 tt build_dir in
      let out := Initialize E0 building "/build" (db [fooA]) w in
      is_Ok out.1 = true
      /\ builds (new_events E0 w out.2) = ["quay.io/demo:foo-1.0"]).
Proof. split; [done|]. split; by vm_compute. Qed.

(** [registry_generator_available_image] on the image of [foo-1.0], which
    the backend reports as available. *)
Lemma registry_generator_available_image_witness :
  let w := start E0 tt build_dir in
  (forall b, ImageAvailable E0 b "quay.io/demo:foo-1.0" = true)
  /\ left_alone E0 "quay.io/demo:foo-1.0" true w
                (Initialize E0 pushing "/build" (db [fooA]) w).2.
Proof.
  intros w.
  assert (Havailable : forall b, ImageAvailable E0 b "quay.io/demo:foo-1.0" = true)
    by reflexivity.
  split; [done|].
  destruct (registry_generator_available_image E0 "quay.io/demo:foo-1.0" Havailable)
    as (_ & Hinit & _).
  apply (Hinit pushing "/build" (db [fooA]) w
               (Initialize E0 pushing "/build" (db [fooA]) w).1).
  - reflexivity.
  - apply surjective_pairing.
Defined.

(** ** The further properties on the concrete instance *)

(** [Sync_unknown_type] on a repository of type [ftp]. *)
Lemma Sync_unknown_type_witness :
  exists w',
    Sync E0 ftp false (start E0 tt ∅)
    = (Err "no client could be generated from repository", w')
    /\ downloads (new_events E0 (start E0 tt ∅) w') = [].
Proof.
  destruct (Sync_unknown_type E0 ftp false (start E0 tt ∅))
    as (w' & Hrun & _ & _ & Hd & _); [done..|].
  by exists w'.
Defined.

(** Runs a closed computation to its result, which is a success. *)
Ltac ok_run out Hout x :=
  let Hok := fresh "Hok" in
  assert (Hok : is_Ok out.1 = true) by (vm_compute; reflexivity);
  destruct out.1 as [[x|?]|?] eqn:Hout; [|discriminate Hok..]; clear Hok.

(** [GenerateRepository_docker] on the directory of built packages,
    pushing without force to a registry that has every image. *)
Lemma GenerateRepository_docker_witness :
  let w := start E0 tt build_dir in
  let out := GenerateRepository E0 local_generator keep_tree keep_tree "demo" ""
               DockerRepositoryType ["quay.io/demo"] 1 "/build" ["/trees"] (db [fooA])
               "quay.io/demo" true false w in
  exists generated,
    out.1 = Ok generated
    /\ GetName generated = "demo" /\ RepositoryFiles generated = ∅
    /\ fs E0 out.2 = fs E0 w
    /\ pushes (new_events E0 w out.2) `sublist_of` builds (new_events E0 w out.2).
Proof.
  intros w out. ok_run out Hout generated. exists generated. split; [done|].
  destruct (GenerateRepository_docker E0 local_generator keep_tree keep_tree "demo" ""
              ["quay.io/demo"] 1 "/build" ["/trees"] (db [fooA]) "quay.io/demo" true false
              w generated out.2)
    as (tr & btr & _ & _ & _ & Hfiles & Hname & _ & _ & _ & _ & _ & _ & _ & Hfs & _ & Hp & _).
  - rewrite <- Hout. apply surjective_pairing.
  - exact (conj Hname (conj Hfiles (conj Hfs Hp))).
Defined.

(** [unknown_repository_type] on a repository of type [ftp]. *)
Lemma unknown_repository_type_witness :
  let w := start E0 tt ∅ in
  Write E0 local_generator ftp "/repo" false false w = (Err "invalid repository type", w).
Proof.
  intros w.
  destruct (unknown_repository_type E0 local_generator ftp w) as [Hwrite _]; [done..|].
  apply Hwrite.
Defined.

(** [ResolveSelectors_candidates] on the selector [bar>=1.0] over the
    repositories B and A: the candidate of B is returned, once. *)
Lemma ResolveSelectors_candidates_witness :
  (forall pack, pack ∈ [bar_ge_10] -> IsSelector pack = true)
  /\ exists f : Pkg -> option Pkg,
       [bar20] = omap f [bar_ge_10]
       /\ match f bar_ge_10 with
          | Some c => exists r, r ∈ [B; A]
                                /\ FindPackageCandidate (database r) bar_ge_10 = Some c
          | None => True
          end.
Proof.
  assert (Hsel : forall pack, pack ∈ [bar_ge_10] -> IsSelector pack = true).
  { by intros pack ->%list_elem_of_singleton. }
  split; [done|].
  destruct (ResolveSelectors_candidates [B; A] [bar_ge_10] Hsel) as (f & Hout & Hf).
  exists f. split; [exact Hout|].
  specialize (Hf bar_ge_10). destruct (f bar_ge_10) as [c|]; [|done].
  destruct Hf as (r & Hr & Hc & _). by exists r.
Defined.

(** [AddRepositoryFile_manifest] on repository B, whose manifest is
    empty: the entry of the tree takes the compression of the default. *)
Lemma AddRepositoryFile_manifest_witness :
  let out := AddRepositoryFile E0 B "/build" REPOFILE_TREE_KEY "/repo"
               NewDefaultTreeRepositoryFile (start E0 tt build_dir) in
  exists r' a,
    out.1 = Ok (r', a)
    /\ RepositoryFiles r'
       = <[REPOFILE_TREE_KEY := {| FileName := path_Base (aPath a);
                                   CompressionType := GZip;
                                   Checksums := aChecksums a |}]> (RepositoryFiles B)
    /\ ArtifactHash E0 (fs E0 out.2 !! aPath a) = Ok (aChecksums a).
Proof.
  intros out. ok_run out Hout ra. destruct ra as [r' a]. exists r', a. split; [done|].
  destruct (AddRepositoryFile_manifest E0 B "/build" REPOFILE_TREE_KEY "/repo"
              NewDefaultTreeRepositoryFile (start E0 tt build_dir) r' a out.2)
    as (Hfiles & _ & Hhash & _).
  - rewrite <- Hout. apply surjective_pairing.
  - split; [|exact Hhash]. rewrite Hfiles. reflexivity.
Defined.

(** [AddMetadata_ReadSpecFile] on repository B with its tree entry. *)
Lemma AddMetadata_ReadSpecFile_witness :
  let out := AddMetadata E0 B_with_tree "/repo/repository.yaml" "/repo" (start E0 tt ∅) in
  exists r' a parsed,
    out.1 = Ok (r', a)
    /\ ReadSpecFile E0 (fs E0 out.2) "/repo/repository.yaml" = Ok parsed
    /\ RepositoryFiles parsed = RepositoryFiles r'
    /\ GetName parsed = GetName B_with_tree.
Proof.
  intros out. ok_run out Hout ra. destruct ra as [r' a].
  destruct (AddMetadata_ReadSpecFile E0 B_with_tree "/repo/repository.yaml" "/repo"
              (start E0 tt ∅) r' a out.2)
    as (parsed & Hread & Hfiles & _ & Hname & _).
  - intros d [= <-]. by vm_compute.
  - unfold B_with_tree, SetRepositoryFile. cbn [RepositoryFiles].
    rewrite lookup_insert_eq. by eexists.
  - rewrite <- Hout. apply surjective_pairing.
  - exists r', a, parsed. exact (conj eq_refl (conj Hread (conj Hfiles Hname))).
Defined.

(** [temporary_directories_removed] on a run of [Generate]: the spec
    document it wrote in its temporary directory is not left behind. *)
Lemma temporary_directories_removed_witness :
  let w := start E0 tt ∅ in
  under "/tmp/repo0" "/tmp/repo0/repository.yaml" = true
  /\ fs E0 (Generate E0 pushing B "quay.io/demo" true w).2
     !! "/tmp/repo0/repository.yaml" = None.
Proof.
  intros w.
  assert (Hunder : under "/tmp/repo0" "/tmp/repo0/repository.yaml" = true)
    by (vm_compute; reflexivity).
  split; [done|].
  destruct (temporary_directories_removed E0 w "/tmp/repo0" "/tmp/repo0/repository.yaml"
              Hunder) as (_ & _ & _ & Hgen).
  eapply (Hgen pushing B "quay.io/demo" true).
  - vm_compute; reflexivity.
  - apply surjective_pairing.
Defined.

(** [Initialize_artifacts] on the directory of built packages, without
    pushing. *)
Lemma Initialize_artifacts_witness :
  let w := start E0 tt build_dir in
  let out := Initialize E0 building "/build" (db [fooA]) w in
  exists art,
    out.1 = Ok art
    /\ builds (new_events E0 w out.2) = packageImage "quay.io/demo" <$> art
    /\ pushes (new_events E0 w out.2) = []
    /\ fs E0 out.2 = fs E0 w.
Proof.
  intros w out. ok_run out Hout art. exists art. split; [done|].
  destruct (Initialize_artifacts E0 building "/build" (db [fooA]) w art out.2)
    as (_ & Hfs & _ & _ & Hnopush & _).
  - rewrite <- Hout. apply surjective_pairing.
  - destruct (Hnopush eq_refl) as [Hb Hp]. exact (conj Hb (conj Hp Hfs)).
Defined.

(** [Generate_descriptor] on a run of [Generate] that succeeds. *)
Lemma Generate_descriptor_witness :
  let out := Generate E0 pushing B "quay.io/demo" false (start E0 tt ∅) in
  exists r',
    out.1 = Ok r'
    /\ GetLastUpdate r' = "1700000123"
    /\ is_Some (RepositoryFiles r' !! REPOFILE_TREE_KEY)
    /\ is_Some (RepositoryFiles r' !! REPOFILE_COMPILER_TREE_KEY)
    /\ is_Some (RepositoryFiles r' !! REPOFILE_META_KEY)
    /\ GetName r' = "B".
Proof.
  intros out. ok_run out Hout r'. exists r'. split; [done|].
  destruct (Generate_descriptor E0 pushing B "quay.io/demo" false (start E0 tt ∅) r' out.2)
    as (Hlu & Htree & Hctree & Hmeta & _ & _ & Hname & _).
  - rewrite <- Hout. apply surjective_pairing.
  - exact (conj Hlu (conj Htree (conj Hctree (conj Hmeta Hname)))).
Defined.

(** [Generate_next_revision] on repository B at revision 7, published
    to the empty registry. *)
Lemma Generate_next_revision_witness :
  let out := Generate E3 pushing (SetRevision B 7) "quay.io/demo" false (start E3 tt ∅) in
  exists r', out.1 = Ok r' /\ GetRevision r' = 8.
Proof.
  intros out. ok_run out Hout r'. exists r'. split; [done|].
  rewrite (Generate_next_revision E3 pushing (SetRevision B 7) "quay.io/demo"
             (start E3 tt ∅) r' out.2).
  - done.
  - done.
  - intros repoTemp _. apply lookup_empty.
  - rewrite <- Hout. apply surjective_pairing.
Defined.


(** [Sync_takes_from_mirror] on the same run. *)
Lemma Sync_takes_from_mirror_witness :
  let out := Sync E0 A false (start E0 tt (cached_disk "A" 2)) in
  exists r' (remote : @LuetSystemRepository Pkg),
    out.1 = Ok r'
    /\ GetRevision r' = GetRevision remote
    /\ GetLastUpdate r' = GetLastUpdate remote
    /\ RepositoryFiles r' = RepositoryFiles remote
    /\ GetTreePath r' = cache_treefs E0 A.
Proof.
  intros out. ok_run out Hout r'.
  destruct (Sync_takes_from_mirror E0 A false (start E0 tt (cached_disk "A" 2)) r' out.2)
    as (c & file & data & remote & _ & _ & _ & Hrev & Hlu & Hfiles & _ & Htp).
  - rewrite <- Hout. apply surjective_pairing.
  - exists r', remote.
    exact (conj eq_refl (conj Hrev (conj Hlu (conj Hfiles (Htp eq_refl))))).
Defined.

(** [Sync_descriptor_matches_cache] on the same run. *)
Lemma Sync_descriptor_matches_cache_witness :
  let out := Sync E0 A false (start E0 tt (cached_disk "A" 2)) in
  exists r' meta,
    out.1 = Ok r'
    /\ NewLuetSystemRepositoryMetadata (fs E0 out.2)
         (Join (cache_metafs E0 A) REPOSITORY_METAFILE) = Ok meta
    /\ GetIndex r' = mIndex meta.
Proof.
  intros out. ok_run out Hout r'.
  destruct (Sync_descriptor_matches_cache E0 A false (start E0 tt (cached_disk "A" 2))
              r' out.2) as ((meta & Hmeta & Hindex) & _).
  - apply env_client_outside_cache.
  - reflexivity.
  - rewrite <- Hout. apply surjective_pairing.
  - exists r', meta. exact (conj eq_refl (conj Hmeta Hindex)).
Defined.


(** [Sync_removes_downloads] on a mirror whose tree bundle does not
    verify: neither the bundle nor the spec document is left behind. *)
Lemma Sync_removes_downloads_witness :
  let w := start E1 tt (cached_disk "A" 2) in
  let out := Sync E1 A false w in
  verifications (new_events E1 w out.2) = [("/tmp/dl/tree", false)]
  /\ fs E1 out.2 !! "/tmp/dl/tree" = None
  /\ fs E1 out.2 !! "/tmp/dl/spec" = None.
Proof.
  intros w out.
  assert (Hv : verifications (new_events E1 w out.2) = [("/tmp/dl/tree", false)])
    by (vm_compute; reflexivity).
  split; [exact Hv|].
  destruct (Sync_removes_downloads E1 A false w out.1 out.2) as [Hbundles Hspec].
  - apply surjective_pairing.
  - split.
    + apply (Hbundles "/tmp/dl/tree" false). rewrite Hv. apply list_elem_of_here.
    + eapply (Hspec _ "/tmp/dl/spec" (yaml_Marshal_spec (published manifest))).
      * reflexivity.
      * reflexivity.
      * vm_compute; reflexivity.
      * vm_compute; reflexivity.
Defined.

End Instance.
